(** * Deferred cleanup engine of the state store (state/cleanup.go)

    A shallow embedding of the cleanup queue, its dispatch loop [Cleanup] and
    the per-kind handlers.  The handlers are programs over the operations of
    the collaborators they call (units, machines, the storage backend, the
    transaction runner, the clock); the meaning of those operations is a
    parameter of the semantics, the control flow of the handlers is the one
    of the Go source. *)

From Stdlib Require Import String List ZArith Bool Lia DecimalString.
Import ListNotations.

Local Open Scope string_scope.
Local Open Scope list_scope.

Set Implicit Arguments.

(** ** Errors (github.com/juju/errors) *)

(** An [error] value.  [Annotated] and [Traced] are the wrappers built by
    [errors.Annotate] and [errors.Trace]; the other constructors are causes.
    The Go [nil] error is [None] in [option error]. *)
Inductive error : Type :=
| NotFound (what : string)
| ErrUnitHasSubordinates
| ErrUnitHasStorageAttachments
| errCharmInUse
| ContainsFilesystem (what : string)
| ErrNoOperations
| Errorf (format : string) (args : list string)
| Annotated (cause : error) (msg : string)
| Traced (cause : error).

Fixpoint Cause (e : error) : error :=
  match e with
  | Annotated c _ => Cause c
  | Traced c => Cause c
  | _ => e
  end.

Definition IsNotFound (err : option error) : bool :=
  match err with
  | Some e => match Cause e with NotFound _ => true | _ => false end
  | None => false
  end.

Definition IsContainsFilesystem (err : option error) : bool :=
  match err with
  | Some e => match Cause e with ContainsFilesystem _ => true | _ => false end
  | None => false
  end.

Definition Trace (err : option error) : option error := option_map Traced err.

Definition Annotate (err : option error) (msg : string) : option error :=
  option_map (fun e => Annotated e msg) err.

Definition isNil (err : option error) : bool :=
  match err with None => true | Some _ => false end.

(** [%d] of a length. *)
Definition fmtNat (n : nat) : string := NilZero.string_of_uint (Nat.to_uint n).

(** [err == ErrUnitHasSubordinates]: identity with the sentinel itself, a
    wrapped sentinel is a different value. *)
Definition isErrUnitHasSubordinates (err : option error) : bool :=
  match err with Some ErrUnitHasSubordinates => true | _ => false end.

Definition isErrUnitHasStorageAttachments (err : option error) : bool :=
  match err with Some ErrUnitHasStorageAttachments => true | _ => false end.

(** ** Time *)

(** Instants and durations, counted in the store's time unit from the zero
    value of [time.Time]. *)
Definition Time := Z.
Definition Duration := Z.

Definition forceTimeout : Duration := 0%Z.

Definition asap : Time := 0%Z.

Definition Add (t : Time) (d : Duration) : Time := (t + d)%Z.

(** ** Cleanup kinds and documents *)

Module cleanupKind.
Definition t := string.
Definition cleanupRelationSettings : t := "settings".
Definition cleanupUnitsForDyingApplication : t := "units".
Definition cleanupCharm : t := "charm".
Definition cleanupDyingUnit : t := "dyingUnit".
Definition cleanupForceDestroyedUnit : t := "forceDestroyUnit".
Definition cleanupForceRemoveUnit : t := "forceRemoveUnit".
Definition cleanupRemovedUnit : t := "removedUnit".
Definition cleanupApplicationsForDyingModel : t := "applications".
Definition cleanupDyingMachine : t := "dyingMachine".
Definition cleanupForceDestroyedMachine : t := "machine".
Definition cleanupAttachmentsForDyingStorage : t := "storageAttachments".
Definition cleanupAttachmentsForDyingVolume : t := "volumeAttachments".
Definition cleanupAttachmentsForDyingFilesystem : t := "filesystemAttachments".
Definition cleanupModelsForDyingController : t := "models".
Definition cleanupMachinesForDyingModel : t := "modelMachines".
Definition cleanupDyingUnitResources : t := "dyingUnitResources".
Definition cleanupResourceBlob : t := "resourceBlob".
Definition cleanupStorageForDyingModel : t := "modelStorage".

Definition all : list t :=
  [ cleanupRelationSettings; cleanupUnitsForDyingApplication; cleanupCharm;
    cleanupDyingUnit; cleanupForceDestroyedUnit; cleanupForceRemoveUnit;
    cleanupRemovedUnit; cleanupApplicationsForDyingModel; cleanupDyingMachine;
    cleanupForceDestroyedMachine; cleanupAttachmentsForDyingStorage;
    cleanupAttachmentsForDyingVolume; cleanupAttachmentsForDyingFilesystem;
    cleanupModelsForDyingController; cleanupMachinesForDyingModel;
    cleanupDyingUnitResources; cleanupResourceBlob; cleanupStorageForDyingModel ].
End cleanupKind.

(** The parameters of [Model.Destroy]; only the field the cleanup code sets
    itself is named, the rest travels as decoded. *)
Record DestroyModelParams : Type := {
  DestroyStorage : option bool;
  otherParams : string
}.

(** A task argument as it sits in the store ([bson.Raw]). *)
Inductive bsonRaw : Type :=
| RawBool (b : bool)
| RawInt (n : Z)
| RawString (s : string)
| RawParams (p : DestroyModelParams).

(** [raw.Unmarshal(&flag)] for a [bool] target: booleans decode to
    themselves, integers to "non zero", anything else is a type error and
    leaves the target as it was. *)
Definition UnmarshalBool (raw : bsonRaw) (target : bool) : bool * option error :=
  match raw with
  | RawBool b => (b, None)
  | RawInt n => (negb (Z.eqb n 0), None)
  | _ => (target, Some (Errorf "BSON kind is not compatible with type bool" []))
  end.

Definition UnmarshalParams (raw : bsonRaw) (target : DestroyModelParams)
  : DestroyModelParams * option error :=
  match raw with
  | RawParams p => (p, None)
  | _ => (target, Some (Errorf "BSON kind is not compatible with type DestroyModelParams" []))
  end.

(** [cleanupDoc] as stored: [When] is absent in records written before the
    field existed. *)
Record cleanupDoc : Type := {
  DocID : string;
  Kind : cleanupKind.t;
  When : option Time;
  Prefix : string;
  Args : list bsonRaw
}.

Definition cleanupsC : string := "cleanups".
Definition machinesC : string := "machines".

(** A [txn.Op].  The cleanup code builds inserts and removals on the cleanups
    collection and one update on the machines collection; the operations
    that [removePortsOps] returns address the port collections and are kept
    opaque. *)
Inductive txnOp : Type :=
| OpInsert (C : string) (Id : string) (doc : cleanupDoc)
| OpRemove (C : string) (Id : string)
| OpUpdate (C : string) (Id : string) (update : string)
| OpPorts (op : string).

(** ** Entities, as far as the cleanup code reads them *)

Record Unit : Type := {
  Name : string;
  SubordinateNames : list string
}.

Record Machine : Type := {
  machineId : string;
  Principals : list string;
  IsManager : bool;
  HasVote : bool;
  isContainer : bool
}.

Record StorageAttachment : Type := {
  StorageInstance : string;
  saUnit : string
}.

Record FilesystemAttachment : Type := {
  fsaHost : string;
  fsaFilesystem : string
}.

Record VolumeAttachment : Type := {
  vaHost : string;
  vaVolume : string
}.

Record Filesystem : Type := { FilesystemTag : string }.
Record StorageInstanceT : Type := { StorageTag : string }.
Record Relation : Type := { relationKey : string }.
Record RelationUnitT : Type := { ruRelation : string; ruUnit : string }.
Record Charm : Type := { charmURL : string }.
Record ModelT : Type := { modelOf : string }.
Record ApplicationDoc : Type := { applicationName : string }.
Record RemoteApplicationDoc : Type := { remoteApplicationName : string }.

Inductive ActionStatus : Type :=
| ActionPending | ActionRunning | ActionCompleted | ActionCancelled | ActionFailed.

Record Action : Type := {
  actionName : string;
  actionStatus : ActionStatus
}.

Record ActionResults : Type := {
  resultStatus : ActionStatus;
  resultMessage : string
}.

Inductive Status : Type := Detached.

(** ** Operations of the collaborators

    One constructor per call the cleanup code makes into code that lives
    outside cleanup.go, indexed by what the call returns.  A Go result
    [(T, error)] is a pair: the code sometimes goes on with the value after
    an error. *)
Inductive Op : Type -> Type :=
(* the state *)
| StUnit (name : string) : Op (Unit * option error)
| StMachine (id : string) : Op (Machine * option error)
| StCharm (curl : string) : Op (Charm * option error)
| ParseURL (url : string) : Op (string * option error)
| NewStorageBackend : Op (option error)
| AllModelUUIDs : Op (list string * option error)
| newStateNoWorkers (modelUUID : string) : Op (string * option error)
| StateClose (st : string) : Op (option error)
| StateModel (st : string) : Op (ModelT * option error)
| ModelDestroy (m : ModelT) (args : DestroyModelParams) : Op (option error)
| AllMachines : Op (list Machine * option error)
| ApplyRelationSettingsCleanup (prefix : string) : Op (option error)
| ApplyPayloadCleanup (unit : string) : Op (option error)
| ResourceStorageRemove (path : string) : Op (option error)
| FindAliveApplications : Op (list ApplicationDoc * option error)
| ApplyDestroyApplication (a : ApplicationDoc) (removeOffers : bool) : Op (option error)
| FindAliveRemoteApplications : Op (list RemoteApplicationDoc * option error)
| RemoteApplicationDestroy (a : RemoteApplicationDoc) : Op (option error)
| FindAliveUnits (application : string) : Op (list Unit * option error)
| ApplyDestroyUnit (u : Unit) (destroyStorage force : bool) : Op (option error)
| matchingActionsByReceiverId (id : string) : Op (list Action * option error)
| ActionFinish (a : Action) (r : ActionResults) : Op (option error)
| RemoveControllerMachine (m : Machine) : Op (option error)
(* units *)
| RelationsJoined (u : Unit) : Op (list Relation * option error)
| RelationsInScope (u : Unit) : Op (list Relation * option error)
| RelationUnit (r : Relation) (u : Unit) : Op (RelationUnitT * option error)
| PrepareLeaveScope (ru : RelationUnitT) : Op (option error)
| LeaveScope (ru : RelationUnitT) : Op (option error)
| UnitDestroyWithForce (u : Unit) (force : bool) : Op (list error * option error)
| UnitEnsureDead (u : Unit) : Op (option error)
| UnitRemoveWithForce (u : Unit) (force : bool) : Op (list error * option error)
| UnitRefresh (u : Unit) : Op (Unit * option error)
| CharmDestroy (c : Charm) : Op (option error)
| CharmRemove (c : Charm) : Op (option error)
(* machines *)
| RemoveUpgradeSeriesLock (m : Machine) : Op (option error)
| Containers (m : Machine) : Op (list string * option error)
| IsManual (m : Machine) : Op (bool * option error)
| MachineDestroy (m : Machine) : Op (option error)
| MachineForceDestroy (m : Machine) : Op (option error)
| MachineEnsureDead (m : Machine) : Op (option error)
| MachineRefresh (m : Machine) : Op (Machine * option error)
| MachineRemove (m : Machine) : Op (option error)
| removePortsOps (m : Machine) : Op (list string * option error)
(* the storage backend *)
| AllStorageInstances : Op (list StorageInstanceT * option error)
| UnitStorageAttachments (unit : string) : Op (list StorageAttachment * option error)
| DestroyStorageInstance (storage : string) (destroyAttached force : bool) : Op (option error)
| ReleaseStorageInstance (storage : string) (destroyAttached force : bool) : Op (option error)
| DetachStorage (storage unit : string) (force : bool) : Op (option error)
| RemoveStorageAttachment (storage unit : string) (force : bool) : Op (option error)
| DestroyUnitStorageAttachments (unit : string) : Op (option error)
| UnitFilesystemAttachments (unit : string) : Op (list FilesystemAttachment * option error)
| UnitVolumeAttachments (unit : string) : Op (list VolumeAttachment * option error)
| MachineFilesystemAttachments (machine : string) : Op (list FilesystemAttachment * option error)
| MachineVolumeAttachments (machine : string) : Op (list VolumeAttachment * option error)
| filesystems (hostid : string) : Op (list Filesystem * option error)
| DestroyFilesystem (fs : string) : Op (option error)
| isDetachableFilesystemTag (fs : string) : Op (bool * option error)
| DetachFilesystem (host fs : string) : Op (option error)
| SbFilesystem (fs : string) : Op (Filesystem * option error)
| FilesystemVolume (f : Filesystem) : Op (string * option error)
| FilesystemSetStatus (f : Filesystem) (s : Status) : Op (option error)
| RemoveFilesystemAttachment (host fs : string) : Op (option error)
| RemoveVolumeAttachmentPlan (host volume : string) : Op (option error)
| RemoveFilesystem (fs : string) : Op (option error)
| isDetachableVolumeTag (volume : string) : Op (bool * option error)
| DetachVolume (host volume : string) : Op (option error)
| FindStorageAttachmentUnits (storageId : string) : Op (list string * option error)
| FindVolumeAttachmentHosts (volumeId : string) : Op (list string * option error)
| FindFilesystemAttachmentHosts (filesystemId : string) : Op (list string * option error)
(* clock, object ids, transactions, the cursor over due cleanups *)
| Now : Op Time
| NewObjectId : Op string
| RunTransaction (ops : list txnOp) : Op (option error)
| IterOutcome (matching : nat) : Op (option (nat * error)).

(** ** Logging *)

Inductive level : Type := Debug | Info | Warning | Error.

Inductive logArg : Type :=
| V (s : string)
| E (err : option error)
| Es (errs : list error).

(** ** Programs

    A handler is a tree: it returns, or calls a collaborator and goes on
    with the answer, or writes a log line and goes on, or reads the cleanups
    collection ([cleanups.Find(query)]) and goes on with the documents. *)
Inductive Prog (A : Type) : Type :=
| Ret (a : A)
| Call (R : Type) (o : Op R) (k : R -> Prog A)
| Logf (lvl : level) (format : string) (args : list logArg) (k : Prog A)
| Find (query : cleanupDoc -> bool) (k : list cleanupDoc -> Prog A).

Arguments Ret {A} a.
Arguments Call {A R} o k.
Arguments Logf {A} lvl format args k.
Arguments Find {A} query k.

Fixpoint bind {A B : Type} (p : Prog A) (f : A -> Prog B) : Prog B :=
  match p with
  | Ret a => f a
  | Call o k => Call o (fun r => bind (k r) f)
  | Logf l fmt args k => Logf l fmt args (bind k f)
  | Find q k => Find q (fun docs => bind (k docs) f)
  end.

Definition call {R : Type} (o : Op R) : Prog R := Call o (fun r => Ret r).

Definition logf (lvl : level) (format : string) (args : list logArg) : Prog unit :=
  Logf lvl format args (Ret tt).

Definition find (query : cleanupDoc -> bool) : Prog (list cleanupDoc) :=
  Find query (fun docs => Ret docs).

(** What a recursive function of the source yields in the model: the value
    it returned, or nothing because the recursion went deeper than the fuel
    given. *)
Inductive outcome (R : Type) : Type :=
| Returned (r : R)
| OutOfFuel.

Arguments Returned {R} r.
Arguments OutOfFuel {R}.

Declare Scope prog_scope.
Delimit Scope prog_scope with prog.
Notation "x <- p ;; q" := (bind p (fun x => q))
  (at level 100, p at next level, right associativity) : prog_scope.
Notation "' pat <- p ;; q" := (bind p (fun x => match x with pat => q end))
  (at level 100, pat pattern, p at next level, right associativity) : prog_scope.
Notation "p ;; q" := (bind p (fun _ => q))
  (at level 100, right associativity) : prog_scope.
Local Open Scope prog_scope.

(** A [for ... range] loop whose body may return from the enclosing
    function: the body answers [Some r] to return [r], [None] to go on with
    the next element ([continue], or the end of the body). *)
Fixpoint forEach {X R : Type} (xs : list X) (body : X -> Prog (option R))
  : Prog (option R) :=
  match xs with
  | [] => Ret None
  | x :: rest =>
      r <- body x ;;
      match r with
      | Some v => Ret (Some v)
      | None => forEach rest body
      end
  end.

(** What a function returns after such a loop: the value the loop returned
    with, or the rest of the function. *)
Definition orElse {R : Type} (loop : Prog (option R)) (rest : Prog R) : Prog R :=
  r <- loop ;;
  match r with
  | Some v => Ret v
  | None => rest
  end.

(** The same inside a loop body or a block: the step returns from the
    function ([Some v]) or the block goes on. *)
Definition orNext {R : Type} (step : Prog (option R)) (rest : Prog (option R))
  : Prog (option R) :=
  r <- step ;;
  match r with
  | Some v => Ret (Some v)
  | None => rest
  end.

Notation "'try!' s ;; k" := (orElse s k)
  (at level 100, s at next level, right associativity) : prog_scope.
Notation "'step!' s ;; k" := (orNext s k)
  (at level 100, s at next level, right associativity) : prog_scope.

(** ** The cleanup operations *)

(** [newCleanupAtOp]: the insert of a fresh cleanup document. *)
Definition newCleanupAtOp (when : Time) (kind : cleanupKind.t) (prefix : string)
    (args : list bsonRaw) : Prog txnOp :=
  id <- call NewObjectId ;;
  let doc := {| DocID := id; Kind := kind; When := Some when;
                Prefix := prefix; Args := args |} in
  Ret (OpInsert cleanupsC (DocID doc) doc).

Definition newCleanupOp (kind : cleanupKind.t) (prefix : string)
    (args : list bsonRaw) : Prog txnOp :=
  newCleanupAtOp asap kind prefix args.

(** [st.db().Run(transactions)]: the runner builds the operations with
    attempt 0 and runs them; it asks for another attempt only after an
    aborted assertion, and the operations built here carry none. *)
Definition dbRun (transactions : nat -> Prog (list txnOp * option error))
  : Prog (option error) :=
  '(ops, err) <- transactions 0%nat ;;
  match err with
  | Some ErrNoOperations => Ret None
  | Some e => Ret (Some e)
  | None => call (RunTransaction ops)
  end.

(** [closeIter], with the answer of [iter.Close()] and the current value of
    the caller's named result; the new value of that result is returned. *)
Definition closeIter (iterClose : option error) (errOut : option error)
    (message : string) : Prog (option error) :=
  match iterClose with
  | None => Ret errOut
  | Some _ =>
      let err := Annotate iterClose message in
      match errOut with
      | None => Ret err
      | Some _ => logf Error "%v" [E err] ;; Ret errOut
      end
  end.

Definition cleanupResourceBlob (storagePath : string) : Prog (option error) :=
  if String.eqb storagePath "" then Ret None
  else
    err <- call (ResourceStorageRemove storagePath) ;;
    if IsNotFound err then Ret None
    else Ret (Trace err).

Section WithState.

(** [st.ModelUUID()] and [st.docID]. *)
Variable modelUUID : string.
Variable docID : string -> string.

Definition cleanupRelationSettings (prefix : string) : Prog (option error) :=
  err <- call (ApplyRelationSettingsCleanup (docID prefix)) ;;
  if negb (isNil err) then Ret (Trace err)
  else Ret None.

(** The loop of [cleanupModelsForDyingController]; [deferred] are the states
    whose [Close] is deferred so far, the latest first. *)
Fixpoint destroyModels (args : DestroyModelParams) (modelUUIDs : list string)
    (deferred : list string) : Prog (option error * list string) :=
  match modelUUIDs with
  | [] => Ret (None, deferred)
  | modelUUID :: rest =>
      '(newSt, err) <- call (newStateNoWorkers modelUUID) ;;
      if negb (isNil err) then
        if IsNotFound err then destroyModels args rest deferred
        else Ret (Trace err, deferred)
      else
        let deferred := newSt :: deferred in
        '(model, err) <- call (StateModel newSt) ;;
        if negb (isNil err) then Ret (Trace err, deferred)
        else
          err <- call (ModelDestroy model args) ;;
          if negb (isNil err) then Ret (Trace err, deferred)
          else destroyModels args rest deferred
  end.

Fixpoint runDeferredClose (deferred : list string) : Prog unit :=
  match deferred with
  | [] => Ret tt
  | newSt :: rest => _ <- call (StateClose newSt) ;; runDeferredClose rest
  end.

Definition cleanupModelsForDyingController (cleanupArgs : list bsonRaw)
  : Prog (option error) :=
  let args := {| DestroyStorage := None; otherParams := "" |} in
  let rest (args : DestroyModelParams) : Prog (option error) :=
    '(modelUUIDs, err) <- call AllModelUUIDs ;;
    if negb (isNil err) then Ret (Trace err)
    else
      '(err, deferred) <- destroyModels args modelUUIDs [] ;;
      runDeferredClose deferred ;;
      Ret err in
  let n := length cleanupArgs in
  match n with
  | 0%nat =>
      (* Old cleanups have no args, so follow the old behaviour. *)
      let destroyStorage := true in
      rest {| DestroyStorage := Some destroyStorage; otherParams := otherParams args |}
  | 1%nat =>
      let '(args, err) := UnmarshalParams (nth 0 cleanupArgs (RawBool false)) args in
      if negb (isNil err) then Ret (Annotate err "unmarshalling cleanup args")
      else rest args
  | _ => Ret (Some (Errorf "expected 0-1 arguments, got %d" [fmtNat n]))
  end.

Definition cleanupMachinesForDyingModel : Prog (option error) :=
  '(machines, err) <- call AllMachines ;;
  if negb (isNil err) then Ret (Trace err)
  else
    try! forEach machines (fun m =>
      if IsManager m then Ret None
      else if isContainer m then Ret None
      else
        '(manual, err) <- call (IsManual m) ;;
        if negb (isNil err) then Ret (Some (Trace err))
        else
          let destroy := if manual then MachineDestroy else MachineForceDestroy in
          err <- call (destroy m) ;;
          if negb (isNil err) then Ret (Some (Trace err))
          else Ret None) ;;
    Ret None.

Definition cleanupStorageForDyingModel (cleanupArgs : list bsonRaw)
  : Prog (option error) :=
  err <- call NewStorageBackend ;;
  if negb (isNil err) then Ret (Trace err)
  else
    let destroyStorage := DestroyStorageInstance in
    let destroyStorageFromArg :=
      let '(destroyStorageFlag, err) :=
        UnmarshalBool (nth 0 cleanupArgs (RawBool false)) false in
      if negb (isNil err) then
        (destroyStorage, Annotate err "unmarshalling cleanup arg 'destroyStorage'")
      else if negb destroyStorageFlag then (ReleaseStorageInstance, None)
      else (destroyStorage, None) in
    let force := false in
    let rest (destroyStorage : string -> bool -> bool -> Op (option error))
             (force : bool) : Prog (option error) :=
      '(storage, err) <- call AllStorageInstances ;;
      if negb (isNil err) then Ret (Trace err)
      else
        try! forEach storage (fun s =>
          let destroyAttached := true in
          err <- call (destroyStorage (StorageTag s) destroyAttached force) ;;
          if IsNotFound err then Ret None
          else if negb (isNil err) then Ret (Some (Trace err))
          else Ret None) ;;
        Ret None in
    (* It's valid to have no args: old cleanups have no args, so follow the
       old behaviour. *)
    let n := length cleanupArgs in
    if (0 <? n)%nat then
      if (2 <? n)%nat then Ret (Some (Errorf "expected 0-2 arguments, got %d" [fmtNat n]))
      else
        let '(destroyStorage, err) :=
          if (1 <=? n)%nat then destroyStorageFromArg else (destroyStorage, None) in
        if negb (isNil err) then Ret err
        else
          let '(force, err) :=
            if (2 <=? n)%nat then UnmarshalBool (nth 1 cleanupArgs (RawBool false)) force
            else (force, None) in
          if negb (isNil err) then Ret (Annotate err "unmarshalling cleanup arg 'force'")
          else rest destroyStorage force
    else rest destroyStorage force.

Definition removeApplicationsForDyingModel : Prog (option error) :=
  '(applications, iterClose) <- call FindAliveApplications ;;
  err <- (try! forEach applications (fun application =>
            let removeOffers := true in
            err <- call (ApplyDestroyApplication application removeOffers) ;;
            if negb (isNil err) then Ret (Some (Trace err))
            else Ret None) ;;
          Ret None) ;;
  closeIter iterClose err "reading application document".

Definition removeRemoteApplicationsForDyingModel : Prog (option error) :=
  '(remoteApps, iterClose) <- call FindAliveRemoteApplications ;;
  err <- (try! forEach remoteApps (fun remoteApp =>
            err <- call (RemoteApplicationDestroy remoteApp) ;;
            if negb (isNil err) then Ret (Some (Trace err))
            else Ret None) ;;
          Ret None) ;;
  closeIter iterClose err "reading remote application document".

Definition cleanupApplicationsForDyingModel : Prog (option error) :=
  err <- removeRemoteApplicationsForDyingModel ;;
  if negb (isNil err) then Ret err
  else removeApplicationsForDyingModel.

Definition cleanupUnitsForDyingApplication (applicationname : string)
    (cleanupArgs : list bsonRaw) : Prog (option error) :=
  let destroyStorage := false in
  let force := false in
  let rest (destroyStorage force : bool) : Prog (option error) :=
    '(units, iterClose) <- call (FindAliveUnits applicationname) ;;
    err <- (try! forEach units (fun unit =>
              err <- call (ApplyDestroyUnit unit destroyStorage force) ;;
              if negb (isNil err) then Ret (Some (Trace err))
              else Ret None) ;;
            Ret None) ;;
    closeIter iterClose err "reading unit document" in
  (* It's valid to have no args: old cleanups have no args, so follow the
     old behaviour. *)
  let n := length cleanupArgs in
  if (0 <? n)%nat then
    if (2 <? n)%nat then Ret (Some (Errorf "expected 0-2 arguments, got %d" [fmtNat n]))
    else
      let '(destroyStorage, err) :=
        if (1 <=? n)%nat then UnmarshalBool (nth 0 cleanupArgs (RawBool false)) destroyStorage
        else (destroyStorage, None) in
      if negb (isNil err) then Ret (Annotate err "unmarshalling cleanup args")
      else
        let '(force, err) :=
          if (2 <=? n)%nat then UnmarshalBool (nth 1 cleanupArgs (RawBool false)) force
          else (force, None) in
        if negb (isNil err) then Ret (Annotate err "unmarshalling cleanup arg 'force'")
        else rest destroyStorage force
  else rest destroyStorage force.

Definition cleanupCharm (charmURL : string) : Prog (option error) :=
  '(curl, err) <- call (ParseURL charmURL) ;;
  if negb (isNil err) then Ret (Annotate err "invalid charm URL %v")
  else
    '(ch, err) <- call (StCharm curl) ;;
    if IsNotFound err then Ret None
    else if negb (isNil err) then Ret (Annotate err "reading charm")
    else
      err <- call (CharmDestroy ch) ;;
      match option_map Cause err with
      | None =>
          err <- call (CharmRemove ch) ;;
          if negb (isNil err) then Ret (Trace err)
          else Ret None
      | Some errCharmInUse => Ret None
      | Some _ => Ret (Annotate err "destroying charm")
      end.

(** [scheduleForceCleanup]: the failure of the transaction is logged and
    nothing is returned. *)
Definition scheduleForceCleanup (kind : cleanupKind.t) (name : string) : Prog unit :=
  now <- call Now ;;
  let deadline := Add now forceTimeout in
  op <- newCleanupAtOp deadline kind name [] ;;
  err <- dbRun (fun _ => Ret ([op], None)) ;;
  if negb (isNil err) then
    logf Warning "couldn't schedule %s cleanup: %v" [V kind; E err]
  else Ret tt.

Definition cleanupUnitStorageAttachments (unitTag : string) (remove force : bool)
  : Prog (option error) :=
  err <- call NewStorageBackend ;;
  if negb (isNil err) then Ret err
  else
    '(storageAttachments, err) <- call (UnitStorageAttachments unitTag) ;;
    if negb (isNil err) then Ret err
    else
      try! forEach storageAttachments (fun storageAttachment =>
        let storageTag := StorageInstance storageAttachment in
        err <- call (DetachStorage storageTag unitTag force) ;;
        if IsNotFound err then Ret None
        else
          step! (if negb (isNil err) then
                   if negb force then Ret (Some err)
                   else
                     logf Warning "could not detach storage %v for unit %v: %v"
                          [V storageTag; V unitTag; E err] ;;
                     Ret None
                 else Ret None) ;;
          if negb remove then Ret None
          else
            err <- call (RemoveStorageAttachment storageTag unitTag force) ;;
            if IsNotFound err then Ret None
            else if negb (isNil err) then
              if negb force then Ret (Some err)
              else
                logf Warning
                  "could not remove storage attachment for storage %v for unit %v: %v"
                  [V storageTag; V unitTag; E err] ;;
                Ret None
            else Ret None) ;;
      Ret None.

Definition cleanupUnitStorageInstances (unitTag : string) (force : bool)
  : Prog (option error) :=
  err <- call NewStorageBackend ;;
  if negb (isNil err) then Ret err
  else
    '(storageAttachments, err) <- call (UnitStorageAttachments unitTag) ;;
    if negb (isNil err) then Ret err
    else
      try! forEach storageAttachments (fun storageAttachment =>
        let storageTag := StorageInstance storageAttachment in
        err <- call (DestroyStorageInstance storageTag true force) ;;
        if IsNotFound err then Ret None
        else if negb (isNil err) then Ret (Some err)
        else Ret None) ;;
      Ret None.

(** [cleanupDyingUnit] marks resources owned by the unit as dying. *)
Definition cleanupDyingUnit (name : string) (cleanupArgs : list bsonRaw)
  : Prog (option error) :=
  let destroyStorage := false in
  let force := false in
  let rest (destroyStorage force : bool) : Prog (option error) :=
    '(unit, err) <- call (StUnit name) ;;
    if IsNotFound err then Ret None
    else if negb (isNil err) then Ret err
    else
      (* Mark the unit as departing from its joined relations. *)
      '(relations, err) <- call (RelationsJoined unit) ;;
      try! (if negb (isNil err) then
              if negb force then Ret (Some err)
              else
                logf Warning
                  "could not get joined relations for unit %v during dying unit cleanup: %v"
                  [V (Name unit); E err] ;;
                Ret None
            else Ret None) ;;
      try! forEach relations (fun relation =>
        '(relationUnit, err) <- call (RelationUnit relation unit) ;;
        if IsNotFound err then Ret None
        else if negb (isNil err) then
          if negb force then Ret (Some err)
          else
            logf Warning
              "could not get unit relation for unit %v during dying unit cleanup: %v"
              [V (Name unit); E err] ;;
            Ret None
        else
          err <- call (PrepareLeaveScope relationUnit) ;;
          if negb (isNil err) then
            if negb force then Ret (Some err)
            else
              logf Warning
                "could not prepare to leave scope for relation %v for unit %v during dying unit cleanup: %v"
                [V (relationKey relation); V (Name unit); E err] ;;
              Ret None
          else Ret None) ;;
      (* If we're forcing, set up a backstop cleanup to really remove the
         unit in the case that the unit and machine agents don't. *)
      (if force then scheduleForceCleanup cleanupKind.cleanupForceDestroyedUnit name
       else Ret tt) ;;
      if destroyStorage then
        cleanupUnitStorageInstances (Name unit) force
      else
        cleanupUnitStorageAttachments (Name unit) false force in
  (* It's valid to have no args: old cleanups have no args, so follow the
     old behaviour. *)
  let n := length cleanupArgs in
  if (0 <? n)%nat then
    if (2 <? n)%nat then Ret (Some (Errorf "expected 0-2 arguments, got %d" [fmtNat n]))
    else
      let '(destroyStorage, err) :=
        if (1 <=? n)%nat then UnmarshalBool (nth 0 cleanupArgs (RawBool false)) destroyStorage
        else (destroyStorage, None) in
      if negb (isNil err) then Ret (Annotate err "unmarshalling cleanup args")
      else
        let '(force, err) :=
          if (2 <=? n)%nat then UnmarshalBool (nth 1 cleanupArgs (RawBool false)) force
          else (force, None) in
        if negb (isNil err) then Ret (Annotate err "unmarshalling cleanup arg 'force'")
        else rest destroyStorage force
  else rest destroyStorage force.

Definition forceRemoveUnitStorageAttachments (unit : Unit) : Prog (option error) :=
  err <- call NewStorageBackend ;;
  if negb (isNil err) then Ret (Annotate err "couldn't get storage backend")
  else
    err <- call (DestroyUnitStorageAttachments (Name unit)) ;;
    if negb (isNil err) then Ret (Annotate err "destroying storage attachments for %q")
    else
      '(attachments, err) <- call (UnitStorageAttachments (Name unit)) ;;
      if negb (isNil err) then Ret (Annotate err "getting storage attachments for %q")
      else
        try! forEach attachments (fun attachment =>
          err <- call (RemoveStorageAttachment (StorageInstance attachment)
                                               (Name unit) true) ;;
          if negb (isNil err) then
            logf Warning "couldn't remove storage attachment %q for %q: %v"
                 [V (StorageInstance attachment); V (Name unit); E err] ;;
            Ret None
          else Ret None) ;;
        Ret None.

Definition cleanupForceDestroyedUnit (unitId : string) : Prog (option error) :=
  '(unit, err) <- call (StUnit unitId) ;;
  if IsNotFound err then
    logf Debug "no need to force unit to dead %q" [V unitId] ;;
    Ret None
  else if negb (isNil err) then Ret (Trace err)
  else
    (* Destroy all subordinates. *)
    try! forEach (SubordinateNames unit) (fun subName =>
      '(subUnit, err) <- call (StUnit subName) ;;
      if IsNotFound err then Ret None
      else
        (if negb (isNil err) then
           logf Warning "couldn't get subordinate %q to force destroy: %v"
                [V subName; E err]
         else Ret tt) ;;
        '(opErrs, err) <- call (UnitDestroyWithForce subUnit true) ;;
        if negb (Nat.eqb (length opErrs) 0) || negb (isNil err) then
          logf Warning "errors while destroying subordinate %q: %v, %v"
               [V subName; E err; Es opErrs] ;;
          Ret None
        else Ret None) ;;
    (* LeaveScope on all of the unit's relations. *)
    '(relations, err) <- call (RelationsInScope unit) ;;
    (if isNil err then
       try! forEach relations (fun relation =>
         '(ru, err) <- call (RelationUnit relation unit) ;;
         if negb (isNil err) then
           logf Warning "couldn't get relation unit for %q in %q: %v"
                [V (Name unit); V (relationKey relation); E err] ;;
           Ret None
         else
           err <- call (LeaveScope ru) ;;
           if negb (isNil err) then
             logf Warning "unit %q couldn't leave scope of relation %q: %v"
                  [V unitId; V (relationKey relation); E err] ;;
             Ret (@None Datatypes.unit)
           else Ret None) ;;
       Ret tt
     else
       logf Warning "couldn't get in-scope relations for unit %q: %v"
            [V unitId; E err]) ;;
    (* Detach all storage. *)
    err <- forceRemoveUnitStorageAttachments unit ;;
    (if negb (isNil err) then
       logf Warning "couldn't remove storage attachments for %q: %v" [V unitId; E err]
     else Ret tt) ;;
    (* Mark the unit dead. *)
    err <- call (UnitEnsureDead unit) ;;
    if isErrUnitHasSubordinates err || isErrUnitHasStorageAttachments err then
      (* In this case we do want to die and try again. *)
      Ret err
    else
      (if negb (isNil err) then
         logf Warning "couldn't set unit %q dead: %v" [V unitId; E err]
       else Ret tt) ;;
      (* Set up another cleanup to remove the unit in a minute if the
         deployer doesn't do it. *)
      scheduleForceCleanup cleanupKind.cleanupForceRemoveUnit unitId ;;
      Ret None.

Definition cleanupForceRemoveUnit (unitId : string) : Prog (option error) :=
  '(unit, err) <- call (StUnit unitId) ;;
  if IsNotFound err then
    logf Debug "no need to force remove unit %q" [V unitId] ;;
    Ret None
  else if negb (isNil err) then Ret (Trace err)
  else
    '(opErrs, err) <- call (UnitRemoveWithForce unit true) ;;
    (if negb (Nat.eqb (length opErrs) 0) then
       logf Warning "errors encountered force-removing unit %q: %v" [V unitId; Es opErrs]
     else Ret tt) ;;
    Ret (Trace err).

(** A loop that carries a value from one iteration to the next: the body
    answers [inl s] to go on with [s], [inr r] to return [r] from the
    function. *)
Fixpoint foldEach {X S R : Type} (xs : list X) (s : S)
    (body : X -> S -> Prog (S + R)) : Prog (S + R) :=
  match xs with
  | [] => Ret (inl s)
  | x :: rest =>
      r <- body x s ;;
      match r with
      | inl s' => foldEach rest s' body
      | inr v => Ret (inr v)
      end
  end.

Definition appendErr (opErrs : list error) (err : option error) : list error :=
  match err with
  | Some e => opErrs ++ [e]
  | None => opErrs
  end.

Definition cleanupDyingEntityStorage (hostTag : string) (manual : bool)
    (filesystemAttachments : list FilesystemAttachment)
    (volumeAttachments : list VolumeAttachment) (force : bool)
  : Prog (option error) :=
  (* if err != nil && !errors.IsNotFound(err) { if !force { return
     errors.Trace(err) }; logger.Warningf(...) } *)
  let unlessForced (err : option error) (format : string) (args : list logArg)
    : Prog (option (option error)) :=
    if negb (isNil err) && negb (IsNotFound err) then
      if negb force then Ret (Some (Trace err))
      else logf Warning format (args ++ [E err]) ;; Ret None
    else Ret None in
  (* Destroy non-detachable machine/unit filesystems first. *)
  '(hostFilesystems, err) <- call (filesystems hostTag) ;;
  (if negb (isNil err) && negb (IsNotFound err) then
     let err := Annotate err "getting host filesystems" in
     if negb force then logf Warning "%v" [E err]
     else Ret tt
   else Ret tt) ;;
  try! forEach hostFilesystems (fun f =>
    err <- call (DestroyFilesystem (FilesystemTag f)) ;;
    unlessForced err "could not destroy filesystem %v for %v: %v"
                 [V (FilesystemTag f); V hostTag]) ;;
  (* Detach all filesystems from the machine/unit. *)
  try! forEach filesystemAttachments (fun fsa =>
    '(detachable, err) <- call (isDetachableFilesystemTag (fsaFilesystem fsa)) ;;
    step! unlessForced err "could not determine if filesystem %v for %v is detachable: %v"
                       [V (fsaFilesystem fsa); V hostTag] ;;
    step! (if detachable then
             err <- call (DetachFilesystem (fsaHost fsa) (fsaFilesystem fsa)) ;;
             unlessForced err "could not detach filesystem %v for %v: %v"
                          [V (fsaFilesystem fsa); V hostTag]
           else Ret None) ;;
    if negb manual then
      (* For non-manual machines we immediately remove the attachments for
         non-detachable or volume-backed filesystems. *)
      let machineTag := fsaHost fsa in
      let removeAttachment (volumeTag : string) (updateStatus : Prog (option error))
        : Prog (option (option error)) :=
        err <- call (RemoveFilesystemAttachment (fsaHost fsa) (fsaFilesystem fsa)) ;;
        step! unlessForced err "could not remove attachment for filesystem %v for %v: %v"
                           [V (fsaFilesystem fsa); V hostTag] ;;
        step! (if negb (String.eqb volumeTag "") then
                 err <- call (RemoveVolumeAttachmentPlan machineTag volumeTag) ;;
                 unlessForced err "could not remove attachment plan for volume %v for %v: %v"
                              [V volumeTag; V hostTag]
               else Ret None) ;;
        err <- updateStatus ;;
        unlessForced err "could not update status while cleaning up storage for dying %v: %v"
                     [V hostTag] in
      if negb detachable then
        (* remove = true; updateStatus = func() error { return nil } *)
        removeAttachment "" (Ret None)
      else
        '(f, err) <- call (SbFilesystem (fsaFilesystem fsa)) ;;
        step! unlessForced err "could not get filesystem %v for %v: %v"
                           [V (fsaFilesystem fsa); V hostTag] ;;
        if isNil err then
          '(v, verr) <- call (FilesystemVolume f) ;;
          let updateStatus := call (FilesystemSetStatus f Detached) in
          if isNil verr && negb (IsNotFound verr) then
            (* Filesystem is volume-backed: volumeTag = v; remove = true *)
            removeAttachment v updateStatus
          else Ret None
        else Ret None
    else Ret None) ;;
  (* For non-manual machines we immediately remove the non-detachable
     filesystems, which should have been detached above. *)
  try! (if negb manual then
          forEach hostFilesystems (fun f =>
            err <- call (RemoveFilesystem (FilesystemTag f)) ;;
            unlessForced err "could not remove filesystem %v for dying %v: %v"
                         [V (FilesystemTag f); V hostTag])
        else Ret None) ;;
  (* Detach all remaining volumes from the machine. *)
  try! forEach volumeAttachments (fun va =>
    let detach : Prog (option (option error)) :=
      err <- call (DetachVolume (vaHost va) (vaVolume va)) ;;
      if negb (isNil err) && negb (IsNotFound err) then
        if IsContainsFilesystem err then
          (* The volume will be destroyed when the contained filesystem is
             removed. *)
          Ret None
        else if negb force then Ret (Some (Trace err))
        else
          logf Warning "could not detach volume %v for dying %v: %v"
               [V (vaVolume va); V hostTag; E err] ;;
          Ret None
      else Ret None in
    '(detachable, err) <- call (isDetachableVolumeTag (vaVolume va)) ;;
    if negb (isNil err) && negb (IsNotFound err) then
      if negb force then Ret (Some (Trace err))
      else
        logf Warning "could not determine if volume %v for dying %v is detachable: %v"
             [V (vaVolume va); V hostTag; E err] ;;
        detach
    else if negb detachable then
      (* Non-detachable volumes will be removed along with the machine. *)
      Ret None
    else detach) ;;
  Ret None.

Definition cleanupDyingUnitResources (unitId : string) (cleanupArgs : list bsonRaw)
  : Prog (option error) :=
  let force := false in
  let rest (force : bool) : Prog (option error) :=
    let unitTag := unitId in
    err <- call NewStorageBackend ;;
    if negb (isNil err) then Ret err
    else
      '(filesystemAttachments, err) <- call (UnitFilesystemAttachments unitTag) ;;
      try! (if negb (isNil err) then
              let err := Annotate err "getting unit filesystem attachments" in
              if negb force then Ret (Some err)
              else logf Warning "%v" [E err] ;; Ret None
            else Ret None) ;;
      '(volumeAttachments, err) <- call (UnitVolumeAttachments unitTag) ;;
      try! (if negb (isNil err) then
              let err := Annotate err "getting unit volume attachments" in
              if negb force then Ret (Some err)
              else logf Warning "%v" [E err] ;; Ret None
            else Ret None) ;;
      cleanupDyingEntityStorage unitTag false filesystemAttachments volumeAttachments force in
  let n := length cleanupArgs in
  match n with
  | 0%nat => rest force
  | 1%nat =>
      let '(force, err) := UnmarshalBool (nth 0 cleanupArgs (RawBool false)) force in
      if negb (isNil err) then Ret (Annotate err "unmarshalling cleanup arg 'force'")
      else rest force
  | _ => Ret (Some (Errorf "expected 0-1 arguments, got %d" [fmtNat n]))
  end.

(** [cleanupRemovedUnit] takes care of all the final cleanup required when
    a unit is removed. *)
Definition cleanupRemovedUnit (unitId : string) (cleanupArgs : list bsonRaw)
  : Prog (option error) :=
  let force := false in
  let rest (force : bool) : Prog (option error) :=
    '(actions, err) <- call (matchingActionsByReceiverId unitId) ;;
    try! (if negb (isNil err) then
            if negb force then Ret (Some (Trace err))
            else
              logf Warning
                "could not get unit actions for unit %v during cleanup of removed unit: %v"
                [V unitId; E err] ;;
              Ret None
          else Ret None) ;;
    let cancelled := {| resultStatus := ActionCancelled; resultMessage := "unit removed" |} in
    try! forEach actions (fun action =>
      match actionStatus action with
      | ActionCompleted | ActionCancelled | ActionFailed =>
          (* nothing to do here *)
          Ret None
      | _ =>
          err <- call (ActionFinish action cancelled) ;;
          if negb (isNil err) then
            if negb force then Ret (Some (Trace err))
            else
              logf Warning
                "could not finish action %v for unit %v during cleanup of removed unit: %v"
                [V (actionName action); V unitId; E err] ;;
              Ret None
          else Ret None
      end) ;;
    err <- call (ApplyPayloadCleanup unitId) ;;
    if negb (isNil err) then
      if negb force then Ret (Trace err)
      else
        logf Warning
          "could not cleanup payload for unit %v during cleanup of removed unit: %v"
          [V unitId; E err] ;;
        Ret None
    else Ret None in
  let n := length cleanupArgs in
  match n with
  | 0%nat => rest force
  | 1%nat =>
      let '(force, err) := UnmarshalBool (nth 0 cleanupArgs (RawBool false)) force in
      if negb (isNil err) then Ret (Annotate err "unmarshalling cleanup arg 'force'")
      else rest force
  | _ => Ret (Some (Errorf "expected 0-1 arguments, got %d" [fmtNat n]))
  end.

Definition cleanupDyingMachineResources (m : Machine) (force : bool)
  : Prog (option error) :=
  err <- call NewStorageBackend ;;
  if negb (isNil err) then Ret (Trace err)
  else
    '(filesystemAttachments, err) <- call (MachineFilesystemAttachments (machineId m)) ;;
    try! (if negb (isNil err) then
            let err := Annotate err "getting machine filesystem attachments" in
            if negb force then Ret (Some err)
            else logf Warning "%v" [E err] ;; Ret None
          else Ret None) ;;
    '(volumeAttachments, err) <- call (MachineVolumeAttachments (machineId m)) ;;
    try! (if negb (isNil err) then
            let err := Annotate err "getting machine volume attachments" in
            if negb force then Ret (Some err)
            else logf Warning "%v" [E err] ;; Ret None
          else Ret None) ;;
    (* Check if the machine is manual, to decide whether or not to short
       circuit the removal of non-detachable filesystems. *)
    '(manual, err) <- call (IsManual m) ;;
    try! (if negb (isNil err) then
            if negb force then Ret (Some (Trace err))
            else
              logf Warning "could not determine if machine %v is manual: %v"
                   [V (machineId m); E err] ;;
              Ret None
          else Ret None) ;;
    cleanupDyingEntityStorage (machineId m) manual filesystemAttachments
                              volumeAttachments force.

(** [cleanupDyingMachine] marks resources owned by the machine as dying. *)
Definition cleanupDyingMachine (machineId : string) (cleanupArgs : list bsonRaw)
  : Prog (option error) :=
  let force := false in
  let rest (force : bool) : Prog (option error) :=
    '(machine, err) <- call (StMachine machineId) ;;
    if IsNotFound err then Ret None
    else if negb (isNil err) then Ret err
    else cleanupDyingMachineResources machine force in
  let n := length cleanupArgs in
  match n with
  | 0%nat => rest force
  | 1%nat =>
      let '(force, err) := UnmarshalBool (nth 0 cleanupArgs (RawBool false)) force in
      if negb (isNil err) then Ret (Annotate err "unmarshalling cleanup arg 'force'")
      else rest force
  | _ => Ret (Some (Errorf "expected 0-1 arguments, got %d" [fmtNat n]))
  end.

Definition cleanupUpgradeSeriesLock (machine : Machine) : Prog (option error) :=
  logf Info "removing any upgrade series locks for machine, %s" [V (machineId machine)] ;;
  err <- call (RemoveUpgradeSeriesLock machine) ;;
  (* Do not return an error *)
  if IsNotFound err then Ret None
  else Ret err.

(** [obliterateUnit] removes a unit from state completely; it calls itself
    on the subordinates of the unit. *)
Fixpoint obliterateUnit (fuel : nat) (unitName : string) (force : bool)
  : Prog (outcome (list error * option error)) :=
  match fuel with
  | O => Ret OutOfFuel
  | S fuel =>
      let opErrs : list error := [] in
      '(unit, err) <- call (StUnit unitName) ;;
      if IsNotFound err then Ret (Returned (opErrs, None))
      else if negb (isNil err) then Ret (Returned (opErrs, err))
      else
        '(errs, err) <- call (UnitDestroyWithForce unit force) ;;
        let opErrs := opErrs ++ errs in
        if negb (isNil err) && negb force then
          Ret (Returned (opErrs, Annotate err "cannot destroy unit %q"))
        else
          let opErrs := appendErr opErrs err in
          '(unit, err) <- call (UnitRefresh unit) ;;
          if IsNotFound err then Ret (Returned (opErrs, None))
          else if negb (isNil err) && negb force then Ret (Returned (opErrs, err))
          else
            let opErrs := appendErr opErrs err in
            (* Destroy and remove all storage attachments for the unit. *)
            err <- cleanupUnitStorageAttachments (Name unit) true force ;;
            let err := Annotate err "cannot destroy storage for unit %q" in
            if negb (isNil err) && negb force then Ret (Returned (opErrs, err))
            else
              let opErrs := appendErr opErrs err in
              r <- foldEach (SubordinateNames unit) opErrs (fun subName opErrs =>
                     r <- obliterateUnit fuel subName force ;;
                     match r with
                     | OutOfFuel => Ret (inr OutOfFuel)
                     | Returned (errs, err) =>
                         let opErrs := opErrs ++ errs in
                         if negb (isNil err) && negb force then
                           Ret (inr (Returned (opErrs, err)))
                         else Ret (inl (appendErr opErrs err))
                     end) ;;
              match r with
              | inr v => Ret v
              | inl opErrs =>
                  err <- call (UnitEnsureDead unit) ;;
                  if negb (isNil err) && negb force then Ret (Returned (opErrs, err))
                  else
                    let opErrs := appendErr opErrs err in
                    '(errs, err) <- call (UnitRemoveWithForce unit force) ;;
                    let opErrs := opErrs ++ errs in
                    Ret (Returned (opErrs, err))
              end
  end.

(** [cleanupContainers] calls [cleanupForceDestroyedMachine] on the supplied
    machine's containers, and removes them from state entirely. *)
Definition cleanupContainers
    (cleanupForceDestroyedMachine : string -> Prog (outcome (option error)))
    (machine : Machine) : Prog (outcome (option error)) :=
  '(containerIds, err) <- call (Containers machine) ;;
  if IsNotFound err then Ret (Returned None)
  else if negb (isNil err) then Ret (Returned err)
  else
    try! forEach containerIds (fun containerId =>
      r <- cleanupForceDestroyedMachine containerId ;;
      match r with
      | OutOfFuel => Ret (Some OutOfFuel)
      | Returned err =>
          if negb (isNil err) then Ret (Some (Returned err))
          else
            '(container, err) <- call (StMachine containerId) ;;
            if IsNotFound err then Ret (Some (Returned None))
            else if negb (isNil err) then Ret (Some (Returned err))
            else
              err <- call (MachineRemove container) ;;
              if negb (isNil err) then Ret (Some (Returned err))
              else Ret None
      end) ;;
    Ret (Returned None).

(** The transaction that takes the vote away from a controller machine. *)
Definition hasVoteTxn (machine : Machine) (attempt : nat)
  : Prog (list txnOp * option error) :=
  let ops := [OpUpdate machinesC (machineId machine) "$set hasvote false"] in
  match attempt with
  | O => Ret (ops, None)
  | S _ =>
      '(machine, err) <- call (MachineRefresh machine) ;;
      if negb (isNil err) then Ret ([], Trace err)
      else if negb (HasVote machine) then Ret ([], Some ErrNoOperations)
      else Ret (ops, None)
  end.

(** [cleanupForceDestroyedMachine] systematically destroys and removes all
    entities that depend upon the supplied machine.  It calls itself on the
    containers of the machine, through [cleanupContainers]. *)
Fixpoint cleanupForceDestroyedMachine (fuel : nat) (machineId : string)
  : Prog (outcome (option error)) :=
  match fuel with
  | O => Ret OutOfFuel
  | S fuel =>
      '(machine, err) <- call (StMachine machineId) ;;
      if IsNotFound err then Ret (Returned None)
      else if negb (isNil err) then Ret (Returned (Trace err))
      else
        (* The first thing we want to do is remove any series upgrade
           machine locks that might prevent other resources from being
           removed. *)
        err <- cleanupUpgradeSeriesLock machine ;;
        if negb (isNil err) then Ret (Returned (Trace err))
        else
          r <- cleanupContainers (cleanupForceDestroyedMachine fuel) machine ;;
          match r with
          | OutOfFuel => Ret OutOfFuel
          | Returned (Some e) => Ret (Returned (Trace (Some e)))
          | Returned None =>
              try! forEach (Principals machine) (fun unitName =>
                r <- obliterateUnit fuel unitName true ;;
                match r with
                | OutOfFuel => Ret (Some OutOfFuel)
                | Returned (opErrs, err) =>
                    (if negb (Nat.eqb (length opErrs) 0) then
                       logf Warning "while obliterating unit %v: %v" [V unitName; Es opErrs]
                     else Ret tt) ;;
                    if negb (isNil err) then Ret (Some (Returned (Trace err)))
                    else Ret None
                end) ;;
              err <- cleanupDyingMachineResources machine true ;;
              if negb (isNil err) then Ret (Returned (Trace err))
              else
                try! (if IsManager machine then
                        step! (if HasVote machine then
                                 (* we remove the vote from the machine so
                                    that it can be torn down cleanly. *)
                                 err <- dbRun (hasVoteTxn machine) ;;
                                 if negb (isNil err) then Ret (Some (Returned (Trace err)))
                                 else Ret None
                               else Ret None) ;;
                        err <- call (RemoveControllerMachine machine) ;;
                        if negb (isNil err) then Ret (Some (Returned (Trace err)))
                        else Ret None
                      else Ret None) ;;
                (* We need to refresh the machine at this point, because
                   the local copy of the document will not reflect changes
                   caused by the unit cleanups above. *)
                '(machine, err) <- call (MachineRefresh machine) ;;
                if IsNotFound err then Ret (Returned None)
                else if negb (isNil err) then Ret (Returned (Trace err))
                else
                  err <- call (MachineEnsureDead machine) ;;
                  if negb (isNil err) then Ret (Returned (Trace err))
                  else
                    '(portsOps, err) <- call (removePortsOps machine) ;;
                    if Nat.eqb (length portsOps) 0 || negb (isNil err) then
                      Ret (Returned (Trace err))
                    else
                      err <- call (RunTransaction (map OpPorts portsOps)) ;;
                      if negb (isNil err) then Ret (Returned (Trace err))
                      else Ret (Returned None)
                      (* Note that we do *not* remove the machine entirely:
                         we leave it for the provisioner to clean up. *)
          end
  end.

(** [cleanupAttachmentsForDyingStorage] sets all storage attachments related
    to the specified storage instance to Dying. *)
Definition cleanupAttachmentsForDyingStorage (storageId : string)
    (cleanupArgs : list bsonRaw) : Prog (option error) :=
  let force := false in
  let rest (force : bool) : Prog (option error) :=
    err <- call NewStorageBackend ;;
    if negb (isNil err) then Ret (Trace err)
    else
      let storageTag := storageId in
      '(docs, iterClose) <- call (FindStorageAttachmentUnits storageId) ;;
      let detachErr : option error := None in
      r <- foldEach docs detachErr (fun doc detachErr =>
             let unitTag := doc in
             err <- call (DetachStorage storageTag unitTag force) ;;
             if negb (isNil err) then
               let detachErr := Annotate err "destroying storage attachment" in
               logf Warning "%v" [E detachErr] ;;
               Ret (inl detachErr)
             else Ret (@inl _ Datatypes.unit detachErr)) ;;
      let err :=
        match r with
        | inl detachErr => if negb force && negb (isNil detachErr) then detachErr else None
        | inr _ => None
        end in
      closeIter iterClose err "reading storage attachment document" in
  let n := length cleanupArgs in
  match n with
  | 0%nat => rest force
  | 1%nat =>
      let '(force, err) := UnmarshalBool (nth 0 cleanupArgs (RawBool false)) force in
      if negb (isNil err) then Ret (Annotate err "unmarshalling cleanup arg 'force'")
      else rest force
  | _ => Ret (Some (Errorf "expected 0-1 arguments, got %d" [fmtNat n]))
  end.

(** [cleanupAttachmentsForDyingVolume] sets all volume attachments related to
    the specified volume to Dying. *)
Definition cleanupAttachmentsForDyingVolume (volumeId : string) : Prog (option error) :=
  let volumeTag := volumeId in
  err <- call NewStorageBackend ;;
  if negb (isNil err) then Ret (Trace err)
  else
    '(docs, iterClose) <- call (FindVolumeAttachmentHosts volumeId) ;;
    err <- (try! forEach docs (fun doc =>
              let hostTag := doc in
              err <- call (DetachVolume hostTag volumeTag) ;;
              if negb (isNil err) then
                Ret (Some (Annotate err "destroying volume attachment"))
              else Ret None) ;;
            Ret None) ;;
    closeIter iterClose err "reading volume attachment document".

(** [cleanupAttachmentsForDyingFilesystem] sets all filesystem attachments
    related to the specified filesystem to Dying. *)
Definition cleanupAttachmentsForDyingFilesystem (filesystemId : string)
  : Prog (option error) :=
  err <- call NewStorageBackend ;;
  if negb (isNil err) then Ret (Trace err)
  else
    let filesystemTag := filesystemId in
    '(docs, iterClose) <- call (FindFilesystemAttachmentHosts filesystemId) ;;
    err <- (try! forEach docs (fun doc =>
              let hostTag := doc in
              err <- call (DetachFilesystem hostTag filesystemTag) ;;
              if negb (isNil err) then
                Ret (Some (Annotate err "destroying filesystem attachment"))
              else Ret None) ;;
            Ret None) ;;
    closeIter iterClose err "reading filesystem attachment document".

Definition returned {R : Type} (p : Prog R) : Prog (outcome R) :=
  r <- p ;; Ret (Returned r).

(** The [switch doc.Kind] of [Cleanup]. *)
Definition runCleanup (fuel : nat) (doc : cleanupDoc) (args : list bsonRaw)
  : Prog (outcome (option error)) :=
  let kind := Kind doc in
  if String.eqb kind cleanupKind.cleanupRelationSettings then
    returned (cleanupRelationSettings (Prefix doc))
  else if String.eqb kind cleanupKind.cleanupCharm then
    returned (cleanupCharm (Prefix doc))
  else if String.eqb kind cleanupKind.cleanupUnitsForDyingApplication then
    returned (cleanupUnitsForDyingApplication (Prefix doc) args)
  else if String.eqb kind cleanupKind.cleanupDyingUnit then
    returned (cleanupDyingUnit (Prefix doc) args)
  else if String.eqb kind cleanupKind.cleanupForceDestroyedUnit then
    returned (cleanupForceDestroyedUnit (Prefix doc))
  else if String.eqb kind cleanupKind.cleanupForceRemoveUnit then
    returned (cleanupForceRemoveUnit (Prefix doc))
  else if String.eqb kind cleanupKind.cleanupDyingUnitResources then
    returned (cleanupDyingUnitResources (Prefix doc) args)
  else if String.eqb kind cleanupKind.cleanupRemovedUnit then
    returned (cleanupRemovedUnit (Prefix doc) args)
  else if String.eqb kind cleanupKind.cleanupApplicationsForDyingModel then
    returned cleanupApplicationsForDyingModel
  else if String.eqb kind cleanupKind.cleanupDyingMachine then
    returned (cleanupDyingMachine (Prefix doc) args)
  else if String.eqb kind cleanupKind.cleanupForceDestroyedMachine then
    cleanupForceDestroyedMachine fuel (Prefix doc)
  else if String.eqb kind cleanupKind.cleanupAttachmentsForDyingStorage then
    returned (cleanupAttachmentsForDyingStorage (Prefix doc) args)
  else if String.eqb kind cleanupKind.cleanupAttachmentsForDyingVolume then
    returned (cleanupAttachmentsForDyingVolume (Prefix doc))
  else if String.eqb kind cleanupKind.cleanupAttachmentsForDyingFilesystem then
    returned (cleanupAttachmentsForDyingFilesystem (Prefix doc))
  else if String.eqb kind cleanupKind.cleanupModelsForDyingController then
    returned (cleanupModelsForDyingController args)
  else if String.eqb kind cleanupKind.cleanupMachinesForDyingModel then
    returned cleanupMachinesForDyingModel
  else if String.eqb kind cleanupKind.cleanupResourceBlob then
    returned (cleanupResourceBlob (Prefix doc))
  else if String.eqb kind cleanupKind.cleanupStorageForDyingModel then
    returned (cleanupStorageForDyingModel args)
  else
    Ret (Returned (Some (Errorf "unknown cleanup kind %q" [kind]))).

(** Only look at cleanups that should be run now:
    [{"$or": [{"when": {"$lte": now}}, {"when": {"$exists": false}}]}]. *)
Definition dueQuery (now : Time) (doc : cleanupDoc) : bool :=
  match When doc with
  | Some when => Z.leb when now
  | None => true
  end.

(** What the cursor hands out of the matching documents: all of them, or,
    when it breaks, the first [k] and the error that [Close] then reports. *)
Definition served (matching : list cleanupDoc) (fault : option (nat * error))
  : list cleanupDoc * option error :=
  match fault with
  | None => (matching, None)
  | Some (k, e) => (firstn k matching, Some e)
  end.

(** One turn of the [for iter.Next(&doc)] loop of [Cleanup]. *)
Definition cleanupOne (fuel : nat) (doc : cleanupDoc)
  : Prog (option (outcome (option error))) :=
  let modelId := substring 0 6 modelUUID in
  logf Debug "model %v cleanup: %v(%q)" [V modelId; V (Kind doc); V (Prefix doc)] ;;
  let args := Args doc in
  r <- runCleanup fuel doc args ;;
  match r with
  | OutOfFuel => Ret (Some OutOfFuel)
  | Returned err =>
      if negb (isNil err) then
        logf Warning "cleanup failed in model %v for %v(%q): %v"
             [V modelUUID; V (Kind doc); V (Prefix doc); E err] ;;
        Ret None
      else
        let ops := [OpRemove cleanupsC (DocID doc)] in
        err <- call (RunTransaction ops) ;;
        if negb (isNil err) then
          Ret (Some (Returned (Annotate err "cannot remove empty cleanup document")))
        else Ret None
  end.

(** [Cleanup] removes all documents that were previously marked for removal,
    if any such exist. *)
Definition Cleanup (fuel : nat) : Prog (outcome (option error)) :=
  (* Only look at cleanups that should be run now. *)
  now <- call Now ;;
  matching <- find (dueQuery now) ;;
  fault <- call (IterOutcome (length matching)) ;;
  let '(docs, iterClose) := served matching fault in
  r <- (try! forEach docs (cleanupOne fuel) ;;
        Ret (Returned None)) ;;
  match r with
  | OutOfFuel => Ret OutOfFuel
  | Returned err =>
      err <- closeIter iterClose err "reading cleanup document" ;;
      Ret (Returned err)
  end.

End WithState.

(** ** Semantics *)

(** What a run leaves behind, in order: the calls with their answers and the
    log lines. *)
Inductive Event : Type :=
| Called (R : Type) (o : Op R) (r : R)
| Logged (lvl : level) (format : string) (args : list logArg).

Arguments Called {R} o r.

(** The cleanups collection.  Documents are keyed by [_id]: an insert under
    an id in use leaves the collection as it is, a removal under an unused id
    too (mgo/txn without assertions). *)
Definition hasId (id : string) (docs : list cleanupDoc) : bool :=
  existsb (fun d => String.eqb (DocID d) id) docs.

(** The document as stored under [id]: the id becomes its [_id] field. *)
Definition withId (id : string) (doc : cleanupDoc) : cleanupDoc :=
  {| DocID := id; Kind := Kind doc; When := When doc; Prefix := Prefix doc;
     Args := Args doc |}.

Definition insertDoc (id : string) (doc : cleanupDoc) (docs : list cleanupDoc)
  : list cleanupDoc :=
  if hasId id docs then docs else docs ++ [withId id doc].

Definition removeDoc (id : string) (docs : list cleanupDoc) : list cleanupDoc :=
  filter (fun d => negb (String.eqb (DocID d) id)) docs.

Definition applyOp (docs : list cleanupDoc) (op : txnOp) : list cleanupDoc :=
  match op with
  | OpInsert C id doc => if String.eqb C cleanupsC then insertDoc id doc docs else docs
  | OpRemove C id => if String.eqb C cleanupsC then removeDoc id docs else docs
  | OpUpdate _ _ _ => docs
  | OpPorts _ => docs
  end.

Definition applyOps (ops : list txnOp) (docs : list cleanupDoc) : list cleanupDoc :=
  fold_left applyOp ops docs.

(** Documents that a collaborator enqueues inside its own transaction. *)
Definition enqueue (docs : list cleanupDoc) (enqueued : list cleanupDoc)
  : list cleanupDoc :=
  fold_left (fun c d => insertDoc (DocID d) d c) enqueued docs.

(** The clock, the id source, the cursor and the transaction runner enqueue
    nothing of their own. *)
Definition infrastructure {R : Type} (o : Op R) : bool :=
  match o with
  | Now | NewObjectId | IterOutcome _ | RunTransaction _ => true
  | _ => false
  end.

(** The effect of a call of this file on the cleanups collection: a
    transaction that the store committed applies its operations. *)
Definition commit {R : Type} (o : Op R) : R -> list cleanupDoc -> list cleanupDoc :=
  match o in Op R return R -> list cleanupDoc -> list cleanupDoc with
  | RunTransaction ops => fun r docs =>
      match r with
      | None => applyOps ops docs
      | Some _ => docs
      end
  | _ => fun _ docs => docs
  end.

Section Semantics.

(** The world outside the cleanups collection, and what each operation
    answers and does there; the last component are the cleanup documents the
    operation enqueues in its own transaction (ignored for the operations
    of the infrastructure). *)
Variable W : Type.
Variable exec : forall R : Type, Op R -> W -> R * W * list cleanupDoc.

Record HS : Type := {
  world : W;
  cleanups : list cleanupDoc;
  trace : list Event
}.

Definition logged (s : HS) (lvl : level) (format : string) (args : list logArg) : HS :=
  {| world := world s; cleanups := cleanups s;
     trace := trace s ++ [Logged lvl format args] |}.

Definition called {R : Type} (s : HS) (o : Op R) : R * HS :=
  let '(r, w, enqueued) := exec o (world s) in
  (r, {| world := w;
         cleanups := commit o r (if infrastructure o then cleanups s
                                 else enqueue (cleanups s) enqueued);
         trace := trace s ++ [Called o r] |}).

Fixpoint run {A : Type} (p : Prog A) (s : HS) : A * HS :=
  match p with
  | Ret a => (a, s)
  | Call o k => let '(r, s') := called s o in run (k r) s'
  | Logf lvl format args k => run k (logged s lvl format args)
  | Find query k => run (k (filter query (cleanups s))) s
  end.

End Semantics.

Arguments world {W} h.
Arguments cleanups {W} h.
Arguments trace {W} h.

(** The events that a run from [s] to [s'] added. *)
Definition since {W : Type} (s s' : HS W) : list Event :=
  skipn (length (trace s)) (trace s').

(** ** What a program may call *)

(** [Footprint Q P p]: every call that [p] can make satisfies [P], as long as
    the answers it gets satisfy [Q]. *)
Inductive Footprint (Q : forall R : Type, Op R -> R -> Prop)
    (P : forall R : Type, Op R -> Prop) {A : Type} : Prog A -> Prop :=
| FpRet (a : A) : Footprint Q P (Ret a)
| FpCall (R : Type) (o : Op R) (k : R -> Prog A) :
    P R o -> (forall r, Q R o r -> Footprint Q P (k r)) -> Footprint Q P (Call o k)
| FpLogf lvl format args (k : Prog A) :
    Footprint Q P k -> Footprint Q P (Logf lvl format args k)
| FpFind query (k : list cleanupDoc -> Prog A) :
    (forall docs, Footprint Q P (k docs)) -> Footprint Q P (Find query k).

Definition anyAnswer (R : Type) (o : Op R) (r : R) : Prop := True.

Definition satisfies (P : forall R : Type, Op R -> Prop) (e : Event) : Prop :=
  match e with
  | Called o _ => P _ o
  | Logged _ _ _ => True
  end.

(** A transaction of a handler never removes a cleanup document. *)
Definition isRemoval (op : txnOp) : bool :=
  match op with
  | OpRemove C _ => String.eqb C cleanupsC
  | _ => false
  end.

Definition keepsCleanups (R : Type) (o : Op R) : Prop :=
  match o with
  | RunTransaction ops => existsb isRemoval ops = false
  | _ => True
  end.

(** ** Reading traces *)

(** The answer of a unit lookup, of a machine lookup. *)
Definition unitAnswer (e : Event) : option (Unit * option error) :=
  match e with
  | Called o r =>
      match o in Op R return R -> option (Unit * option error) with
      | StUnit _ => fun r => Some r
      | _ => fun _ => None
      end r
  | Logged _ _ _ => None
  end.

Definition machineAnswer (e : Event) : option (Machine * option error) :=
  match e with
  | Called o r =>
      match o in Op R return R -> option (Machine * option error) with
      | StMachine _ => fun r => Some r
      | _ => fun _ => None
      end r
  | Logged _ _ _ => None
  end.

(** The machine a call is about, if any. *)
Definition machineOf (e : Event) : option string :=
  match e with
  | Called o _ =>
      match o with
      | StMachine id => Some id
      | RemoveControllerMachine m | RemoveUpgradeSeriesLock m | Containers m | IsManual m
      | MachineDestroy m | MachineForceDestroy m | MachineEnsureDead m
      | MachineRefresh m | MachineRemove m | removePortsOps m => Some (machineId m)
      | MachineFilesystemAttachments id | MachineVolumeAttachments id
      | filesystems id => Some id
      | _ => None
      end
  | Logged _ _ _ => None
  end.

Definition aboutMachine (id : string) (e : Event) : bool :=
  match machineOf e with
  | Some id' => String.eqb id' id
  | None => false
  end.

Definition isEnsureDeadOf (id : string) (e : Event) : bool :=
  match e with
  | Called (MachineEnsureDead m) _ => String.eqb (machineId m) id
  | _ => false
  end.

Definition isRelease (e : Event) : bool :=
  match e with
  | Called (ReleaseStorageInstance _ _ _) _ => true
  | _ => false
  end.

(** Picking the calls of one kind out of a list of events, in order. *)
Fixpoint pick {X : Type} (f : Event -> option X) (evs : list Event) : list X :=
  match evs with
  | [] => []
  | e :: rest =>
      match f e with
      | Some x => x :: pick f rest
      | None => pick f rest
      end
  end.

(** [unit.EnsureDead()], with its answer. *)
Definition asEnsureDead (e : Event) : option (Unit * option error) :=
  match e with
  | Called o r =>
      match o in Op R return R -> option (Unit * option error) with
      | UnitEnsureDead u => fun r => Some (u, r)
      | _ => fun _ => None
      end r
  | Logged _ _ _ => None
  end.

(** A transaction, with the verdict of the store. *)
Definition asTransaction (e : Event) : option (list txnOp * option error) :=
  match e with
  | Called o r =>
      match o in Op R return R -> option (list txnOp * option error) with
      | RunTransaction ops => fun r => Some (ops, r)
      | _ => fun _ => None
      end r
  | Logged _ _ _ => None
  end.

(** A reading of the clock. *)
Definition asClockRead (e : Event) : option Time :=
  match e with
  | Called o r =>
      match o in Op R return R -> option Time with
      | Now => fun r => Some r
      | _ => fun _ => None
      end r
  | Logged _ _ _ => None
  end.

(** [sb.UnitStorageAttachments(unit)], with its answer. *)
Definition asAttachments (e : Event)
  : option (string * (list StorageAttachment * option error)) :=
  match e with
  | Called o r =>
      match o in Op R
            return R -> option (string * (list StorageAttachment * option error)) with
      | UnitStorageAttachments unit => fun r => Some (unit, r)
      | _ => fun _ => None
      end r
  | Logged _ _ _ => None
  end.

(** [sb.DestroyStorageInstance(storage, destroyAttached, force)],
    [sb.DetachStorage(storage, unit, force)] and
    [sb.RemoveStorageAttachment(storage, unit, force)]. *)
Definition asDestroyInstance (e : Event) : option (string * bool * bool) :=
  match e with
  | Called (DestroyStorageInstance storage destroyAttached force) _ =>
      Some (storage, destroyAttached, force)
  | _ => None
  end.

Definition asDetach (e : Event) : option (string * string * bool) :=
  match e with
  | Called (DetachStorage storage unit force) _ => Some (storage, unit, force)
  | _ => None
  end.

Definition asRemoveAttachment (e : Event) : option (string * string * bool) :=
  match e with
  | Called (RemoveStorageAttachment storage unit force) _ => Some (storage, unit, force)
  | _ => None
  end.

(** A warning in the log. *)
Definition asWarning (e : Event) : option (string * list logArg) :=
  match e with
  | Logged Warning format args => Some (format, args)
  | _ => None
  end.

(** The error that a call of the storage phase of [cleanupDyingUnit]
    answered. *)
Definition asStorageError (e : Event) : option error :=
  match e with
  | Called o r =>
      match o in Op R return R -> option error with
      | NewStorageBackend => fun r => r
      | UnitStorageAttachments _ => fun r => snd r
      | DestroyStorageInstance _ _ _ => fun r => r
      | DetachStorage _ _ _ => fun r => r
      | _ => fun _ => None
      end r
  | Logged _ _ _ => None
  end.

(** Machine ids: the containers of machine [host] are [host/kind/n]. *)
Definition containerOf (host c : string) : bool := String.prefix (host ++ "/") c.

(** What a handler relies on from the machine store: a lookup that succeeds
    answers the machine that was asked for, and the containers of a machine
    carry ids below its own. *)
Definition machineStore (R : Type) (o : Op R) : R -> Prop :=
  match o in Op R return R -> Prop with
  | StMachine id => fun r => snd r = None -> machineId (fst r) = id
  | Containers m => fun r => forallb (containerOf (machineId m)) (fst r) = true
  | _ => fun _ => True
  end.

Definition answered (Q : forall R : Type, Op R -> R -> Prop) (e : Event) : Prop :=
  match e with
  | Called o r => Q _ o r
  | Logged _ _ _ => True
  end.

(** An operation of a transaction that removes a machine document; a call
    that removes the record of machine [id]. *)
Definition removesMachine (op : txnOp) : bool :=
  match op with
  | OpRemove C _ => String.eqb C machinesC
  | _ => false
  end.

Definition removesRecord (id : string) (e : Event) : bool :=
  match e with
  | Called (MachineRemove m) _ => String.eqb (machineId m) id
  | Called (RunTransaction ops) _ =>
      existsb (fun op => match op with
                         | OpRemove C d => String.eqb C machinesC && String.eqb d id
                         | _ => false
                         end) ops
  | _ => false
  end.

(** The calls of [cleanupForceDestroyedMachine] on machine [id]: it removes
    machines with longer ids only, and no transaction of it removes a machine
    document. *)
Definition sparesMachine (id : string) (R : Type) (o : Op R) : Prop :=
  match o with
  | MachineRemove m => String.length id < String.length (machineId m)
  | RunTransaction ops => existsb removesMachine ops = false
  | _ => True
  end.

(** The document that [scheduleForceCleanup] inserts under [id] at clock
    [now]. *)
Definition backstop (kind : cleanupKind.t) (name : string) (now : Time) (id : string)
  : cleanupDoc :=
  {| DocID := id; Kind := kind; When := Some (Add now forceTimeout);
     Prefix := name; Args := [] |}.

(** Groups of calls: the calls of the relation phase of [cleanupDyingUnit],
    of its two storage phases, and everything but what the end of
    [cleanupForceDestroyedUnit] does. *)
Definition relationCall (R : Type) (o : Op R) : Prop :=
  match o with
  | RelationsJoined _ | RelationUnit _ _ | PrepareLeaveScope _ => True
  | _ => False
  end.

Definition instanceCall (R : Type) (o : Op R) : Prop :=
  match o with
  | NewStorageBackend | UnitStorageAttachments _ | DestroyStorageInstance _ _ _ => True
  | _ => False
  end.

Definition detachCall (R : Type) (o : Op R) : Prop :=
  match o with
  | NewStorageBackend | UnitStorageAttachments _ | DetachStorage _ _ _ => True
  | _ => False
  end.

Definition beforeDead (R : Type) (o : Op R) : Prop :=
  match o with
  | UnitEnsureDead _ | RunTransaction _ | Now | NewObjectId => False
  | _ => True
  end.

(** The flags that a list of arguments stands for: a missing argument is
    [false]. *)
Definition flags (args : list bsonRaw) : option (bool * bool) :=
  match args with
  | [] => Some (false, false)
  | [RawBool destroyStorage] => Some (destroyStorage, false)
  | [RawBool destroyStorage; RawBool force] => Some (destroyStorage, force)
  | _ => None
  end.

(** The bodies of the loops of [cleanupUnitStorageInstances] and, when
    nothing is to be removed, of [cleanupUnitStorageAttachments], under names
    of their own for the statements about the loops. *)
Definition destroyInstance (force : bool) (storageAttachment : StorageAttachment)
  : Prog (option (option error)) :=
  err <- call (DestroyStorageInstance (StorageInstance storageAttachment) true force) ;;
  if IsNotFound err then Ret None
  else if negb (isNil err) then Ret (Some err)
  else Ret None.

Definition detachOnly (unitTag : string) (force : bool) (storageAttachment : StorageAttachment)
  : Prog (option (option error)) :=
  err <- call (DetachStorage (StorageInstance storageAttachment) unitTag force) ;;
  if IsNotFound err then Ret None
  else
    step! (if negb (isNil err) then
             if negb force then Ret (Some err)
             else
               logf Warning "could not detach storage %v for unit %v: %v"
                    [V (StorageInstance storageAttachment); V unitTag; E err] ;;
               Ret None
           else Ret None) ;;
    Ret None.

(** ** Statements about arguments *)

(** Two invocations that cannot be told apart: same result, same effects, on
    every backend and from every state. *)
Definition sameRun {A : Type} (p q : Prog A) : Prop :=
  forall (W : Type) (exec : forall R : Type, Op R -> W -> R * W * list cleanupDoc)
         (s : HS W), run exec p s = run exec q s.

(** ** Statements about a pass *)

(** The transaction that removes the document of a completed task. *)
Definition removal (doc : cleanupDoc) : Op (option error) :=
  RunTransaction [OpRemove cleanupsC (DocID doc)].

(** No two documents of the collection share an [_id]. *)
Definition uniqueIds (docs : list cleanupDoc) : Prop := NoDup (map DocID docs).

Section Pass.

Variable W : Type.
Variable exec : forall R : Type, Op R -> W -> R * W * list cleanupDoc.

(** The elements on which a loop runs its body, in order. *)
Fixpoint visited {X R : Type} (xs : list X) (body : X -> Prog (option R)) (s : HS W)
  : list X :=
  match xs with
  | [] => []
  | x :: rest =>
      x :: match run exec (body x) s with
           | (None, s') => visited rest body s'
           | (Some _, _) => []
           end
  end.

(** The documents on which a [Cleanup] pass that starts in [s] runs a
    handler, in order. *)
Definition processed (modelUUID : string) (docID : string -> string) (fuel : nat)
    (s : HS W) : list cleanupDoc :=
  let '(now, s1) := called exec s Now in
  let matching := filter (dueQuery now) (cleanups s1) in
  let '(fault, s2) := called exec s1 (IterOutcome (length matching)) in
  visited (fst (served matching fault)) (cleanupOne modelUUID docID fuel) s2.

End Pass.

(** ** A small concrete backend

    Used to run the handlers on concrete inputs.  Units, machines with their
    containers and storage attachments are looked up in lists; the clock and
    the id source are counters; [toyTxnDown] makes the store refuse every
    transaction; [toyReaper] stands for a provisioner that removes a machine
    record as soon as the machine is Dead. *)
Module Toy.

Record World : Type := {
  units : list Unit;
  machines : list (Machine * list string);
  attachments : list StorageAttachment;
  storage : list StorageInstanceT;
  clock : Time;
  nextId : nat;
  txnDown : bool;
  reaper : bool
}.

Definition noUnit : Unit := {| Name := ""; SubordinateNames := [] |}.

Definition noMachine : Machine :=
  {| machineId := ""; Principals := []; IsManager := false; HasVote := false;
     isContainer := false |}.

(** The answer of an operation that finds nothing and changes nothing. *)
Definition zero {R : Type} (o : Op R) : R :=
  match o in Op R return R with
  | StUnit _ => (noUnit, None)
  | StMachine _ => (noMachine, None)
  | MachineRefresh m => (m, None)
  | UnitRefresh u => (u, None)
  | StCharm curl => ({| charmURL := curl |}, None)
  | ParseURL url => (url, None)
  | newStateNoWorkers uuid => (uuid, None)
  | StateModel st => ({| modelOf := st |}, None)
  | RelationUnit r u => ({| ruRelation := relationKey r; ruUnit := Name u |}, None)
  | SbFilesystem fs => ({| FilesystemTag := fs |}, None)
  | FilesystemVolume _ => ("", None)
  | IsManual _ | isDetachableFilesystemTag _ | isDetachableVolumeTag _ => (false, None)
  | AllModelUUIDs => ([], None)
  | AllMachines => ([], None)
  | FindAliveApplications => ([], None)
  | FindAliveRemoteApplications => ([], None)
  | FindAliveUnits _ => ([], None)
  | matchingActionsByReceiverId _ => ([], None)
  | RelationsJoined _ | RelationsInScope _ => ([], None)
  | UnitDestroyWithForce _ _ | UnitRemoveWithForce _ _ => ([], None)
  | Containers _ => ([], None)
  | removePortsOps _ => ([], None)
  | AllStorageInstances => ([], None)
  | UnitStorageAttachments _ => ([], None)
  | UnitFilesystemAttachments _ | MachineFilesystemAttachments _ => ([], None)
  | UnitVolumeAttachments _ | MachineVolumeAttachments _ => ([], None)
  | filesystems _ => ([], None)
  | FindStorageAttachmentUnits _ | FindVolumeAttachmentHosts _
  | FindFilesystemAttachmentHosts _ => ([], None)
  | Now => 0%Z
  | NewObjectId => ""
  | IterOutcome _ => None
  | NewStorageBackend | StateClose _ | ModelDestroy _ _
  | ApplyRelationSettingsCleanup _ | ApplyPayloadCleanup _ | ResourceStorageRemove _
  | ApplyDestroyApplication _ _ | RemoteApplicationDestroy _ | ApplyDestroyUnit _ _ _
  | ActionFinish _ _ | RemoveControllerMachine _ | PrepareLeaveScope _ | LeaveScope _
  | UnitEnsureDead _ | CharmDestroy _ | CharmRemove _ | RemoveUpgradeSeriesLock _
  | MachineDestroy _ | MachineForceDestroy _ | MachineEnsureDead _ | MachineRemove _
  | DestroyStorageInstance _ _ _ | ReleaseStorageInstance _ _ _ | DetachStorage _ _ _
  | RemoveStorageAttachment _ _ _ | DestroyUnitStorageAttachments _
  | DestroyFilesystem _ | DetachFilesystem _ _ | FilesystemSetStatus _ _
  | RemoveFilesystemAttachment _ _ | RemoveVolumeAttachmentPlan _ _
  | RemoveFilesystem _ | DetachVolume _ _ | RunTransaction _ => None
  end.

Definition findUnit (w : World) (name : string) : Unit * option error :=
  match List.find (fun u => String.eqb (Name u) name) (units w) with
  | Some u => (u, None)
  | None => (noUnit, Some (NotFound name))
  end.

Definition findMachine (w : World) (id : string) : Machine * option error :=
  match List.find (fun m => String.eqb (machineId (fst m)) id) (machines w) with
  | Some m => (fst m, None)
  | None => (noMachine, Some (NotFound id))
  end.

Definition containersOf (w : World) (m : Machine) : list string :=
  match List.find (fun x => String.eqb (machineId (fst x)) (machineId m)) (machines w) with
  | Some x => snd x
  | None => []
  end.

Definition dropMachine (w : World) (id : string) : World :=
  {| units := units w;
     machines := filter (fun m => negb (String.eqb (machineId (fst m)) id)) (machines w);
     attachments := attachments w; storage := storage w; clock := clock w;
     nextId := nextId w; txnDown := txnDown w; reaper := reaper w |}.

Definition tick (w : World) : World :=
  {| units := units w; machines := machines w; attachments := attachments w;
     storage := storage w; clock := clock w; nextId := S (nextId w);
     txnDown := txnDown w; reaper := reaper w |}.

Definition exec (R : Type) (o : Op R) (w : World) : R * World * list cleanupDoc :=
  match o in Op R return R * World * list cleanupDoc with
  | StUnit name => (findUnit w name, w, [])
  | StMachine id => (findMachine w id, w, [])
  | Containers m => ((containersOf w m, None), w, [])
  | MachineEnsureDead m =>
      (None, if reaper w then dropMachine w (machineId m) else w, [])
  | MachineRemove m => (None, dropMachine w (machineId m), [])
  | UnitStorageAttachments unit =>
      ((filter (fun a => String.eqb (saUnit a) unit) (attachments w), None), w, [])
  | AllStorageInstances => ((storage w, None), w, [])
  | Now => (clock w, w, [])
  | NewObjectId => (fmtNat (nextId w), tick w, [])
  | RunTransaction _ =>
      (if txnDown w then Some (Errorf "store unavailable" []) else None, w, [])
  | o' => (zero o', w, [])
  end.

(** Machine 0 hosts two containers; unit myapp/0 has two storage
    attachments. *)
Definition machine0 : Machine :=
  {| machineId := "0"; Principals := []; IsManager := false; HasVote := false;
     isContainer := false |}.

Definition container (id : string) : Machine :=
  {| machineId := id; Principals := []; IsManager := false; HasVote := false;
     isContainer := true |}.

Definition myapp0 : Unit := {| Name := "myapp/0"; SubordinateNames := [] |}.

Definition world0 : World :=
  {| units := [myapp0];
     machines := [(machine0, ["0/lxd/0"; "0/lxd/1"]);
                  (container "0/lxd/0", []); (container "0/lxd/1", [])];
     attachments := [ {| StorageInstance := "data/0"; saUnit := "myapp/0" |};
                      {| StorageInstance := "logs/1"; saUnit := "myapp/0" |} ];
     storage := [ {| StorageTag := "data/0" |}; {| StorageTag := "logs/1" |} ];
     clock := 1000%Z; nextId := 7; txnDown := false; reaper := false |}.

Definition withReaper (w : World) : World :=
  {| units := units w; machines := machines w; attachments := attachments w;
     storage := storage w; clock := clock w; nextId := nextId w;
     txnDown := txnDown w; reaper := true |}.

Definition withTxnDown (w : World) : World :=
  {| units := units w; machines := machines w; attachments := attachments w;
     storage := storage w; clock := clock w; nextId := nextId w;
     txnDown := true; reaper := reaper w |}.

Definition start (w : World) (docs : list cleanupDoc) : HS World :=
  {| world := w; cleanups := docs; trace := [] |}.

(** A queue: a task due at once, a task for later, a task written before
    the [when] field existed, and a task of a kind nobody knows. *)
Definition modelUUID : string := "deadbeef-0bad-400d-8000-4b1d0d06f00d".

Definition dueDoc : cleanupDoc :=
  {| DocID := "a1"; Kind := cleanupKind.cleanupDyingUnit; When := Some asap;
     Prefix := "myapp/0"; Args := [RawBool true; RawBool false] |}.

Definition futureDoc : cleanupDoc :=
  {| DocID := "a2"; Kind := cleanupKind.cleanupForceDestroyedMachine;
     When := Some 5000%Z; Prefix := "0"; Args := [] |}.

Definition legacyDoc : cleanupDoc :=
  {| DocID := "a3"; Kind := cleanupKind.cleanupForceRemoveUnit; When := None;
     Prefix := "ghost/0"; Args := [] |}.

Definition bogusDoc : cleanupDoc :=
  {| DocID := "a4"; Kind := "bogus"; When := Some asap; Prefix := "x"; Args := [] |}.

Definition queue : list cleanupDoc := [dueDoc; futureDoc; legacyDoc; bogusDoc].

End Toy.

(** ** Observing a run

    The value a program returns from a state together with the events it
    adds to the trace. *)
Section Observe.

Variable W : Type.
Variable exec : forall R : Type, Op R -> W -> R * W * list cleanupDoc.

Fixpoint observe {A : Type} (p : Prog A) (s : HS W) : A * list Event :=
  match p with
  | Ret a => (a, [])
  | Call o k =>
      let '(r, s') := called exec s o in
      let '(a, evs) := observe (k r) s' in
      (a, Called o r :: evs)
  | Logf lvl format args k =>
      let '(a, evs) := observe k (logged s lvl format args) in
      (a, Logged lvl format args :: evs)
  | Find query k => observe (k (filter query (cleanups s))) s
  end.

End Observe.

(** What a [forEach] loop leaves in the trace, turn by turn: [B x evs r]
    says that a turn on [x] added the events [evs] and answered [r]. *)
Inductive Loop {X R : Type} (B : X -> list Event -> option R -> Prop)
  : list X -> list Event -> option R -> Prop :=
| LoopDone : Loop B [] [] None
| LoopReturn x xs evs v : B x evs (Some v) -> Loop B (x :: xs) evs (Some v)
| LoopNext x xs evs evs' r :
    B x evs None -> Loop B xs evs' r -> Loop B (x :: xs) (evs ++ evs') r.

(** ** Reading traces: models, machines, storage *)

(** [sb.AllStorageInstances()], with its answer. *)
Definition asAllStorage (e : Event) : option (list StorageInstanceT * option error) :=
  match e with
  | Called o r =>
      match o in Op R return R -> option (list StorageInstanceT * option error) with
      | AllStorageInstances => fun r => Some r
      | _ => fun _ => None
      end r
  | Logged _ _ _ => None
  end.

Definition asReleaseInstance (e : Event) : option (string * bool * bool) :=
  match e with
  | Called (ReleaseStorageInstance storage destroyAttached force) _ =>
      Some (storage, destroyAttached, force)
  | _ => None
  end.

(** What a list of arguments asks of [cleanupStorageForDyingModel]:
    (destroy the storage, force).  Without a first argument the storage is
    destroyed. *)
Definition storagePlan (args : list bsonRaw) : option (bool * bool) :=
  match args with
  | [] => Some (true, false)
  | [a] =>
      match UnmarshalBool a false with
      | (destroy, None) => Some (destroy, false)
      | _ => None
      end
  | [a; b] =>
      match UnmarshalBool a false, UnmarshalBool b false with
      | (destroy, None), (force, None) => Some (destroy, force)
      | _, _ => None
      end
  | _ => None
  end.

(** [st.AllMachines()], [m.IsManual()] and the two ways to destroy a machine
    ([true] for [ForceDestroy]). *)
Definition asAllMachines (e : Event) : option (list Machine * option error) :=
  match e with
  | Called o r =>
      match o in Op R return R -> option (list Machine * option error) with
      | AllMachines => fun r => Some r
      | _ => fun _ => None
      end r
  | Logged _ _ _ => None
  end.

Definition asManual (e : Event) : option (Machine * (bool * option error)) :=
  match e with
  | Called o r =>
      match o in Op R return R -> option (Machine * (bool * option error)) with
      | IsManual m => fun r => Some (m, r)
      | _ => fun _ => None
      end r
  | Logged _ _ _ => None
  end.

Definition asMachineDestroy (e : Event) : option (Machine * bool) :=
  match e with
  | Called o r =>
      match o in Op R return R -> option (Machine * bool) with
      | MachineDestroy m => fun r => Some (m, false)
      | MachineForceDestroy m => fun r => Some (m, true)
      | _ => fun _ => None
      end r
  | Logged _ _ _ => None
  end.

(** The states that [newStateNoWorkers] handed out, the states closed, the
    models destroyed. *)
Definition asOpened (e : Event) : option string :=
  match e with
  | Called o r =>
      match o in Op R return R -> option string with
      | newStateNoWorkers _ => fun r => match snd r with None => Some (fst r) | Some _ => None end
      | _ => fun _ => None
      end r
  | Logged _ _ _ => None
  end.

Definition asClosed (e : Event) : option string :=
  match e with
  | Called o r =>
      match o in Op R return R -> option string with
      | StateClose st => fun r => Some st
      | _ => fun _ => None
      end r
  | Logged _ _ _ => None
  end.

Definition asModelDestroy (e : Event) : option (ModelT * DestroyModelParams) :=
  match e with
  | Called o r =>
      match o in Op R return R -> option (ModelT * DestroyModelParams) with
      | ModelDestroy m args => fun r => Some (m, args)
      | _ => fun _ => None
      end r
  | Logged _ _ _ => None
  end.

(** [ch.Destroy()] and [ch.Remove()], with their answers. *)
Definition asCharmDestroy (e : Event) : option (Charm * option error) :=
  match e with
  | Called o r =>
      match o in Op R return R -> option (Charm * option error) with
      | CharmDestroy ch => fun r => Some (ch, r)
      | _ => fun _ => None
      end r
  | Logged _ _ _ => None
  end.

Definition asCharmRemove (e : Event) : option (Charm * option error) :=
  match e with
  | Called o r =>
      match o in Op R return R -> option (Charm * option error) with
      | CharmRemove ch => fun r => Some (ch, r)
      | _ => fun _ => None
      end r
  | Logged _ _ _ => None
  end.

(** [action.Finish(results)]. *)
Definition asActionFinish (e : Event) : option (Action * ActionResults) :=
  match e with
  | Called o r =>
      match o in Op R return R -> option (Action * ActionResults) with
      | ActionFinish a res => fun r => Some (a, res)
      | _ => fun _ => None
      end r
  | Logged _ _ _ => None
  end.

(** The answer of [NewStorageBackend]. *)
Definition asBackend (e : Event) : option (option error) :=
  match e with
  | Called o r =>
      match o in Op R return R -> option (option error) with
      | NewStorageBackend => fun r => Some r
      | _ => fun _ => None
      end r
  | Logged _ _ _ => None
  end.

(** The calls of [cleanupDyingEntityStorage] that remove a record or set a
    filesystem detached. *)
Definition asStorageRemoval (e : Event) : option string :=
  match e with
  | Called o r =>
      match o in Op R return R -> option string with
      | RemoveFilesystemAttachment _ fs => fun r => Some fs
      | RemoveVolumeAttachmentPlan _ volume => fun r => Some volume
      | RemoveFilesystem fs => fun r => Some fs
      | FilesystemSetStatus f _ => fun r => Some (FilesystemTag f)
      | _ => fun _ => None
      end r
  | Logged _ _ _ => None
  end.

(** The cursors over attachment documents, with the documents they handed
    out and what [Close] answered. *)
Definition asFindUnits (e : Event) : option (string * (list string * option error)) :=
  match e with
  | Called o r =>
      match o in Op R return R -> option (string * (list string * option error)) with
      | FindStorageAttachmentUnits id => fun r => Some (id, r)
      | _ => fun _ => None
      end r
  | Logged _ _ _ => None
  end.

Definition asFindVolumeHosts (e : Event) : option (string * (list string * option error)) :=
  match e with
  | Called o r =>
      match o in Op R return R -> option (string * (list string * option error)) with
      | FindVolumeAttachmentHosts id => fun r => Some (id, r)
      | _ => fun _ => None
      end r
  | Logged _ _ _ => None
  end.

Definition asFindFilesystemHosts (e : Event) : option (string * (list string * option error)) :=
  match e with
  | Called o r =>
      match o in Op R return R -> option (string * (list string * option error)) with
      | FindFilesystemAttachmentHosts id => fun r => Some (id, r)
      | _ => fun _ => None
      end r
  | Logged _ _ _ => None
  end.

(** The errors that [sb.DetachStorage] answered. *)
Definition asDetachError (e : Event) : option error :=
  match e with
  | Called o r =>
      match o in Op R return R -> option error with
      | DetachStorage _ _ _ => fun r => r
      | _ => fun _ => None
      end r
  | Logged _ _ _ => None
  end.

(** [sb.DetachVolume] and [sb.DetachFilesystem], with their answers. *)
Definition asDetachVolume (e : Event) : option (string * string * option error) :=
  match e with
  | Called o r =>
      match o in Op R return R -> option (string * string * option error) with
      | DetachVolume host volume => fun r => Some (host, volume, r)
      | _ => fun _ => None
      end r
  | Logged _ _ _ => None
  end.

Definition asDetachFilesystem (e : Event) : option (string * string * option error) :=
  match e with
  | Called o r =>
      match o in Op R return R -> option (string * string * option error) with
      | DetachFilesystem host fs => fun r => Some (host, fs, r)
      | _ => fun _ => None
      end r
  | Logged _ _ _ => None
  end.

(** The applications of a dying model. *)
Definition asFindRemoteApplications (e : Event)
  : option (list RemoteApplicationDoc * option error) :=
  match e with
  | Called o r =>
      match o in Op R return R -> option (list RemoteApplicationDoc * option error) with
      | FindAliveRemoteApplications => fun r => Some r
      | _ => fun _ => None
      end r
  | Logged _ _ _ => None
  end.

Definition asFindApplications (e : Event) : option (list ApplicationDoc * option error) :=
  match e with
  | Called o r =>
      match o in Op R return R -> option (list ApplicationDoc * option error) with
      | FindAliveApplications => fun r => Some r
      | _ => fun _ => None
      end r
  | Logged _ _ _ => None
  end.

Definition asRemoteDestroy (e : Event) : option (RemoteApplicationDoc * option error) :=
  match e with
  | Called o r =>
      match o in Op R return R -> option (RemoteApplicationDoc * option error) with
      | RemoteApplicationDestroy a => fun r => Some (a, r)
      | _ => fun _ => None
      end r
  | Logged _ _ _ => None
  end.

Definition asApplicationDestroy (e : Event) : option (ApplicationDoc * bool * option error) :=
  match e with
  | Called o r =>
      match o in Op R return R -> option (ApplicationDoc * bool * option error) with
      | ApplyDestroyApplication a removeOffers => fun r => Some (a, removeOffers, r)
      | _ => fun _ => None
      end r
  | Logged _ _ _ => None
  end.

(** The units of a dying application. *)
Definition asFindUnitsOf (e : Event) : option (string * (list Unit * option error)) :=
  match e with
  | Called o r =>
      match o in Op R return R -> option (string * (list Unit * option error)) with
      | FindAliveUnits application => fun r => Some (application, r)
      | _ => fun _ => None
      end r
  | Logged _ _ _ => None
  end.

Definition asDestroyUnit (e : Event) : option (Unit * bool * bool * option error) :=
  match e with
  | Called o r =>
      match o in Op R return R -> option (Unit * bool * bool * option error) with
      | ApplyDestroyUnit u destroyStorage force => fun r => Some (u, destroyStorage, force, r)
      | _ => fun _ => None
      end r
  | Logged _ _ _ => None
  end.

(** [unit.RemoveWithForce(force)], with its answer. *)
Definition asRemoveUnit (e : Event) : option (Unit * bool * (list error * option error)) :=
  match e with
  | Called o r =>
      match o in Op R return R -> option (Unit * bool * (list error * option error)) with
      | UnitRemoveWithForce u force => fun r => Some (u, force, r)
      | _ => fun _ => None
      end r
  | Logged _ _ _ => None
  end.

(** The force flag that a list of arguments stands for, for the handlers
    that take at most one argument: a missing argument is [false]. *)
Definition forcePlan (args : list bsonRaw) : option bool :=
  match args with
  | [] => Some false
  | [a] => match UnmarshalBool a false with
           | (force, None) => Some force
           | _ => None
           end
  | _ => None
  end.

(** The two flags of the handlers that take at most two arguments, decoded
    as the handlers decode them. *)
Definition flagsPlan (args : list bsonRaw) : option (bool * bool) :=
  match args with
  | [] => Some (false, false)
  | [a] =>
      match UnmarshalBool a false with
      | (destroyStorage, None) => Some (destroyStorage, false)
      | _ => None
      end
  | [a; b] =>
      match UnmarshalBool a false, UnmarshalBool b false with
      | (destroyStorage, None), (force, None) => Some (destroyStorage, force)
      | _, _ => None
      end
  | _ => None
  end.

(** The last element of a list, if any. *)
Definition lastOf {X : Type} (xs : list X) : option X := hd_error (rev xs).

(** [Yields P p]: whatever the collaborators answer, [p] returns a value of
    which [P] holds. *)
Inductive Yields {A : Type} (P : A -> Prop) : Prog A -> Prop :=
| YRet (a : A) : P a -> Yields P (Ret a)
| YCall (R : Type) (o : Op R) (k : R -> Prog A) :
    (forall r, Yields P (k r)) -> Yields P (Call o k)
| YLogf lvl format args (k : Prog A) : Yields P k -> Yields P (Logf lvl format args k)
| YFind query (k : list cleanupDoc -> Prog A) :
    (forall docs, Yields P (k docs)) -> Yields P (Find query k).

(** The calls of [cleanupRemovedUnit]: an action is finished only when it is
    pending or running, and as cancelled because the unit was removed. *)
Definition cancelsUnfinished (R : Type) (o : Op R) : Prop :=
  match o with
  | ActionFinish a results =>
      (actionStatus a = ActionPending \/ actionStatus a = ActionRunning)
      /\ results = {| resultStatus := ActionCancelled; resultMessage := "unit removed" |}
  | _ => True
  end.

(** The calls of [cleanupDyingEntityStorage] on a manual machine: nothing is
    removed and no filesystem is looked up or set detached. *)
Definition keepsRecords (R : Type) (o : Op R) : Prop :=
  match o with
  | RemoveFilesystemAttachment _ _ | RemoveVolumeAttachmentPlan _ _ | RemoveFilesystem _
  | FilesystemSetStatus _ _ | SbFilesystem _ | FilesystemVolume _ => False
  | _ => True
  end.

(** Calls other than [NewStorageBackend]. *)
Definition pastBackend (R : Type) (o : Op R) : Prop :=
  match o with
  | NewStorageBackend => False
  | _ => True
  end.

(** A turn of a loop that makes one call and returns from the function with
    the wrapped error when the call fails. *)
Definition stopsOnError {X : Type} (op : X -> Op (option error))
    (wrap : option error -> option error) (x : X) (evs : list Event)
    (v : option (option error)) : Prop :=
  exists answer,
    evs = [Called (op x) answer]
    /\ v = if isNil answer then None else Some (wrap answer).

(** A loop that stops at the first failure, seen from its calls: the
    elements before the failing one were called and answered nil, and the
    failing call is the last one made; without a failure every element was
    called and answered nil. *)
Definition untilFailure {Y : Type} (ys : list Y) (calls : list (Y * option error))
    (failure : option error) : Prop :=
  match failure with
  | None => calls = map (fun y => (y, None)) ys
  | Some e =>
      exists done y rest,
        ys = done ++ y :: rest
        /\ calls = map (fun y => (y, None)) done ++ [(y, Some e)]
  end.

(** The error of a forced [obliterateUnit], if any, is the answer of the
    call it ends with. *)
Definition endsWithRemoval (a : outcome (list error * option error)) (evs : list Event)
  : Prop :=
  match a with
  | Returned (_, Some e) =>
      exists u errs, lastOf evs = Some (Called (UnitRemoveWithForce u true) (errs, Some e))
  | _ => True
  end.

(** ** A backend where things fail

    Every unit exists; unit app/1 can be neither destroyed nor detached,
    actions cannot be finished, payloads cannot be cleaned up and units are
    removed with complaints.  The rest answers as in [Toy.zero]. *)
Module Lab.

Definition busy : error := Errorf "busy" [].

Definition unit (name : string) : Unit := {| Name := name; SubordinateNames := [] |}.

Definition answer {R : Type} (o : Op R) : R :=
  match o in Op R return R with
  | StUnit name => (unit name, None)
  | AllStorageInstances =>
      ([ {| StorageTag := "data/0" |}; {| StorageTag := "data/1" |} ], None)
  | FindAliveUnits _ => ([unit "app/0"; unit "app/1"; unit "app/2"], None)
  | ApplyDestroyUnit u _ _ => if String.eqb (Name u) "app/1" then Some busy else None
  | FindStorageAttachmentUnits _ => (["app/0"; "app/1"; "app/2"], None)
  | DetachStorage _ u _ => if String.eqb u "app/1" then Some busy else None
  | matchingActionsByReceiverId _ =>
      ([ {| actionName := "backup"; actionStatus := ActionRunning |};
         {| actionName := "restore"; actionStatus := ActionCompleted |} ], None)
  | ActionFinish _ _ => Some busy
  | ApplyPayloadCleanup _ => Some busy
  | UnitFilesystemAttachments _ => ([], Some busy)
  | UnitRemoveWithForce _ _ => ([busy], Some busy)
  | o' => Toy.zero o'
  end.

Definition exec (R : Type) (o : Op R) (w : Datatypes.unit)
  : R * Datatypes.unit * list cleanupDoc :=
  (answer o, w, []).

Definition start : HS Datatypes.unit := {| world := tt; cleanups := []; trace := [] |}.

End Lab.

(** ** Running programs: general facts *)

Section RunFacts.

Variable W : Type.
Variable exec : forall R : Type, Op R -> W -> R * W * list cleanupDoc.

Lemma run_bind {A B : Type} (p : Prog A) (f : A -> Prog B) (s : HS W) :
  run exec (bind p f) s = let '(a, s') := run exec p s in run exec (f a) s'.
Proof.
  revert s. induction p as [a | R o k IH | lvl fmt args k IH | q k IH]; intros s; simpl.
  - reflexivity.
  - destruct (called exec s o) as [r s']. apply IH.
  - apply IH.
  - apply IH.
Qed.

Lemma run_call {R : Type} (o : Op R) (s : HS W) :
  run exec (call o) s = called exec s o.
Proof. unfold call. simpl. destruct (called exec s o). reflexivity. Qed.

Lemma run_logf lvl fmt args (s : HS W) :
  run exec (logf lvl fmt args) s = (tt, logged s lvl fmt args).
Proof. reflexivity. Qed.

Lemma run_orElse {R : Type} (loop : Prog (option R)) (rest : Prog R) (s : HS W) :
  run exec (orElse loop rest) s =
  let '(r, s') := run exec loop s in
  match r with Some v => (v, s') | None => run exec rest s' end.
Proof.
  unfold orElse. rewrite run_bind. destruct (run exec loop s) as [[v |] s']; reflexivity.
Qed.

Lemma run_orNext {R : Type} (step rest : Prog (option R)) (s : HS W) :
  run exec (orNext step rest) s =
  let '(r, s') := run exec step s in
  match r with Some v => (Some v, s') | None => run exec rest s' end.
Proof.
  unfold orNext. rewrite run_bind. destruct (run exec step s) as [[v |] s']; reflexivity.
Qed.

Lemma run_forEach_cons {X R : Type} (x : X) (xs : list X)
    (body : X -> Prog (option R)) (s : HS W) :
  run exec (forEach (x :: xs) body) s =
  let '(r, s') := run exec (body x) s in
  match r with Some v => (Some v, s') | None => run exec (forEach xs body) s' end.
Proof.
  simpl. rewrite run_bind. destruct (run exec (body x) s) as [[v |] s']; reflexivity.
Qed.

Lemma called_trace {R : Type} (o : Op R) (s : HS W) :
  trace (snd (called exec s o)) = trace s ++ [Called o (fst (called exec s o))].
Proof. unfold called. destruct (exec o (world s)) as [[r w] enq]. reflexivity. Qed.

(** A run only adds to the trace. *)
Lemma run_trace {A : Type} (p : Prog A) (s : HS W) :
  exists evs, trace (snd (run exec p s)) = trace s ++ evs.
Proof.
  revert s. induction p as [a | R o k IH | lvl fmt args k IH | q k IH]; intros s; simpl.
  - exists []. now rewrite app_nil_r.
  - pose proof (called_trace o s) as Ht.
    destruct (called exec s o) as [r s']. simpl in Ht.
    destruct (IH r s') as [evs Hevs]. rewrite Hevs, Ht, <- app_assoc.
    eexists. reflexivity.
  - destruct (IH (logged s lvl fmt args)) as [evs Hevs]. rewrite Hevs. simpl.
    rewrite <- app_assoc. eexists. reflexivity.
  - apply IH.
Qed.

(** *** The cleanups collection *)

Lemma insertDoc_keeps id doc docs d : In d docs -> In d (insertDoc id doc docs).
Proof.
  unfold insertDoc. destruct (hasId id docs); [easy |]. intros H. apply in_or_app. now left.
Qed.

Lemma enqueue_keeps enq docs d : In d docs -> In d (enqueue docs enq).
Proof.
  unfold enqueue. revert docs. induction enq as [| x enq IH]; intros docs H; simpl.
  - exact H.
  - apply IH. now apply insertDoc_keeps.
Qed.

Lemma removeDoc_keeps id docs d :
  DocID d <> id -> In d docs -> In d (removeDoc id docs).
Proof.
  intros Hne Hin. unfold removeDoc. apply filter_In. split; [exact Hin |].
  apply negb_true_iff. now apply String.eqb_neq.
Qed.

Lemma removeDoc_hasId id docs : hasId id (removeDoc id docs) = false.
Proof.
  unfold hasId, removeDoc. induction docs as [| x docs IH]; simpl; [reflexivity |].
  destruct (String.eqb (DocID x) id) eqn:Hx; simpl; [exact IH |].
  now rewrite Hx.
Qed.

Lemma applyOps_keeps ops docs d :
  existsb isRemoval ops = false -> In d docs -> In d (applyOps ops docs).
Proof.
  unfold applyOps. revert docs. induction ops as [| op ops IH]; intros docs Hno Hin; simpl.
  - exact Hin.
  - simpl in Hno. apply orb_false_iff in Hno. destruct Hno as [Hop Hops].
    apply IH; [exact Hops |].
    destruct op as [C id doc | C id | C id u | o]; simpl in *.
    + destruct (String.eqb C cleanupsC); [now apply insertDoc_keeps | exact Hin].
    + now rewrite Hop.
    + exact Hin.
    + exact Hin.
Qed.

Lemma called_keeps {R : Type} (o : Op R) (s : HS W) d :
  keepsCleanups o -> In d (cleanups s) -> In d (cleanups (snd (called exec s o))).
Proof.
  intros Hk Hin. unfold called. destruct (exec o (world s)) as [[r w] enq]. simpl.
  pose proof (enqueue_keeps enq _ _ Hin) as Hin'.
  destruct o; simpl in *; try exact Hin'; try exact Hin.
  destruct r; [exact Hin | now apply applyOps_keeps].
Qed.

(** *** Footprints *)

Section WithAnswers.

Variable Q : forall R : Type, Op R -> R -> Prop.
Hypothesis exec_Q : forall (R : Type) (o : Op R) (w : W), Q o (fst (fst (exec o w))).

Lemma called_Q {R : Type} (o : Op R) (s : HS W) : Q o (fst (called exec s o)).
Proof.
  unfold called. pose proof (exec_Q o (world s)) as H.
  destruct (exec o (world s)) as [[r w] enq]. exact H.
Qed.

(** Every event of a run satisfies the footprint of the program. *)
Lemma footprint_trace (P : forall R : Type, Op R -> Prop) {A : Type} (p : Prog A) :
  Footprint Q P p ->
  forall s, exists evs,
    trace (snd (run exec p s)) = trace s ++ evs /\ Forall (satisfies P) evs.
Proof.
  induction 1 as [a | R o k HP Hk IH | lvl fmt args k Hk IH | q k Hk IH]; intros s; simpl.
  - exists []. split; [now rewrite app_nil_r | constructor].
  - pose proof (called_trace o s) as Ht. pose proof (called_Q o s) as Hq.
    destruct (called exec s o) as [r s']. simpl in Ht, Hq.
    destruct (IH r Hq s') as [evs [Hevs Hall]].
    exists (Called o r :: evs). split.
    + rewrite Hevs, Ht, <- app_assoc. reflexivity.
    + constructor; [exact HP | exact Hall].
  - destruct (IH (logged s lvl fmt args)) as [evs [Hevs Hall]].
    exists (Logged lvl fmt args :: evs). split.
    + rewrite Hevs. simpl. rewrite <- app_assoc. reflexivity.
    + constructor; [exact I | exact Hall].
  - apply IH.
Qed.

(** A program whose transactions remove nothing keeps every cleanup document. *)
Lemma footprint_keeps {A : Type} (p : Prog A) :
  Footprint Q keepsCleanups p ->
  forall s d, In d (cleanups s) -> In d (cleanups (snd (run exec p s))).
Proof.
  induction 1 as [a | R o k HP Hk IH | lvl fmt args k Hk IH | q k Hk IH];
    intros s d Hin; simpl.
  - exact Hin.
  - pose proof (called_keeps o s d HP Hin) as Hin'. pose proof (called_Q o s) as Hq.
    destruct (called exec s o) as [r s']. simpl in *. now apply IH.
  - now apply IH.
  - now apply IH.
Qed.

End WithAnswers.

End RunFacts.

(** *** Footprints of compound programs *)

Section FootprintRules.

Variable Q : forall R : Type, Op R -> R -> Prop.
Variable P : forall R : Type, Op R -> Prop.

Lemma Footprint_bind {A B : Type} (p : Prog A) (f : A -> Prog B) :
  Footprint Q P p -> (forall a, Footprint Q P (f a)) -> Footprint Q P (bind p f).
Proof.
  intros Hp Hf. induction Hp; simpl.
  - apply Hf.
  - apply FpCall; [assumption |]. intros r Hr. now apply H1.
  - apply FpLogf. assumption.
  - apply FpFind. intros docs. now apply H0.
Qed.

Lemma Footprint_call {R : Type} (o : Op R) : P o -> Footprint Q P (call o).
Proof. intros H. apply FpCall; [exact H |]. intros r _. apply FpRet. Qed.

Lemma Footprint_logf lvl fmt args : Footprint Q P (logf lvl fmt args).
Proof. apply FpLogf, FpRet. Qed.

Lemma Footprint_forEach {X R : Type} (xs : list X) (body : X -> Prog (option R)) :
  (forall x, In x xs -> Footprint Q P (body x)) -> Footprint Q P (forEach xs body).
Proof.
  induction xs as [| x xs IH]; intros H; simpl.
  - apply FpRet.
  - apply Footprint_bind.
    + apply H. now left.
    + intros [v |]; [apply FpRet |]. apply IH. intros y Hy. apply H. now right.
Qed.

Lemma Footprint_foldEach {X S R : Type} (xs : list X) (s : S)
    (body : X -> S -> Prog (S + R)) :
  (forall x s, In x xs -> Footprint Q P (body x s)) -> Footprint Q P (foldEach xs s body).
Proof.
  revert s. induction xs as [| x xs IH]; intros s H; simpl.
  - apply FpRet.
  - apply Footprint_bind.
    + apply H. now left.
    + intros [s' | v]; [| apply FpRet]. apply IH. intros y s0 Hy. apply H. now right.
Qed.

Lemma Footprint_orElse {R : Type} (loop : Prog (option R)) (rest : Prog R) :
  Footprint Q P loop -> Footprint Q P rest -> Footprint Q P (orElse loop rest).
Proof.
  intros Hl Hr. unfold orElse. apply Footprint_bind; [exact Hl |].
  intros [v |]; [apply FpRet | exact Hr].
Qed.

Lemma Footprint_orNext {R : Type} (step rest : Prog (option R)) :
  Footprint Q P step -> Footprint Q P rest -> Footprint Q P (orNext step rest).
Proof.
  intros Hl Hr. unfold orNext. apply Footprint_bind; [exact Hl |].
  intros [v |]; [apply FpRet | exact Hr].
Qed.

Lemma Footprint_closeIter iterClose errOut message :
  Footprint Q P (closeIter iterClose errOut message).
Proof.
  unfold closeIter. destruct iterClose; [| apply FpRet].
  destruct errOut; [| apply FpRet].
  apply Footprint_bind; [apply Footprint_logf | intros; apply FpRet].
Qed.

End FootprintRules.

Lemma Footprint_weaken (Q Q' : forall R : Type, Op R -> R -> Prop)
    (P P' : forall R : Type, Op R -> Prop) {A : Type} (p : Prog A) :
  (forall R (o : Op R), P R o -> P' R o) ->
  (forall R (o : Op R) r, Q' R o r -> Q R o r) ->
  Footprint Q P p -> Footprint Q' P' p.
Proof.
  intros HP HQ. induction 1.
  - apply FpRet.
  - apply FpCall; [now apply HP |]. intros r Hr. apply H1. now apply HQ.
  - now apply FpLogf.
  - apply FpFind. assumption.
Qed.

Create HintDb footprint.

#[export] Hint Resolve FpRet Footprint_logf Footprint_closeIter : footprint.

(** One step towards a footprint: compute the program as far as it is
    known, then follow its shape. *)
Ltac footprint_step :=
  first
  [ progress cbn [bind call logf find returned]
  | match goal with
    | |- Footprint _ _ (Ret _) => apply FpRet
    | |- Footprint _ _ (Call _ _) => apply FpCall; [| intros ? ?]
    | |- Footprint _ _ (Logf _ _ _ _) => apply FpLogf
    | |- Footprint _ _ (Find _ _) => apply FpFind; intros ?
    | |- Footprint _ _ (closeIter _ _ _) => apply Footprint_closeIter
    | |- Footprint _ _ (orElse _ _) => apply Footprint_orElse
    | |- Footprint _ _ (orNext _ _) => apply Footprint_orNext
    | |- Footprint _ _ (forEach _ _) => apply Footprint_forEach; intros ? ?
    | |- Footprint _ _ (foldEach _ _ _) => apply Footprint_foldEach; intros ? ? ?
    | |- Footprint _ _ (match (match ?x with _ => _ end) with _ => _ end) => destruct x
    | |- Footprint _ _ (bind (match ?x with _ => _ end) _) => destruct x
    | |- Footprint _ _ (match ?x with _ => _ end) => destruct x
    | |- Footprint _ _ (bind _ _) => apply Footprint_bind; [| intros ?]
    | |- context [match ?x with _ => _ end] => destruct x
    end ].

Ltac footprint :=
  repeat first [ solve [auto with footprint] | footprint_step | exact I | reflexivity ].

Section KeepsCleanups.

Variable Q : forall R : Type, Op R -> R -> Prop.

Lemma keeps_scheduleForceCleanup kind name :
  Footprint Q keepsCleanups (scheduleForceCleanup kind name).
Proof. unfold scheduleForceCleanup, newCleanupAtOp, dbRun. footprint. Qed.

#[local] Hint Resolve keeps_scheduleForceCleanup : footprint.

Lemma keeps_cleanupResourceBlob path :
  Footprint Q keepsCleanups (cleanupResourceBlob path).
Proof. unfold cleanupResourceBlob. footprint. Qed.

Lemma keeps_cleanupRelationSettings docID prefix :
  Footprint Q keepsCleanups (cleanupRelationSettings docID prefix).
Proof. unfold cleanupRelationSettings. footprint. Qed.

Lemma keeps_destroyModels args uuids deferred :
  Footprint Q keepsCleanups (destroyModels args uuids deferred).
Proof.
  revert deferred. induction uuids as [| u uuids IH]; intros deferred; simpl; footprint.
Qed.

Lemma keeps_runDeferredClose deferred :
  Footprint Q keepsCleanups (runDeferredClose deferred).
Proof. induction deferred; simpl; footprint. Qed.

#[local] Hint Resolve keeps_destroyModels keeps_runDeferredClose : footprint.

Lemma keeps_cleanupModelsForDyingController args :
  Footprint Q keepsCleanups (cleanupModelsForDyingController args).
Proof. unfold cleanupModelsForDyingController. footprint. Qed.

Lemma keeps_cleanupMachinesForDyingModel :
  Footprint Q keepsCleanups cleanupMachinesForDyingModel.
Proof. unfold cleanupMachinesForDyingModel. footprint. Qed.

Lemma keeps_cleanupStorageForDyingModel args :
  Footprint Q keepsCleanups (cleanupStorageForDyingModel args).
Proof.
  unfold cleanupStorageForDyingModel.
  destruct args as [| [] [| [] [| ]]]; cbn; footprint.
Qed.

Lemma keeps_cleanupApplicationsForDyingModel :
  Footprint Q keepsCleanups cleanupApplicationsForDyingModel.
Proof.
  unfold cleanupApplicationsForDyingModel, removeRemoteApplicationsForDyingModel,
    removeApplicationsForDyingModel. footprint.
Qed.

Lemma keeps_cleanupUnitsForDyingApplication app args :
  Footprint Q keepsCleanups (cleanupUnitsForDyingApplication app args).
Proof. unfold cleanupUnitsForDyingApplication. footprint. Qed.

Lemma keeps_cleanupCharm url : Footprint Q keepsCleanups (cleanupCharm url).
Proof. unfold cleanupCharm. footprint. Qed.

Lemma keeps_cleanupUnitStorageAttachments unitTag remove force :
  Footprint Q keepsCleanups (cleanupUnitStorageAttachments unitTag remove force).
Proof. unfold cleanupUnitStorageAttachments. footprint. Qed.

Lemma keeps_cleanupUnitStorageInstances unitTag force :
  Footprint Q keepsCleanups (cleanupUnitStorageInstances unitTag force).
Proof. unfold cleanupUnitStorageInstances. footprint. Qed.

#[local] Hint Resolve keeps_cleanupUnitStorageAttachments
  keeps_cleanupUnitStorageInstances : footprint.

Lemma keeps_cleanupDyingUnit name args :
  Footprint Q keepsCleanups (cleanupDyingUnit name args).
Proof. unfold cleanupDyingUnit. footprint. Qed.

Lemma keeps_forceRemoveUnitStorageAttachments unit :
  Footprint Q keepsCleanups (forceRemoveUnitStorageAttachments unit).
Proof. unfold forceRemoveUnitStorageAttachments. footprint. Qed.

#[local] Hint Resolve keeps_forceRemoveUnitStorageAttachments : footprint.

Lemma keeps_cleanupForceDestroyedUnit unitId :
  Footprint Q keepsCleanups (cleanupForceDestroyedUnit unitId).
Proof. unfold cleanupForceDestroyedUnit. footprint. Qed.

Lemma keeps_cleanupForceRemoveUnit unitId :
  Footprint Q keepsCleanups (cleanupForceRemoveUnit unitId).
Proof. unfold cleanupForceRemoveUnit. footprint. Qed.

Lemma keeps_cleanupDyingEntityStorage hostTag manual fsas vas force :
  Footprint Q keepsCleanups (cleanupDyingEntityStorage hostTag manual fsas vas force).
Proof. unfold cleanupDyingEntityStorage. footprint. Qed.

#[local] Hint Resolve keeps_cleanupDyingEntityStorage : footprint.

Lemma keeps_cleanupDyingUnitResources unitId args :
  Footprint Q keepsCleanups (cleanupDyingUnitResources unitId args).
Proof. unfold cleanupDyingUnitResources. footprint. Qed.

Lemma keeps_cleanupRemovedUnit unitId args :
  Footprint Q keepsCleanups (cleanupRemovedUnit unitId args).
Proof. unfold cleanupRemovedUnit. footprint. Qed.

Lemma keeps_cleanupDyingMachineResources m force :
  Footprint Q keepsCleanups (cleanupDyingMachineResources m force).
Proof. unfold cleanupDyingMachineResources. footprint. Qed.

#[local] Hint Resolve keeps_cleanupDyingMachineResources : footprint.

Lemma keeps_cleanupDyingMachine id args :
  Footprint Q keepsCleanups (cleanupDyingMachine id args).
Proof. unfold cleanupDyingMachine. footprint. Qed.

Lemma keeps_obliterateUnit fuel name force :
  Footprint Q keepsCleanups (obliterateUnit fuel name force).
Proof.
  revert name. induction fuel as [| fuel IH]; intros name; simpl; footprint.
Qed.

#[local] Hint Resolve keeps_obliterateUnit : footprint.

Lemma existsb_isRemoval_ports ops : existsb isRemoval (map OpPorts ops) = false.
Proof. induction ops; simpl; auto. Qed.

Lemma keeps_cleanupForceDestroyedMachine fuel id :
  Footprint Q keepsCleanups (cleanupForceDestroyedMachine fuel id).
Proof.
  revert id. induction fuel as [| fuel IH]; intros id; simpl.
  - footprint.
  - unfold cleanupUpgradeSeriesLock, cleanupContainers, dbRun, hasVoteTxn.
    footprint; apply existsb_isRemoval_ports.
Qed.

Lemma keeps_cleanupAttachmentsForDyingStorage id args :
  Footprint Q keepsCleanups (cleanupAttachmentsForDyingStorage id args).
Proof. unfold cleanupAttachmentsForDyingStorage. footprint. Qed.

Lemma keeps_cleanupAttachmentsForDyingVolume id :
  Footprint Q keepsCleanups (cleanupAttachmentsForDyingVolume id).
Proof. unfold cleanupAttachmentsForDyingVolume. footprint. Qed.

Lemma keeps_cleanupAttachmentsForDyingFilesystem id :
  Footprint Q keepsCleanups (cleanupAttachmentsForDyingFilesystem id).
Proof. unfold cleanupAttachmentsForDyingFilesystem. footprint. Qed.

(** No handler removes a cleanup document. *)
Lemma keeps_runCleanup docID fuel doc args :
  Footprint Q keepsCleanups (runCleanup docID fuel doc args).
Proof.
  unfold runCleanup, returned.
  repeat match goal with
         | |- Footprint _ _ (if ?c then _ else _) => destruct c
         end;
    try (apply Footprint_bind; [| intros; apply FpRet]);
    auto using keeps_cleanupRelationSettings, keeps_cleanupCharm,
      keeps_cleanupUnitsForDyingApplication, keeps_cleanupDyingUnit,
      keeps_cleanupForceDestroyedUnit, keeps_cleanupForceRemoveUnit,
      keeps_cleanupDyingUnitResources, keeps_cleanupRemovedUnit,
      keeps_cleanupApplicationsForDyingModel, keeps_cleanupDyingMachine,
      keeps_cleanupForceDestroyedMachine, keeps_cleanupAttachmentsForDyingStorage,
      keeps_cleanupAttachmentsForDyingVolume, keeps_cleanupAttachmentsForDyingFilesystem,
      keeps_cleanupModelsForDyingController, keeps_cleanupMachinesForDyingModel,
      keeps_cleanupResourceBlob, keeps_cleanupStorageForDyingModel.
  apply FpRet.
Qed.

End KeepsCleanups.

(** ** Lookups that find nothing *)

Section NotFound.

Variable W : Type.
Variable exec : forall R : Type, Op R -> W -> R * W * list cleanupDoc.

Lemma no_first_event {A : Type} (a : A) (s : HS W) ev rest :
  trace (snd (run exec (Ret a) s)) = trace s ++ ev :: rest -> False.
Proof.
  simpl. intros H. rewrite <- (app_nil_r (trace s)) in H at 1.
  apply app_inv_head in H. discriminate H.
Qed.

Lemma first_event {A R : Type} (o : Op R) (k : R -> Prog A) (s : HS W) ev rest :
  trace (snd (run exec (Call o k) s)) = trace s ++ ev :: rest ->
  ev = Called o (fst (called exec s o)).
Proof.
  simpl. pose proof (called_trace exec o s) as Ht.
  destruct (called exec s o) as [r s']. simpl in *.
  destruct (run_trace exec (k r) s') as [evs Hevs]. rewrite Hevs, Ht, <- app_assoc.
  intros H. apply app_inv_head in H. simpl in H. now inversion H.
Qed.

Lemma unit_not_found {A : Type} name (k : Unit * option error -> Prog A) (s : HS W)
    u e rest :
  trace (snd (run exec (Call (StUnit name) k) s)) = trace s ++ Called (StUnit name) (u, e) :: rest ->
  fst (called exec s (StUnit name)) = (u, e).
Proof.
  intros H. apply first_event in H. apply (f_equal unitAnswer) in H. simpl in H.
  now inversion H.
Qed.

Lemma machine_not_found {A : Type} id (k : Machine * option error -> Prog A) (s : HS W)
    m e rest :
  trace (snd (run exec (Call (StMachine id) k) s)) = trace s ++ Called (StMachine id) (m, e) :: rest ->
  fst (called exec s (StMachine id)) = (m, e).
Proof.
  intros H. apply first_event in H. apply (f_equal machineAnswer) in H. simpl in H.
  now inversion H.
Qed.

(** The arguments of [cleanupDyingUnit] either are refused before anything is
    looked up, or decode to two flags. *)
Lemma cleanupDyingUnit_args name args :
  (exists err, cleanupDyingUnit name args = Ret (Some err)) \/
  (exists destroyStorage force,
     cleanupDyingUnit name args
     = cleanupDyingUnit name [RawBool destroyStorage; RawBool force]).
Proof.
  destruct args as [| a [| b [| c rest]]].
  - right. exists false, false. reflexivity.
  - destruct a; try (left; eexists; reflexivity); right; eexists _, false; reflexivity.
  - destruct a; try (left; eexists; reflexivity);
      destruct b; try (left; eexists; reflexivity); right; eexists _, _; reflexivity.
  - left. eexists. reflexivity.
Qed.

Lemma cleanupDyingMachine_args id args :
  (exists err, cleanupDyingMachine id args = Ret (Some err)) \/
  (exists force, cleanupDyingMachine id args = cleanupDyingMachine id [RawBool force]).
Proof.
  destruct args as [| a [| b rest]].
  - right. exists false. reflexivity.
  - destruct a; try (left; eexists; reflexivity); right; eexists; reflexivity.
  - left. eexists. reflexivity.
Qed.

(** C2: each handler that looks up its target entity (cleanupDyingUnit,
    cleanupForceDestroyedUnit, cleanupForceRemoveUnit, cleanupDyingMachine,
    cleanupForceDestroyedMachine) returns nil when that lookup reports
    not-found, and does nothing more: the run ends in the state the lookup
    left, with at most the debug line of the two forced unit handlers added
    to the log.  "The lookup reports not-found" reads: the first thing the
    run adds to the trace is the lookup of the target, answered with a
    not-found error. *)
Theorem C2_not_found_is_noop :
  (forall name args s u e rest,
      trace (snd (run exec (cleanupDyingUnit name args) s))
        = trace s ++ Called (StUnit name) (u, e) :: rest ->
      IsNotFound e = true ->
      run exec (cleanupDyingUnit name args) s
        = (None, snd (called exec s (StUnit name))))
  /\ (forall unitId s u e rest,
      trace (snd (run exec (cleanupForceDestroyedUnit unitId) s))
        = trace s ++ Called (StUnit unitId) (u, e) :: rest ->
      IsNotFound e = true ->
      run exec (cleanupForceDestroyedUnit unitId) s
        = (None, logged (snd (called exec s (StUnit unitId)))
                        Debug "no need to force unit to dead %q" [V unitId]))
  /\ (forall unitId s u e rest,
      trace (snd (run exec (cleanupForceRemoveUnit unitId) s))
        = trace s ++ Called (StUnit unitId) (u, e) :: rest ->
      IsNotFound e = true ->
      run exec (cleanupForceRemoveUnit unitId) s
        = (None, logged (snd (called exec s (StUnit unitId)))
                        Debug "no need to force remove unit %q" [V unitId]))
  /\ (forall id args s m e rest,
      trace (snd (run exec (cleanupDyingMachine id args) s))
        = trace s ++ Called (StMachine id) (m, e) :: rest ->
      IsNotFound e = true ->
      run exec (cleanupDyingMachine id args) s
        = (None, snd (called exec s (StMachine id))))
  /\ (forall fuel id s m e rest,
      trace (snd (run exec (cleanupForceDestroyedMachine fuel id) s))
        = trace s ++ Called (StMachine id) (m, e) :: rest ->
      IsNotFound e = true ->
      run exec (cleanupForceDestroyedMachine fuel id) s
        = (Returned None, snd (called exec s (StMachine id)))).
Proof.
  repeat split.
  - intros name args s u e rest Ht Hnf.
    destruct (cleanupDyingUnit_args name args) as [[err Heq] | [d [f Heq]]];
      rewrite Heq in *.
    + now apply no_first_event in Ht.
    + remember (cleanupDyingUnit name [RawBool d; RawBool f]) as p eqn:Hp.
      cbn in Hp. subst p.
      pose proof Ht as Hans. apply unit_not_found in Hans.
      simpl. destruct (called exec s (StUnit name)) as [[u' e'] s'].
      simpl in Hans. inversion Hans; subst. rewrite Hnf. reflexivity.
  - intros unitId s u e rest Ht Hnf. unfold cleanupForceDestroyedUnit in *.
    cbn [bind call] in *.
    pose proof Ht as Hans. apply unit_not_found in Hans.
    simpl. destruct (called exec s (StUnit unitId)) as [[u' e'] s'].
    simpl in Hans. inversion Hans; subst. rewrite Hnf. reflexivity.
  - intros unitId s u e rest Ht Hnf. unfold cleanupForceRemoveUnit in *.
    cbn [bind call] in *.
    pose proof Ht as Hans. apply unit_not_found in Hans.
    simpl. destruct (called exec s (StUnit unitId)) as [[u' e'] s'].
    simpl in Hans. inversion Hans; subst. rewrite Hnf. reflexivity.
  - intros id args s m e rest Ht Hnf.
    destruct (cleanupDyingMachine_args id args) as [[err Heq] | [f Heq]];
      rewrite Heq in *.
    + now apply no_first_event in Ht.
    + remember (cleanupDyingMachine id [RawBool f]) as p eqn:Hp.
      cbn in Hp. subst p.
      pose proof Ht as Hans. apply machine_not_found in Hans.
      simpl. destruct (called exec s (StMachine id)) as [[m' e'] s'].
      simpl in Hans. inversion Hans; subst. rewrite Hnf. reflexivity.
  - intros fuel id s m e rest Ht Hnf. destruct fuel as [| fuel].
    + now apply no_first_event in Ht.
    + cbn [cleanupForceDestroyedMachine bind call] in *.
      pose proof Ht as Hans. apply machine_not_found in Hans.
      simpl. destruct (called exec s (StMachine id)) as [[m' e'] s'].
      simpl in Hans. inversion Hans; subst. rewrite Hnf. reflexivity.
Qed.

End NotFound.

(** A unit and a machine that do not exist, on the concrete backend. *)
Lemma C2_not_found_is_noop_witness :
  run Toy.exec (cleanupDyingUnit "ghost/0" []) (Toy.start Toy.world0 [])
    = (None, snd (called Toy.exec (Toy.start Toy.world0 []) (StUnit "ghost/0")))
  /\ run Toy.exec (cleanupForceDestroyedMachine 2 "9") (Toy.start Toy.world0 [])
    = (Returned None, snd (called Toy.exec (Toy.start Toy.world0 []) (StMachine "9"))).
Proof.
  split.
  - apply (proj1 (C2_not_found_is_noop Toy.exec))
      with (u := Toy.noUnit) (e := Some (NotFound "ghost/0")) (rest := []);
      reflexivity.
  - apply (proj2 (proj2 (proj2 (proj2 (C2_not_found_is_noop Toy.exec)))))
      with (m := Toy.noMachine) (e := Some (NotFound "9")) (rest := []);
      reflexivity.
Defined.

(** ** Legacy tasks without arguments *)

(** C4, as stated, fails for cleanupStorageForDyingModel: with no argument
    the storage instances of the model are destroyed, with the arguments
    [false, false] they are released. *)
Lemma C4_storage_counterexample :
  run Toy.exec (cleanupStorageForDyingModel []) (Toy.start Toy.world0 [])
  <> run Toy.exec (cleanupStorageForDyingModel [RawBool false; RawBool false])
         (Toy.start Toy.world0 []).
Proof.
  intros H.
  apply (f_equal (fun x => existsb isRelease (trace (snd x)))) in H.
  vm_compute in H. discriminate H.
Qed.

(** C4, amended: a task without arguments behaves as the task with the
    arguments [false, false] for cleanupDyingUnit and
    cleanupUnitsForDyingApplication, and as the task with the arguments
    [true, false] for cleanupStorageForDyingModel, whose legacy default is to
    destroy the storage. *)
Theorem C4_legacy_defaults :
  (forall name,
      sameRun (cleanupDyingUnit name [])
              (cleanupDyingUnit name [RawBool false; RawBool false]))
  /\ (forall application,
      sameRun (cleanupUnitsForDyingApplication application [])
              (cleanupUnitsForDyingApplication application [RawBool false; RawBool false]))
  /\ sameRun (cleanupStorageForDyingModel [])
             (cleanupStorageForDyingModel [RawBool true; RawBool false]).
Proof.
  repeat split; intros; intros W exec s; reflexivity.
Qed.

(** ** Containers of a force-destroyed machine *)

(** C8 at its failing input: machine 0 hosts the containers 0/lxd/0 and
    0/lxd/1, and the record of 0/lxd/0 is gone by the time
    [cleanupContainers] looks it up again after force-destroying it (the
    provisioner removed the Dead machine).  The handler succeeds and goes on
    to the machine's own resources, up to [EnsureDead], without a single call
    about 0/lxd/1, whose record is still there at the end. *)
Theorem C8_second_container_skipped :
  let r := run Toy.exec (cleanupForceDestroyedMachine 3 "0")
               (Toy.start (Toy.withReaper Toy.world0) []) in
  fst r = Returned None
  /\ existsb (aboutMachine "0/lxd/0") (trace (snd r)) = true
  /\ existsb (aboutMachine "0/lxd/1") (trace (snd r)) = false
  /\ existsb (isEnsureDeadOf "0") (trace (snd r)) = true
  /\ snd (Toy.findMachine (world (snd r)) "0/lxd/1") = None.
Proof. vm_compute. repeat split. Qed.

(** ** The dispatch loop *)

Lemma hasId_In d docs : In d docs -> hasId (DocID d) docs = true.
Proof.
  intros H. unfold hasId. apply existsb_exists. exists d. split; [exact H |].
  apply String.eqb_refl.
Qed.

Lemma hasId_ids id docs : hasId id docs = true <-> In id (map DocID docs).
Proof.
  unfold hasId. rewrite existsb_exists, in_map_iff. split.
  - intros [d [Hin Heq]]. exists d. split; [| exact Hin]. now apply String.eqb_eq.
  - intros [d [Heq Hin]]. exists d. split; [exact Hin |]. now apply String.eqb_eq.
Qed.

Lemma insertDoc_unique id doc docs : uniqueIds docs -> uniqueIds (insertDoc id doc docs).
Proof.
  unfold insertDoc, uniqueIds. intros H. destruct (hasId id docs) eqn:Hid; [exact H |].
  rewrite map_app. simpl. apply NoDup_app.
  - exact H.
  - constructor; [intros [] | constructor].
  - intros x Hx [Hx' | []]. subst x. apply hasId_ids in Hx. congruence.
Qed.

Lemma enqueue_unique enq docs : uniqueIds docs -> uniqueIds (enqueue docs enq).
Proof.
  unfold enqueue. revert docs. induction enq as [| x enq IH]; intros docs H; simpl.
  - exact H.
  - apply IH. now apply insertDoc_unique.
Qed.

Lemma unique_same_id docs a b :
  uniqueIds docs -> In a docs -> In b docs -> DocID a = DocID b -> a = b.
Proof.
  unfold uniqueIds. induction docs as [| x docs IH]; intros Hu Ha Hb Heq; [easy |].
  simpl in Hu. inversion Hu as [| ? ? Hnotin Hu']; subst.
  destruct Ha as [Ha | Ha], Hb as [Hb | Hb]; subst.
  - reflexivity.
  - exfalso. apply Hnotin. rewrite Heq. now apply in_map.
  - exfalso. apply Hnotin. rewrite <- Heq. now apply in_map.
  - now apply IH.
Qed.

Lemma unknown_kind docID fuel doc args :
  ~ In (Kind doc) cleanupKind.all ->
  runCleanup docID fuel doc args
  = Ret (Returned (Some (Errorf "unknown cleanup kind %q" [Kind doc]))).
Proof.
  intros Hnot. unfold runCleanup.
  repeat match goal with
         | |- context [String.eqb ?a ?b] =>
             destruct (String.eqb_spec a b) as [He | _];
             [exfalso; apply Hnot; rewrite He; simpl; tauto |]
         end.
  reflexivity.
Qed.

Section CleanupPass.

Variable W : Type.
Variable exec : forall R : Type, Op R -> W -> R * W * list cleanupDoc.
Variable modelUUID : string.
Variable docID : string -> string.
Variable fuel : nat.

(** One turn of the loop, step by step. *)
Lemma run_cleanupOne doc (s : HS W) :
  run exec (cleanupOne modelUUID docID fuel doc) s =
  let s0 := logged s Debug "model %v cleanup: %v(%q)"
                   [V (substring 0 6 modelUUID); V (Kind doc); V (Prefix doc)] in
  let '(h, s1) := run exec (runCleanup docID fuel doc (Args doc)) s0 in
  match h with
  | OutOfFuel => (Some OutOfFuel, s1)
  | Returned (Some e) =>
      (None, logged s1 Warning "cleanup failed in model %v for %v(%q): %v"
                    [V modelUUID; V (Kind doc); V (Prefix doc); E (Some e)])
  | Returned None =>
      let '(v, s2) := called exec s1 (removal doc) in
      match v with
      | Some e0 =>
          (Some (Returned (Some (Annotated e0 "cannot remove empty cleanup document"))), s2)
      | None => (None, s2)
      end
  end.
Proof.
  unfold cleanupOne. cbn [bind logf]. cbn [run]. rewrite run_bind.
  destruct (run exec (runCleanup docID fuel doc (Args doc)) _) as [[[e |] |] s1]; simpl.
  - reflexivity.
  - unfold removal. destruct (called exec s1 _) as [[e0 |] s2]; reflexivity.
  - reflexivity.
Qed.

Lemma called_removal doc (s : HS W) :
  let '(v, s2) := called exec s (removal doc) in
  trace s2 = trace s ++ [Called (removal doc) v]
  /\ (v = None -> hasId (DocID doc) (cleanups s2) = false)
  /\ (forall d, In d (cleanups s) -> v <> None \/ DocID d <> DocID doc ->
                In d (cleanups s2)).
Proof.
  unfold called, removal.
  destruct (exec (RunTransaction [OpRemove cleanupsC (DocID doc)]) (world s))
    as [[v w] enq].
  simpl. split; [reflexivity |]. split.
  - intros ->. simpl. apply removeDoc_hasId.
  - intros d Hin Hor.
    destruct v as [e |]; [exact Hin |]. simpl.
    destruct Hor as [Hv | Hne]; [congruence |]. now apply removeDoc_keeps.
Qed.

Lemma handler_keeps doc args (s : HS W) d :
  In d (cleanups s) -> In d (cleanups (snd (run exec (runCleanup docID fuel doc args) s))).
Proof.
  apply footprint_keeps with (Q := anyAnswer).
  - intros; exact I.
  - apply keeps_runCleanup.
Qed.

Lemma event_stays {A : Type} (p : Prog A) (s : HS W) ev :
  In ev (trace s) -> In ev (trace (snd (run exec p s))).
Proof.
  intros H. destruct (run_trace exec p s) as [evs Hevs]. rewrite Hevs.
  apply in_or_app. now left.
Qed.

(** A turn keeps every document that has another id than the one it
    handles, and the one it handles too when its kind is unknown. *)
Lemma turn_keeps doc (s : HS W) d :
  DocID doc <> DocID d \/ ~ In (Kind doc) cleanupKind.all ->
  In d (cleanups s) ->
  In d (cleanups (snd (run exec (cleanupOne modelUUID docID fuel doc) s))).
Proof.
  intros Hor Hin. rewrite run_cleanupOne. cbv zeta.
  destruct Hor as [Hne | Hunknown].
  - pose proof (handler_keeps doc (Args doc)
                  (logged s Debug "model %v cleanup: %v(%q)"
                     [V (substring 0 6 modelUUID); V (Kind doc); V (Prefix doc)]) d Hin)
      as Hk.
    destruct (run exec (runCleanup docID fuel doc (Args doc)) _) as [[[e |] |] s1];
      simpl in *; try exact Hk.
    pose proof (called_removal doc s1) as Hr.
    destruct (called exec s1 (removal doc)) as [v s2].
    destruct Hr as [_ [_ Hr]].
    assert (In d (cleanups s2)) by (apply Hr; [exact Hk | right; congruence]).
    destruct v; assumption.
  - rewrite (unknown_kind docID fuel doc (Args doc) Hunknown). simpl. exact Hin.
Qed.

Lemma loop_keeps docs (s : HS W) d :
  (forall doc, In doc docs -> DocID doc <> DocID d \/ ~ In (Kind doc) cleanupKind.all) ->
  In d (cleanups s) ->
  In d (cleanups (snd (run exec (forEach docs (cleanupOne modelUUID docID fuel)) s))).
Proof.
  revert s. induction docs as [| doc docs IH]; intros s Hids Hin.
  - exact Hin.
  - rewrite run_forEach_cons.
    pose proof (turn_keeps doc s d (Hids doc (or_introl eq_refl)) Hin) as Hk.
    destruct (run exec (cleanupOne modelUUID docID fuel doc) s) as [[v |] s1]; simpl in *.
    + exact Hk.
    + apply IH; [| exact Hk]. intros doc' Hdoc'. apply Hids. now right.
Qed.

(** What the loop returns with: the failure of a removal, or nothing
    because a recursion ran out of fuel. *)
Lemma loop_returns docs (s : HS W) v :
  fst (run exec (forEach docs (cleanupOne modelUUID docID fuel)) s) = Some v ->
  v = OutOfFuel \/
  exists doc e0,
    In doc docs /\ In (Kind doc) cleanupKind.all
    /\ v = Returned (Some (Annotated e0 "cannot remove empty cleanup document"))
    /\ In (Called (removal doc) (Some e0))
          (trace (snd (run exec (forEach docs (cleanupOne modelUUID docID fuel)) s))).
Proof.
  revert s. induction docs as [| doc docs IH]; intros s; [discriminate |].
  rewrite run_forEach_cons.
  destruct (run exec (cleanupOne modelUUID docID fuel doc) s) as [[v1 |] s1] eqn:Hturn;
    simpl.
  - intros Hv. inversion Hv; subst v1; clear Hv.
    rewrite run_cleanupOne in Hturn. cbv zeta in Hturn.
    destruct (in_dec string_dec (Kind doc) cleanupKind.all) as [Hknown | Hunknown];
      [| rewrite (unknown_kind docID fuel doc (Args doc) Hunknown) in Hturn;
         discriminate Hturn].
    destruct (run exec (runCleanup docID fuel doc (Args doc)) _) as [[[e |] |] s0].
    + discriminate Hturn.
    + pose proof (called_removal doc s0) as Hr.
      destruct (called exec s0 (removal doc)) as [[e0 |] s2]; [| discriminate Hturn].
      inversion Hturn; subst. right. exists doc, e0. split; [now left |].
      split; [exact Hknown |].
      split; [reflexivity |]. destruct Hr as [Ht _]. rewrite Ht.
      apply in_or_app. right. now left.
    + inversion Hturn. now left.
  - intros Hv. destruct (IH s1 Hv) as [Hfuel | [doc' [e0 [Hin [Hk [Heq Hev]]]]]].
    + now left.
    + right. exists doc', e0. split; [now right |]. repeat split; assumption.
Qed.

Lemma visited_all {X R : Type} (xs : list X) (body : X -> Prog (option R)) (s : HS W) :
  fst (run exec (forEach xs body) s) = None -> visited exec xs body s = xs.
Proof.
  revert s. induction xs as [| x xs IH]; intros s; [reflexivity |].
  rewrite run_forEach_cons. simpl.
  destruct (run exec (body x) s) as [[v |] s1]; simpl; [discriminate |].
  intros H. f_equal. now apply IH.
Qed.

Lemma visited_prefix {X R : Type} (xs : list X) (body : X -> Prog (option R)) (s : HS W) :
  exists k, visited exec xs body s = firstn k xs.
Proof.
  revert s. induction xs as [| x xs IH]; intros s.
  - exists 0%nat. reflexivity.
  - simpl. destruct (run exec (body x) s) as [[v |] s1].
    + exists 1%nat. reflexivity.
    + destruct (IH s1) as [k Hk]. exists (S k). simpl. now rewrite Hk.
Qed.

(** A pass, step by step. *)
Lemma run_Cleanup (s : HS W) :
  run exec (Cleanup modelUUID docID fuel) s =
  let '(now, s1) := called exec s Now in
  let matching := filter (dueQuery now) (cleanups s1) in
  let '(fault, s2) := called exec s1 (IterOutcome (length matching)) in
  let '(r, s3) := run exec (forEach (fst (served matching fault))
                                    (cleanupOne modelUUID docID fuel)) s2 in
  match r with
  | Some OutOfFuel => (OutOfFuel, s3)
  | Some (Returned err) =>
      let '(err', s4) := run exec (closeIter (snd (served matching fault)) err
                                             "reading cleanup document") s3 in
      (Returned err', s4)
  | None =>
      let '(err', s4) := run exec (closeIter (snd (served matching fault)) None
                                             "reading cleanup document") s3 in
      (Returned err', s4)
  end.
Proof.
  unfold Cleanup. cbn [bind call find]. cbn [run].
  destruct (called exec s Now) as [now s1].
  destruct (called exec s1 (IterOutcome _)) as [fault s2].
  destruct (served (filter (dueQuery now) (cleanups s1)) fault) as [docs iterClose].
  cbn [fst snd]. rewrite run_bind, run_orElse.
  destruct (run exec (forEach docs (cleanupOne modelUUID docID fuel)) s2)
    as [[[err |] |] s3]; cbn [run].
  - rewrite run_bind. destruct (run exec (closeIter iterClose err _) s3). reflexivity.
  - reflexivity.
  - rewrite run_bind. destruct (run exec (closeIter iterClose None _) s3). reflexivity.
Qed.

Lemma run_closeIter iterClose errOut message (s : HS W) :
  cleanups (snd (run exec (closeIter iterClose errOut message) s)) = cleanups s
  /\ (fst (run exec (closeIter iterClose errOut message) s) = errOut
      \/ errOut = None /\ exists e0,
           iterClose = Some e0
           /\ fst (run exec (closeIter iterClose errOut message) s)
              = Some (Annotated e0 message)).
Proof.
  unfold closeIter. destruct iterClose as [e0 |]; [| split; [reflexivity | now left]].
  destruct errOut as [e |]; simpl.
  - split; [reflexivity | now left].
  - split; [reflexivity |]. right. split; [reflexivity |]. now exists e0.
Qed.

(** The documents the loop works on come from the collection as the query
    found it. *)
Lemma In_firstn {X : Type} (k : nat) (xs : list X) x : In x (firstn k xs) -> In x xs.
Proof.
  revert xs. induction k as [| k IH]; intros [| y xs]; simpl; try easy.
  intros [H | H]; [now left | right; now apply IH].
Qed.

Lemma served_incl (matching : list cleanupDoc) fault d :
  In d (fst (served matching fault)) -> In d matching.
Proof.
  destruct fault as [[k e] |]; simpl; [| easy]. apply In_firstn.
Qed.

(** An error that a pass returns is the failure of the removal of a task
    whose kind is known, or the failure of the cursor. *)
Lemma pass_error (s : HS W) e :
  fst (run exec (Cleanup modelUUID docID fuel) s) = Returned (Some e) ->
  (exists doc e0,
      In (Kind doc) cleanupKind.all
      /\ e = Annotated e0 "cannot remove empty cleanup document"
      /\ In (Called (removal doc) (Some e0))
            (trace (snd (run exec (Cleanup modelUUID docID fuel) s))))
  \/ (exists e0 n k,
      e = Annotated e0 "reading cleanup document"
      /\ In (Called (IterOutcome n) (Some (k, e0)))
            (trace (snd (run exec (Cleanup modelUUID docID fuel) s)))).
Proof.
  rewrite run_Cleanup.
  destruct (called exec s Now) as [now s1]. cbv zeta.
  set (matching := filter (dueQuery now) (cleanups s1)).
  pose proof (called_trace exec (IterOutcome (length matching)) s1) as Ht2.
  destruct (called exec s1 (IterOutcome (length matching))) as [fault s2].
  simpl in Ht2.
  pose proof (loop_returns (fst (served matching fault)) s2) as Hret.
  pose proof (fun ev => event_stays (forEach (fst (served matching fault))
                                             (cleanupOne modelUUID docID fuel)) s2 ev)
    as Hstay.
  destruct (run exec (forEach (fst (served matching fault))
                              (cleanupOne modelUUID docID fuel)) s2) as [r s3].
  simpl in Hret, Hstay.
  destruct r as [[err |] |].
  - destruct (Hret _ eq_refl) as [Hf | [doc [e0 [Hin [Hk [Heq Hev]]]]]];
      [discriminate |].
    inversion Heq; subst err.
    pose proof (run_closeIter (snd (served matching fault))
                  (Some (Annotated e0 "cannot remove empty cleanup document"))
                  "reading cleanup document" s3) as [_ Hclose].
    pose proof (event_stays (closeIter (snd (served matching fault))
                  (Some (Annotated e0 "cannot remove empty cleanup document"))
                  "reading cleanup document") s3 _ Hev) as Hev'.
    destruct (run exec (closeIter _ _ _) s3) as [err' s4]. simpl in *.
    intros H. inversion H; subst err'. left. exists doc, e0.
    destruct Hclose as [Hc | [Hc _]]; [| discriminate].
    inversion Hc; subst. repeat split; assumption.
  - simpl. discriminate.
  - pose proof (run_closeIter (snd (served matching fault)) None
                  "reading cleanup document" s3) as [_ Hclose].
    pose proof (fun ev => event_stays (closeIter (snd (served matching fault)) None
                  "reading cleanup document") s3 ev) as Hstay'.
    destruct (run exec (closeIter _ _ _) s3) as [err' s4]. simpl in *.
    intros H. inversion H; subst err'.
    destruct Hclose as [Hc | [_ [e0 [Hc Herr]]]]; [discriminate |].
    inversion Herr; subst e. right.
    destruct fault as [[k e1] |]; simpl in Hc; [| discriminate].
    inversion Hc; subst e1. exists e0, (length matching), k. split; [reflexivity |].
    apply Hstay', Hstay. rewrite Ht2. apply in_or_app. right. now left.
Qed.

(** A document leaves the collection during the loop only through a removal
    that the store committed. *)
Lemma loop_removes docs (s : HS W) d :
  In d (cleanups s) ->
  In d (cleanups (snd (run exec (forEach docs (cleanupOne modelUUID docID fuel)) s)))
  \/ exists doc,
      In doc docs /\ DocID doc = DocID d
      /\ In (Called (removal doc) None)
            (trace (snd (run exec (forEach docs (cleanupOne modelUUID docID fuel)) s))).
Proof.
  revert s. induction docs as [| doc docs IH]; intros s Hin; [now left |].
  rewrite run_forEach_cons.
  assert (Hturn :
    In d (cleanups (snd (run exec (cleanupOne modelUUID docID fuel doc) s)))
    \/ DocID doc = DocID d
       /\ In (Called (removal doc) None)
             (trace (snd (run exec (cleanupOne modelUUID docID fuel doc) s)))).
  { rewrite run_cleanupOne. cbv zeta.
    pose proof (handler_keeps doc (Args doc)
                  (logged s Debug "model %v cleanup: %v(%q)"
                     [V (substring 0 6 modelUUID); V (Kind doc); V (Prefix doc)]) d Hin)
      as Hk.
    destruct (run exec (runCleanup docID fuel doc (Args doc)) _) as [[[e |] |] s1];
      simpl in *; try (left; exact Hk).
    pose proof (called_removal doc s1) as Hr.
    destruct (called exec s1 (removal doc)) as [v s2].
    destruct Hr as [Ht [_ Hr]].
    destruct v as [e0 |]; simpl.
    - left. apply Hr; [exact Hk | left; discriminate].
    - destruct (string_dec (DocID d) (DocID doc)) as [Heq | Hne].
      + right. split; [now symmetry |]. rewrite Ht. apply in_or_app. right. now left.
      + left. apply Hr; [exact Hk | now right]. }
  pose proof (fun ev => event_stays (forEach docs (cleanupOne modelUUID docID fuel))
                          (snd (run exec (cleanupOne modelUUID docID fuel doc) s)) ev)
    as Hstay.
  destruct (run exec (cleanupOne modelUUID docID fuel doc) s) as [[v |] s1]; simpl in *.
  - destruct Hturn as [Hk | [Heq Hev]]; [now left |].
    right. exists doc. split; [now left |]. split; assumption.
  - destruct Hturn as [Hk | [Heq Hev]].
    + destruct (IH s1 Hk) as [Hk' | [doc' [Hin' [Heq' Hev']]]]; [now left |].
      right. exists doc'. split; [now right |]. split; assumption.
    + right. exists doc. split; [now left |]. split; [exact Heq |]. now apply Hstay.
Qed.

Lemma called_Now_cleanups (s : HS W) :
  cleanups (snd (called exec s Now)) = cleanups s.
Proof. unfold called. destruct (exec Now (world s)) as [[r w] enq]. reflexivity. Qed.

Lemma called_IterOutcome_cleanups n (s : HS W) :
  cleanups (snd (called exec s (IterOutcome n))) = cleanups s.
Proof.
  unfold called. destruct (exec (IterOutcome n) (world s)) as [[r w] enq]. reflexivity.
Qed.

(** A pass keeps the tasks that are not due, and those of an unknown kind. *)
Lemma pass_keeps (s : HS W) d :
  uniqueIds (cleanups s) -> In d (cleanups s) ->
  dueQuery (fst (called exec s Now)) d = false \/ ~ In (Kind d) cleanupKind.all ->
  In d (cleanups (snd (run exec (Cleanup modelUUID docID fuel) s))).
Proof.
  intros Hu Hin Hor. rewrite run_Cleanup.
  pose proof (called_Now_cleanups s) as Hc1.
  destruct (called exec s Now) as [now s1]. cbv zeta. simpl in Hc1, Hor.
  set (matching := filter (dueQuery now) (cleanups s1)).
  pose proof (called_IterOutcome_cleanups (length matching) s1) as Hc2.
  destruct (called exec s1 (IterOutcome (length matching))) as [fault s2].
  simpl in Hc2.
  assert (Hk : In d (cleanups (snd (run exec (forEach (fst (served matching fault))
                                       (cleanupOne modelUUID docID fuel)) s2)))).
  { apply loop_keeps; [| rewrite Hc2, Hc1; exact Hin].
    intros doc Hdoc. apply served_incl in Hdoc. apply filter_In in Hdoc.
    destruct Hdoc as [Hdoc Hdue]. rewrite Hc1 in Hdoc.
    destruct (string_dec (DocID doc) (DocID d)) as [Heq | Hne]; [| now left].
    assert (doc = d) by (eapply unique_same_id; eassumption). subst doc.
    destruct Hor as [Hnot | Hunknown]; [congruence | now right]. }
  destruct (run exec (forEach (fst (served matching fault))
                              (cleanupOne modelUUID docID fuel)) s2) as [r s3].
  simpl in Hk.
  destruct r as [[err |] |]; [| exact Hk |].
  - pose proof (run_closeIter (snd (served matching fault)) err
                  "reading cleanup document" s3) as [Hc _].
    destruct (run exec (closeIter _ _ _) s3) as [err' s4]. simpl in *. now rewrite Hc.
  - pose proof (run_closeIter (snd (served matching fault)) None
                  "reading cleanup document" s3) as [Hc _].
    destruct (run exec (closeIter _ _ _) s3) as [err' s4]. simpl in *. now rewrite Hc.
Qed.

(** C5: a task of a kind that is not one of the cleanup kinds gets a per-task
    error "unknown cleanup kind": its turn logs the error as a warning,
    changes neither the world nor the cleanups collection, returns nothing to
    the caller of Cleanup, and the loop goes on with the remaining tasks; the
    document is still in the collection at the end of the pass, and an error
    that a pass returns never comes from such a task. *)
Theorem C5_unknown_kind_is_skipped (doc : cleanupDoc) :
  ~ In (Kind doc) cleanupKind.all ->
  let err := Some (Errorf "unknown cleanup kind %q" [Kind doc]) in
  let after (s : HS W) :=
    logged (logged s Debug "model %v cleanup: %v(%q)"
                     [V (substring 0 6 modelUUID); V (Kind doc); V (Prefix doc)])
           Warning "cleanup failed in model %v for %v(%q): %v"
           [V modelUUID; V (Kind doc); V (Prefix doc); E err] in
  (forall s, run exec (cleanupOne modelUUID docID fuel doc) s = (None, after s))
  /\ (forall rest s,
        run exec (forEach (doc :: rest) (cleanupOne modelUUID docID fuel)) s
        = run exec (forEach rest (cleanupOne modelUUID docID fuel)) (after s))
  /\ (forall s, uniqueIds (cleanups s) -> In doc (cleanups s) ->
        In doc (cleanups (snd (run exec (Cleanup modelUUID docID fuel) s))))
  /\ (forall s e,
        fst (run exec (Cleanup modelUUID docID fuel) s) = Returned (Some e) ->
        (exists doc' e0, In (Kind doc') cleanupKind.all
                         /\ e = Annotated e0 "cannot remove empty cleanup document")
        \/ (exists e0, e = Annotated e0 "reading cleanup document")).
Proof.
  intros Hunknown err after.
  assert (Hturn : forall s, run exec (cleanupOne modelUUID docID fuel doc) s
                            = (None, after s)).
  { intros s. rewrite run_cleanupOne. cbv zeta.
    rewrite (unknown_kind docID fuel doc (Args doc) Hunknown). reflexivity. }
  split; [exact Hturn |]. split; [| split].
  - intros rest s. rewrite run_forEach_cons, Hturn. reflexivity.
  - intros s Hu Hin. apply pass_keeps; [exact Hu | exact Hin | now right].
  - intros s e He. destruct (pass_error s He) as [[doc' [e0 [Hk [Heq _]]]] | [e0 [n [k [Heq _]]]]].
    + left. now exists doc', e0.
    + right. now exists e0.
Qed.

End CleanupPass.

(** A task of kind "bogus" in a queue of four: the pass leaves it where it
    is. *)
Lemma C5_unknown_kind_is_skipped_witness :
  In Toy.bogusDoc
     (cleanups (snd (run Toy.exec (Cleanup Toy.modelUUID (fun p => p) 3)
                         (Toy.start Toy.world0 Toy.queue)))).
Proof.
  assert (Hunknown : ~ In (Kind Toy.bogusDoc) cleanupKind.all).
  { vm_compute. intuition discriminate. }
  apply (proj1 (proj2 (proj2
           (C5_unknown_kind_is_skipped Toy.exec Toy.modelUUID (fun p => p) 3
              Toy.bogusDoc Hunknown)))).
  - unfold uniqueIds. vm_compute.
    repeat (constructor; [simpl; intuition discriminate |]). constructor.
  - vm_compute. tauto.
Defined.

Section CleanupTurn.

Variable W : Type.
Variable exec : forall R : Type, Op R -> W -> R * W * list cleanupDoc.
Variable modelUUID : string.
Variable docID : string -> string.
Variable fuel : nat.

(** A document leaves the collection during a pass only through a removal
    that the store committed. *)
Lemma pass_removes (s : HS W) d :
  In d (cleanups s) ->
  In d (cleanups (snd (run exec (Cleanup modelUUID docID fuel) s)))
  \/ exists doc,
      DocID doc = DocID d
      /\ In (Called (removal doc) None)
            (trace (snd (run exec (Cleanup modelUUID docID fuel) s))).
Proof.
  intros Hin. rewrite run_Cleanup.
  pose proof (called_Now_cleanups exec s) as Hc1.
  destruct (called exec s Now) as [now s1]. cbv zeta. simpl in Hc1.
  set (matching := filter (dueQuery now) (cleanups s1)).
  pose proof (called_IterOutcome_cleanups exec (length matching) s1) as Hc2.
  destruct (called exec s1 (IterOutcome (length matching))) as [fault s2].
  simpl in Hc2.
  assert (Hin2 : In d (cleanups s2)) by (rewrite Hc2, Hc1; exact Hin).
  pose proof (loop_removes exec modelUUID docID fuel (fst (served matching fault)) s2 d Hin2)
    as Hloop.
  destruct (run exec (forEach (fst (served matching fault))
                              (cleanupOne modelUUID docID fuel)) s2) as [r s3].
  simpl in Hloop.
  assert (Hclose : forall err,
    In d (cleanups (snd (run exec (closeIter (snd (served matching fault)) err
                                             "reading cleanup document") s3)))
    \/ exists doc,
        DocID doc = DocID d
        /\ In (Called (removal doc) None)
              (trace (snd (run exec (closeIter (snd (served matching fault)) err
                                               "reading cleanup document") s3)))).
  { intros err.
    destruct (run_closeIter exec (snd (served matching fault)) err
                "reading cleanup document" s3) as [Hc _].
    destruct Hloop as [Hk | [doc [_ [Heq Hev]]]].
    - left. now rewrite Hc.
    - right. exists doc. split; [exact Heq |]. now apply event_stays. }
  destruct r as [[err |] |].
  - specialize (Hclose err). destruct (run exec (closeIter _ _ _) s3). exact Hclose.
  - simpl. destruct Hloop as [Hk | [doc [_ [Heq Hev]]]]; [now left |].
    right. now exists doc.
  - specialize (Hclose None). destruct (run exec (closeIter _ _ _) s3). exact Hclose.
Qed.

(** C1: in the turn of a task [doc], from any state [s]: the removal of the
    task's document is attempted exactly when the handler returned nil, and
    the document of a task that was in the store is gone after the turn
    exactly when the handler returned nil and the store committed that
    removal.  When the handler returns an error, the turn logs it as a
    warning, changes nothing else, leaves the document in the store and
    returns nothing, and the loop goes on with the next task.  When the
    handler returns nil, the removal transaction is the last event of the
    turn; if the store refuses it, Cleanup returns that failure.  Over a
    whole pass: an error that Cleanup returns is the failure of such a
    removal or the failure of the cursor, and a document that was in the
    store at the start is still there at the end unless the store committed
    its removal. *)
Theorem C1_deleted_iff_handler_succeeded (doc : cleanupDoc) (s : HS W) :
  let s0 := logged s Debug "model %v cleanup: %v(%q)"
                   [V (substring 0 6 modelUUID); V (Kind doc); V (Prefix doc)] in
  let handled := run exec (runCleanup docID fuel doc (Args doc)) s0 in
  let verdict := fst (called exec (snd handled) (removal doc)) in
  let turn := run exec (cleanupOne modelUUID docID fuel doc) s in
  (In doc (cleanups s) ->
     (hasId (DocID doc) (cleanups (snd turn)) = false
      <-> fst handled = Returned None /\ verdict = None))
  /\ (forall e, fst handled = Returned (Some e) ->
        fst turn = None
        /\ snd turn = logged (snd handled) Warning
                             "cleanup failed in model %v for %v(%q): %v"
                             [V modelUUID; V (Kind doc); V (Prefix doc); E (Some e)]
        /\ (In doc (cleanups s) -> In doc (cleanups (snd turn)))
        /\ forall rest,
             run exec (forEach (doc :: rest) (cleanupOne modelUUID docID fuel)) s
             = run exec (forEach rest (cleanupOne modelUUID docID fuel)) (snd turn))
  /\ (fst handled = Returned None ->
        trace (snd turn) = trace (snd handled) ++ [Called (removal doc) verdict]
        /\ match verdict with
           | None => fst turn = None
           | Some e0 =>
               fst turn
               = Some (Returned (Some (Annotated e0 "cannot remove empty cleanup document")))
           end)
  /\ (forall s' e,
        fst (run exec (Cleanup modelUUID docID fuel) s') = Returned (Some e) ->
        (exists doc' e0,
            e = Annotated e0 "cannot remove empty cleanup document"
            /\ In (Called (removal doc') (Some e0))
                  (trace (snd (run exec (Cleanup modelUUID docID fuel) s'))))
        \/ (exists e0 n k,
            e = Annotated e0 "reading cleanup document"
            /\ In (Called (IterOutcome n) (Some (k, e0)))
                  (trace (snd (run exec (Cleanup modelUUID docID fuel) s')))))
  /\ (forall s' d,
        In d (cleanups s') ->
        In d (cleanups (snd (run exec (Cleanup modelUUID docID fuel) s')))
        \/ exists doc',
            DocID doc' = DocID d
            /\ In (Called (removal doc') None)
                  (trace (snd (run exec (Cleanup modelUUID docID fuel) s')))).
Proof.
  cbv zeta.
  pose proof (handler_keeps exec docID fuel doc (Args doc)
                (logged s Debug "model %v cleanup: %v(%q)"
                   [V (substring 0 6 modelUUID); V (Kind doc); V (Prefix doc)]) doc)
    as Hkeep.
  pose proof (fun rest => run_forEach_cons exec doc rest
                            (cleanupOne modelUUID docID fuel) s) as Hloop.
  rewrite run_cleanupOne in *. cbv zeta in *.
  destruct (run exec (runCleanup docID fuel doc (Args doc)) _) as [[[e |] |] s1];
    cbn [fst snd] in Hkeep, Hloop |- *.
  - (* the handler returned an error *)
    split; [| split; [| split; [| split]]].
    + intros Hin. cbn [cleanups logged]. rewrite (hasId_In _ _ (Hkeep Hin)).
      split; [discriminate |].
      intros [H _]. discriminate H.
    + intros e' He'. inversion He'; subst e'. repeat split.
      * exact Hkeep.
      * intros rest. rewrite Hloop. reflexivity.
    + discriminate.
    + intros s' e' He'.
      destruct (pass_error exec modelUUID docID fuel s' He')
        as [[doc' [e0 [_ [Heq Hev]]]] | Hcur]; [left; now exists doc', e0 | now right].
    + apply pass_removes.
  - (* the handler returned nil *)
    pose proof (called_removal exec doc s1) as Hr.
    destruct (called exec s1 (removal doc)) as [v s2]. destruct Hr as [Ht [Hgone Hstay]].
    split; [| split; [| split; [| split]]].
    + intros Hin. destruct v as [e0 |]; simpl.
      * assert (Hne : Some e0 <> None) by discriminate.
        rewrite (hasId_In _ _ (Hstay doc (Hkeep Hin) (or_introl Hne))).
        split; [discriminate |]. intros [_ H]. discriminate H.
      * rewrite (Hgone eq_refl). split; [easy |]. reflexivity.
    + discriminate.
    + intros _. destruct v as [e0 |]; simpl; split; try exact Ht; reflexivity.
    + intros s' e' He'.
      destruct (pass_error exec modelUUID docID fuel s' He')
        as [[doc' [e0 [_ [Heq Hev]]]] | Hcur]; [left; now exists doc', e0 | now right].
    + apply pass_removes.
  - (* the recursion ran out of fuel *)
    split; [| split; [| split; [| split]]].
    + intros Hin. rewrite (hasId_In _ _ (Hkeep Hin)). split; [discriminate |].
      intros [H _]. discriminate H.
    + discriminate.
    + discriminate.
    + intros s' e' He'.
      destruct (pass_error exec modelUUID docID fuel s' He')
        as [[doc' [e0 [_ [Heq Hev]]]] | Hcur]; [left; now exists doc', e0 | now right].
    + apply pass_removes.
Qed.

End CleanupTurn.

(** The task of myapp/0 in the queue of four: its handler succeeds and the
    store commits the removal, so the document is gone after its turn. *)
Lemma C1_deleted_iff_handler_succeeded_witness :
  hasId "a1" (cleanups (snd (run Toy.exec (cleanupOne Toy.modelUUID (fun p => p) 3 Toy.dueDoc)
                                 (Toy.start Toy.world0 Toy.queue)))) = false.
Proof.
  apply (proj1 (C1_deleted_iff_handler_succeeded Toy.exec Toy.modelUUID (fun p => p) 3
                  Toy.dueDoc (Toy.start Toy.world0 Toy.queue))).
  - vm_compute. tauto.
  - vm_compute. split; reflexivity.
Defined.

Section DueTasks.

Variable W : Type.
Variable exec : forall R : Type, Op R -> W -> R * W * list cleanupDoc.
Variable modelUUID : string.
Variable docID : string -> string.
Variable fuel : nat.

Lemma closeIter_nil iterClose message (s : HS W) :
  fst (run exec (closeIter iterClose None message) s) = None -> iterClose = None.
Proof. unfold closeIter. destruct iterClose; simpl; [discriminate | reflexivity]. Qed.


End DueTasks.


(** ** The unit handlers *)

Lemma pick_app {X : Type} (f : Event -> option X) (a b : list Event) :
  pick f (a ++ b) = pick f a ++ pick f b.
Proof.
  induction a as [| e a IH]; simpl; [reflexivity |].
  destruct (f e); simpl; now rewrite IH.
Qed.

Lemma pick_none {X : Type} (f : Event -> option X)
    (P : forall R : Type, Op R -> Prop) (evs : list Event) :
  (forall e, satisfies P e -> f e = None) ->
  Forall (satisfies P) evs -> pick f evs = [].
Proof.
  intros Hf. induction 1 as [| e evs He _ IH]; simpl; [reflexivity |].
  now rewrite (Hf e He).
Qed.

Lemma since_app {W : Type} (s s' : HS W) evs :
  trace s' = trace s ++ evs -> since s s' = evs.
Proof.
  intros H. unfold since. rewrite H.
  rewrite skipn_app, Nat.sub_diag, skipn_all. reflexivity.
Qed.

Lemma hasId_insertDoc id doc docs : hasId id (insertDoc id doc docs) = true.
Proof.
  unfold insertDoc. destruct (hasId id docs) eqn:H; [exact H |].
  unfold hasId. rewrite existsb_app. simpl. rewrite String.eqb_refl.
  now rewrite orb_true_r.
Qed.

(** Two spellings of one list of events. *)
Ltac same_events :=
  repeat first [ rewrite <- app_assoc | rewrite <- app_comm_cons | rewrite app_nil_l
               | rewrite app_nil_r ];
  reflexivity.

(** Reading the calls of one kind out of events that are of other kinds. *)
Ltac not_picked :=
  let e := fresh "e" in
  intros e; destruct e as [? o ? | ? ? ?]; [destruct o | idtac];
  simpl; solve [reflexivity | contradiction | intros; reflexivity].

Section UnitHandlers.

Variable W : Type.
Variable exec : forall R : Type, Op R -> W -> R * W * list cleanupDoc.

Lemma run_quiet (P : forall R : Type, Op R -> Prop) {A : Type} (p : Prog A) (s : HS W) :
  Footprint anyAnswer P p ->
  exists evs, trace (snd (run exec p s)) = trace s ++ evs /\ Forall (satisfies P) evs.
Proof.
  intros Hp. apply (@footprint_trace W exec anyAnswer); [intros; exact I | exact Hp].
Qed.

(** A step of a sequence whose calls are all in [P]. *)
Lemma step_quiet (P : forall R : Type, Op R -> Prop) {A B : Type}
    (p : Prog A) (f : A -> Prog B) (s : HS W) :
  Footprint anyAnswer P p ->
  exists a s1 evs,
    run exec p s = (a, s1)
    /\ trace s1 = trace s ++ evs /\ Forall (satisfies P) evs
    /\ run exec (bind p f) s = run exec (f a) s1.
Proof.
  intros Hp. destruct (run_quiet s Hp) as [evs [Ht Hall]].
  rewrite run_bind. destruct (run exec p s) as [a s1]. simpl in Ht.
  exists a, s1, evs. repeat split; assumption.
Qed.

Lemma forEach_none {X R : Type} (xs : list X) (body : X -> Prog (option R)) (s : HS W) :
  (forall x s0, fst (run exec (body x) s0) = None) ->
  fst (run exec (forEach xs body) s) = None.
Proof.
  intros Hbody. revert s. induction xs as [| x xs IH]; intros s; [reflexivity |].
  rewrite run_forEach_cons. specialize (Hbody x s).
  destruct (run exec (body x) s) as [[v |] s1]; simpl in *; [discriminate | apply IH].
Qed.

(** [scheduleForceCleanup], step by step: the clock, a fresh id, the insert;
    the document is in the collection when the store commits, and a refusal
    is logged and changes nothing. *)
Lemma run_scheduleForceCleanup kind name (s : HS W) :
  exists now id verdict,
    let s' := snd (run exec (scheduleForceCleanup kind name) s) in
    trace s'
    = trace s ++ [Called Now now; Called NewObjectId id;
                  Called (RunTransaction [OpInsert cleanupsC id (backstop kind name now id)])
                         verdict]
              ++ match verdict with
                 | None => []
                 | Some _ => [Logged Warning "couldn't schedule %s cleanup: %v"
                                     [V kind; E verdict]]
                 end
    /\ cleanups s'
       = match verdict with
         | None => insertDoc id (backstop kind name now id) (cleanups s)
         | Some _ => cleanups s
         end.
Proof.
  unfold scheduleForceCleanup, newCleanupAtOp, dbRun. cbn [bind call logf]. cbn [run].
  unfold called. destruct (exec Now (world s)) as [[now w1] enq1]. cbn.
  destruct (exec NewObjectId w1) as [[id w2] enq2]. cbn.
  destruct (exec (RunTransaction _) w2) as [[verdict w3] enq3].
  exists now, id, verdict. destruct verdict as [e |]; cbn; rewrite <- !app_assoc;
    split; reflexivity.
Qed.

(** Destroying the subordinates never ends the handler. *)
Lemma destroy_subordinates_goes_on (subs : list string) (s : HS W) :
  fst (run exec
         (forEach subs (fun subName =>
            '(subUnit, err) <- call (StUnit subName) ;;
            if IsNotFound err then Ret None
            else
              (if negb (isNil err) then
                 logf Warning "couldn't get subordinate %q to force destroy: %v"
                      [V subName; E err]
               else Ret tt) ;;
              '(opErrs, err) <- call (UnitDestroyWithForce subUnit true) ;;
              if negb (Nat.eqb (length opErrs) 0) || negb (isNil err) then
                logf Warning "errors while destroying subordinate %q: %v, %v"
                     [V subName; E err; Es opErrs] ;;
                Ret (@None (option error))
              else Ret None)) s) = None.
Proof.
  apply forEach_none. intros x s0. cbn [bind call logf]. cbn [run].
  destruct (called exec s0 (StUnit x)) as [[subUnit err] s1].
  destruct (IsNotFound err); [reflexivity |].
  destruct (negb (isNil err)); unfold logf; cbn [bind run];
    match goal with
    | |- context [called exec ?st (UnitDestroyWithForce subUnit true)] =>
        destruct (called exec st (UnitDestroyWithForce subUnit true)) as [[opErrs err'] s2]
    end;
    destruct (negb (Nat.eqb (length opErrs) 0) || negb (isNil err')); reflexivity.
Qed.

(** A run of [cleanupForceDestroyedUnit] on an existing unit, read from its
    trace. *)
Lemma force_destroyed_unit_run unitId (s : HS W) u :
  fst (called exec s (StUnit unitId)) = (u, None) ->
  let r := run exec (cleanupForceDestroyedUnit unitId) s in
  let evs := since s (snd r) in
  exists dead,
    pick asEnsureDead evs = [(u, dead)]
    /\ fst r = (if isErrUnitHasSubordinates dead || isErrUnitHasStorageAttachments dead
                then dead else None)
    /\ if isErrUnitHasSubordinates dead || isErrUnitHasStorageAttachments dead
       then pick asTransaction evs = []
       else exists now id verdict,
           pick asClockRead evs = [now]
           /\ pick asTransaction evs
              = [([OpInsert cleanupsC id
                     (backstop cleanupKind.cleanupForceRemoveUnit unitId now id)],
                  verdict)]
           /\ (verdict = None -> hasId id (cleanups (snd r)) = true)
           /\ (verdict <> None ->
               In ("couldn't schedule %s cleanup: %v",
                   [V cleanupKind.cleanupForceRemoveUnit; E verdict])
                  (pick asWarning evs)).
Proof.
  intros Hlook. cbv zeta. unfold cleanupForceDestroyedUnit. cbn [bind call].
  cbn [run]. pose proof (called_trace exec (StUnit unitId) s) as Ht0.
  destruct (called exec s (StUnit unitId)) as [[u' e'] s1]. simpl in Hlook, Ht0.
  inversion Hlook; subst u' e'. cbn [IsNotFound isNil negb].
  (* the subordinates *)
  rewrite run_orElse.
  match goal with
  | |- context [run exec (forEach (SubordinateNames u) ?body) s1] =>
      pose proof (destroy_subordinates_goes_on (SubordinateNames u) s1
                  : fst (run exec (forEach (SubordinateNames u) body) s1) = None)
        as Hnone;
      assert (Hfp : Footprint anyAnswer beforeDead (forEach (SubordinateNames u) body))
        by footprint;
      destruct (run_quiet s1 Hfp) as [evs1 [Ht1 Hall1]];
      destruct (run exec (forEach (SubordinateNames u) body) s1) as [r1 s2]
  end.
  simpl in Hnone, Ht1. subst r1. clear Hfp.
  (* the relations, the storage *)
  cbn [run]. pose proof (called_trace exec (RelationsInScope u) s2) as Ht2.
  destruct (called exec s2 (RelationsInScope u)) as [[rels err2] s3]. simpl in Ht2.
  set (evs2 := [Called (RelationsInScope u) (rels, err2)]) in Ht2.
  assert (Hall2 : Forall (satisfies beforeDead) evs2) by (repeat constructor).
  clearbody evs2.
  match goal with
  | |- context [run exec (bind ?p ?f) s3] =>
      assert (Hfp : Footprint anyAnswer beforeDead p) by footprint;
      destruct (step_quiet f s3 Hfp) as [x3 [s4 [evs3 [_ [Ht3 [Hall3 Heq]]]]]];
      rewrite Heq; clear Heq Hfp
  end.
  match goal with
  | |- context [run exec (bind ?p ?f) s4] =>
      assert (Hfp : Footprint anyAnswer beforeDead p)
        by (unfold forceRemoveUnitStorageAttachments; footprint);
      destruct (step_quiet f s4 Hfp) as [err4 [s5 [evs4 [_ [Ht4 [Hall4 Heq]]]]]];
      rewrite Heq; clear Heq Hfp
  end.
  match goal with
  | |- context [run exec (bind ?p ?f) s5] =>
      assert (Hfp : Footprint anyAnswer beforeDead p) by footprint;
      destruct (step_quiet f s5 Hfp) as [x5 [s6 [evs5 [_ [Ht5 [Hall5 Heq]]]]]];
      rewrite Heq; clear Heq Hfp
  end.
  (* EnsureDead *)
  cbn [bind call run].
  pose proof (called_trace exec (UnitEnsureDead u) s6) as Ht6.
  destruct (called exec s6 (UnitEnsureDead u)) as [dead s7]. simpl in Ht6.
  exists dead.
  assert (Hpre : trace s7 = trace s ++ (Called (StUnit unitId) (u, None)
                   :: evs1 ++ evs2 ++ evs3 ++ evs4 ++ evs5)
                   ++ [Called (UnitEnsureDead u) dead]).
  { rewrite Ht6, Ht5, Ht4, Ht3, Ht2, Ht1, Ht0. same_events. }
  assert (Hquiet : Forall (satisfies beforeDead)
                     (Called (StUnit unitId) (u, None)
                        :: evs1 ++ evs2 ++ evs3 ++ evs4 ++ evs5)).
  { constructor; [exact I |]. repeat (apply Forall_app; split); assumption. }
  assert (HnoDead : pick asEnsureDead (Called (StUnit unitId) (u, None)
                        :: evs1 ++ evs2 ++ evs3 ++ evs4 ++ evs5) = []).
  { apply (@pick_none _ asEnsureDead beforeDead); [not_picked | exact Hquiet]. }
  assert (HnoTxn : pick asTransaction (Called (StUnit unitId) (u, None)
                        :: evs1 ++ evs2 ++ evs3 ++ evs4 ++ evs5) = []).
  { apply (@pick_none _ asTransaction beforeDead); [not_picked | exact Hquiet]. }
  assert (HnoClock : pick asClockRead (Called (StUnit unitId) (u, None)
                        :: evs1 ++ evs2 ++ evs3 ++ evs4 ++ evs5) = []).
  { apply (@pick_none _ asClockRead beforeDead); [not_picked | exact Hquiet]. }
  destruct (isErrUnitHasSubordinates dead || isErrUnitHasStorageAttachments dead).
  - (* try again later *)
    cbn [run fst snd]. rewrite (since_app s s7 _ Hpre), !pick_app, HnoDead, HnoTxn.
    repeat split.
  - (* the backstop *)
    rewrite run_bind.
    assert (Hlog : exists evs6 s8,
               run exec (if negb (isNil dead)
                         then logf Warning "couldn't set unit %q dead: %v" [V unitId; E dead]
                         else Ret tt) s7 = (tt, s8)
               /\ trace s8 = trace s7 ++ evs6 /\ cleanups s8 = cleanups s7
               /\ pick asEnsureDead evs6 = [] /\ pick asTransaction evs6 = []
               /\ pick asClockRead evs6 = []).
    { destruct (negb (isNil dead)); cbn.
      - eexists [_], _. repeat split.
      - exists [], s7. rewrite app_nil_r. repeat split. }
    destruct Hlog as [evs6 [s8 [Hrun [Ht7 [Hc7 [Hd6 [Hx6 Hk6]]]]]]]. rewrite Hrun.
    rewrite run_bind.
    destruct (run_scheduleForceCleanup cleanupKind.cleanupForceRemoveUnit unitId s8)
      as [now [id [verdict [Ht8 Hc8]]]].
    destruct (run exec (scheduleForceCleanup cleanupKind.cleanupForceRemoveUnit unitId) s8)
      as [[] s9].
    cbn [run fst snd] in *.
    assert (Hall : trace s9 = trace s ++
              ((Called (StUnit unitId) (u, None) :: evs1 ++ evs2 ++ evs3 ++ evs4 ++ evs5)
               ++ [Called (UnitEnsureDead u) dead] ++ evs6
               ++ [Called Now now; Called NewObjectId id;
                   Called (RunTransaction
                             [OpInsert cleanupsC id
                                (backstop cleanupKind.cleanupForceRemoveUnit unitId now id)])
                          verdict]
               ++ match verdict with
                  | None => []
                  | Some _ => [Logged Warning "couldn't schedule %s cleanup: %v"
                                      [V cleanupKind.cleanupForceRemoveUnit; E verdict]]
                  end)).
    { rewrite Ht8, Ht7, Hpre. same_events. }
    rewrite (since_app s s9 _ Hall), !pick_app, HnoDead, HnoTxn, HnoClock, Hd6, Hx6, Hk6.
    split; [destruct verdict; reflexivity |]. split; [reflexivity |].
    exists now, id, verdict. split; [destruct verdict; reflexivity |].
    split; [destruct verdict; reflexivity |].
    split; [intros ->; rewrite Hc8; apply hasId_insertDoc |].
    intros Hv. destruct verdict as [e |]; [| now destruct Hv].
    do 4 (apply in_or_app; right). simpl. now left.
Qed.


End UnitHandlers.


Section DyingUnit.

Variable W : Type.
Variable exec : forall R : Type, Op R -> W -> R * W * list cleanupDoc.

Lemma forEach_result {X R : Type} (xs : list X) (body : X -> Prog (option R))
    (s : HS W) v :
  fst (run exec (forEach xs body) s) = Some v ->
  exists x s0, In x xs /\ fst (run exec (body x) s0) = Some v.
Proof.
  revert s. induction xs as [| x xs IH]; intros s; [discriminate |].
  rewrite run_forEach_cons.
  destruct (run exec (body x) s) as [[v1 |] s1] eqn:Hx; simpl.
  - intros H. inversion H; subst v1. exists x, s. split; [now left |].
    now rewrite Hx.
  - intros H. destruct (IH s1 H) as [y [s0 [Hy Hv]]]. exists y, s0.
    split; [now right | exact Hv].
Qed.

(** A step that may return from the function: either it returns, with a
    value of which [C] holds, or the rest of the function runs from the
    state it left. *)
Lemma run_guard (P : forall R : Type, Op R -> Prop) {R : Type} (C : R -> Prop)
    (guard : Prog (option R)) (rest : Prog R) (s : HS W) :
  Footprint anyAnswer P guard ->
  (forall s0 v, fst (run exec guard s0) = Some v -> C v) ->
  exists evs s',
    Forall (satisfies P) evs /\ trace s' = trace s ++ evs
    /\ s' = snd (run exec guard s)
    /\ (run exec (orElse guard rest) s = run exec rest s'
        \/ exists v, C v /\ run exec (orElse guard rest) s = (v, s')).
Proof.
  intros Hfp HC. destruct (run_quiet exec s Hfp) as [evs [Ht Hall]].
  specialize (HC s). rewrite run_orElse.
  destruct (run exec guard s) as [[v |] s']; simpl in *; exists evs, s'.
  - split; [exact Hall |]. split; [exact Ht |]. split; [reflexivity |].
    right. exists v. split; [| reflexivity]. now apply HC.
  - split; [exact Hall |]. split; [exact Ht |]. split; [reflexivity |]. now left.
Qed.

(** On success every attachment got its call, in order; a loop that returns
    from the function returns the error that its last call answered. *)
Lemma destroy_instances_loop (attachments : list StorageAttachment) (force : bool)
    (s : HS W) :
  exists evs,
    trace (snd (run exec (forEach attachments (destroyInstance force)) s)) = trace s ++ evs
    /\ Forall (satisfies instanceCall) evs
    /\ pick asAttachments evs = []
    /\ (fst (run exec (forEach attachments (destroyInstance force)) s) = None ->
        pick asDestroyInstance evs
        = map (fun a => (StorageInstance a, true, force)) attachments)
    /\ (forall v, fst (run exec (forEach attachments (destroyInstance force)) s) = Some v ->
        exists e, v = Some e /\ In e (pick asStorageError evs)).
Proof.
  revert s. induction attachments as [| a attachments IH]; intros s.
  - exists []. simpl. rewrite app_nil_r. repeat split; [constructor | discriminate].
  - rewrite run_forEach_cons.
    assert (Hbody : run exec (destroyInstance force a) s
                    = let '(err, s1) :=
                        called exec s (DestroyStorageInstance (StorageInstance a) true force)
                      in ((if IsNotFound err then None
                           else if negb (isNil err) then Some err else None), s1)).
    { unfold destroyInstance. cbn [bind call run].
      destruct (called exec s (DestroyStorageInstance (StorageInstance a) true force))
        as [err s1].
      destruct (IsNotFound err); [reflexivity |]. now destruct (negb (isNil err)). }
    rewrite Hbody. clear Hbody.
    pose proof (called_trace exec (DestroyStorageInstance (StorageInstance a) true force) s)
      as Ht.
    destruct (called exec s (DestroyStorageInstance (StorageInstance a) true force))
      as [err s1]. simpl in Ht.
    assert (Hgo : exists evs,
        trace (snd (run exec (forEach attachments (destroyInstance force)) s1))
        = trace s ++ evs
        /\ Forall (satisfies instanceCall) evs
        /\ pick asAttachments evs = []
        /\ (fst (run exec (forEach attachments (destroyInstance force)) s1) = None ->
            pick asDestroyInstance evs
            = map (fun a => (StorageInstance a, true, force)) (a :: attachments))
        /\ (forall v,
             fst (run exec (forEach attachments (destroyInstance force)) s1) = Some v ->
             exists e, v = Some e /\ In e (pick asStorageError evs))).
    { destruct (IH s1) as [evs [Hevs [Hall [Hatt [Hpick Hfail]]]]].
      exists ([Called (DestroyStorageInstance (StorageInstance a) true force) err] ++ evs).
      split; [rewrite Hevs, Ht; same_events |].
      split; [constructor; [exact I | exact Hall] |].
      split; [exact Hatt |].
      split; [intros Hnone; simpl; now rewrite (Hpick Hnone) |].
      intros v Hv. destruct (Hfail v Hv) as [e [He Hin]]. exists e.
      split; [exact He |]. rewrite pick_app. apply in_or_app. now right. }
    destruct (IsNotFound err); [exact Hgo |].
    destruct err as [e |]; cbn [isNil negb]; [| exact Hgo].
    cbn [run fst snd].
    exists [Called (DestroyStorageInstance (StorageInstance a) true force) (Some e)].
    split; [exact Ht |]. split; [repeat constructor |]. split; [reflexivity |].
    split; [discriminate |]. intros v Hv. inversion Hv. exists e.
    split; [reflexivity | now left].
Qed.

Lemma detach_loop (attachments : list StorageAttachment) (unitTag : string)
    (force : bool) (s : HS W) :
  exists evs,
    trace (snd (run exec (forEach attachments (detachOnly unitTag force)) s))
    = trace s ++ evs
    /\ Forall (satisfies detachCall) evs
    /\ pick asAttachments evs = []
    /\ (fst (run exec (forEach attachments (detachOnly unitTag force)) s) = None ->
        pick asDetach evs
        = map (fun a => (StorageInstance a, unitTag, force)) attachments)
    /\ (forall v,
         fst (run exec (forEach attachments (detachOnly unitTag force)) s) = Some v ->
         exists e, v = Some e /\ In e (pick asStorageError evs)).
Proof.
  revert s. induction attachments as [| a attachments IH]; intros s.
  - exists []. simpl. rewrite app_nil_r. repeat split; [constructor | discriminate].
  - rewrite run_forEach_cons.
    assert (Hbody : run exec (detachOnly unitTag force a) s
                    = let '(err, s1) :=
                        called exec s (DetachStorage (StorageInstance a) unitTag force) in
                      if IsNotFound err then (None, s1)
                      else
                        run exec
                          (step! (if negb (isNil err) then
                                    if negb force then Ret (Some err)
                                    else
                                      logf Warning
                                        "could not detach storage %v for unit %v: %v"
                                        [V (StorageInstance a); V unitTag; E err] ;;
                                      Ret None
                                  else Ret None) ;;
                           Ret None) s1).
    { unfold detachOnly. cbn [bind call run].
      destruct (called exec s (DetachStorage (StorageInstance a) unitTag force))
        as [err s1].
      now destruct (IsNotFound err). }
    rewrite Hbody. clear Hbody.
    pose proof (called_trace exec (DetachStorage (StorageInstance a) unitTag force) s) as Ht.
    destruct (called exec s (DetachStorage (StorageInstance a) unitTag force)) as [err s1].
    simpl in Ht.
    assert (Hgo : forall s2 logs, trace s2 = trace s1 ++ logs ->
              Forall (satisfies detachCall) logs ->
              pick asAttachments logs = [] -> pick asDetach logs = [] ->
      exists evs,
        trace (snd (run exec (forEach attachments (detachOnly unitTag force)) s2))
        = trace s ++ evs
        /\ Forall (satisfies detachCall) evs
        /\ pick asAttachments evs = []
        /\ (fst (run exec (forEach attachments (detachOnly unitTag force)) s2) = None ->
            pick asDetach evs
            = map (fun a => (StorageInstance a, unitTag, force)) (a :: attachments))
        /\ (forall v,
             fst (run exec (forEach attachments (detachOnly unitTag force)) s2) = Some v ->
             exists e, v = Some e /\ In e (pick asStorageError evs))).
    { intros s2 logs Hs2 Hlogs Hl1 Hl2.
      destruct (IH s2) as [evs [Hevs [Hall [Hatt [Hpick Hfail]]]]].
      exists (([Called (DetachStorage (StorageInstance a) unitTag force) err] ++ logs)
                ++ evs).
      split; [rewrite Hevs, Hs2, Ht; same_events |].
      split; [constructor; [exact I | apply Forall_app; split; assumption] |].
      split; [simpl; rewrite pick_app, Hl1, Hatt; reflexivity |].
      split; [intros Hnone; simpl; rewrite pick_app, Hl2, (Hpick Hnone); reflexivity |].
      intros v Hv. destruct (Hfail v Hv) as [e [He Hin]]. exists e.
      split; [exact He |]. rewrite pick_app. apply in_or_app. now right. }
    destruct (IsNotFound err).
    { apply (Hgo s1 []); [now rewrite app_nil_r | constructor | reflexivity | reflexivity]. }
    rewrite run_orNext.
    destruct err as [e |]; cbn [isNil negb]; [destruct force; cbn [negb] |];
      cbn [bind logf run fst snd].
    + apply (Hgo _ [Logged Warning "could not detach storage %v for unit %v: %v"
                          [V (StorageInstance a); V unitTag; E (Some e)]]);
        [reflexivity | repeat constructor | reflexivity | reflexivity].
    + exists [Called (DetachStorage (StorageInstance a) unitTag false) (Some e)].
      split; [exact Ht |]. split; [repeat constructor |]. split; [reflexivity |].
      split; [discriminate |]. intros v Hv. inversion Hv. exists e.
      split; [reflexivity | now left].
    + apply (Hgo s1 []); [now rewrite app_nil_r | constructor | reflexivity | reflexivity].
Qed.

(** The storage phase, when the storage goes with the unit. *)
Lemma storage_instances_phase (unitTag : string) (force : bool) (s : HS W) :
  exists evs,
    trace (snd (run exec (cleanupUnitStorageInstances unitTag force) s)) = trace s ++ evs
    /\ Forall (satisfies instanceCall) evs
    /\ (fst (run exec (cleanupUnitStorageInstances unitTag force) s) = None ->
        exists attachments,
          pick asAttachments evs = [(unitTag, (attachments, None))]
          /\ pick asDestroyInstance evs
             = map (fun a => (StorageInstance a, true, force)) attachments)
    /\ (forall e, fst (run exec (cleanupUnitStorageInstances unitTag force) s) = Some e ->
        In e (pick asStorageError evs)).
Proof.
  unfold cleanupUnitStorageInstances. cbn [bind call run].
  pose proof (called_trace exec NewStorageBackend s) as Ht0.
  destruct (called exec s NewStorageBackend) as [err0 s1]. simpl in Ht0.
  destruct err0 as [e0 |]; cbn [isNil negb run fst snd].
  { exists [Called NewStorageBackend (Some e0)].
    split; [exact Ht0 |]. split; [repeat constructor |]. split; [discriminate |].
    intros e He. inversion He. now left. }
  pose proof (called_trace exec (UnitStorageAttachments unitTag) s1) as Ht1.
  destruct (called exec s1 (UnitStorageAttachments unitTag)) as [[atts err1] s2].
  simpl in Ht1.
  destruct err1 as [e1 |]; cbn [isNil negb run fst snd].
  { exists [Called NewStorageBackend None;
            Called (UnitStorageAttachments unitTag) (atts, Some e1)].
    split; [rewrite Ht1, Ht0; same_events |].
    split; [repeat constructor |]. split; [discriminate |].
    intros e He. inversion He. now left. }
  rewrite run_orElse.
  match goal with
  | |- context [forEach atts ?body] => change body with (destroyInstance force)
  end.
  destruct (destroy_instances_loop atts force s2)
    as [evs [Hevs [Hall [Hatt [Hpick Hfail]]]]].
  exists ([Called NewStorageBackend None;
           Called (UnitStorageAttachments unitTag) (atts, None)] ++ evs).
  split.
  { destruct (run exec (forEach atts (destroyInstance force)) s2) as [[v |] s3];
      cbn [run fst snd] in *; rewrite Hevs, Ht1, Ht0; same_events. }
  split; [repeat (constructor; [exact I |]); exact Hall |].
  destruct (run exec (forEach atts (destroyInstance force)) s2) as [[v |] s3];
    cbn [run fst snd] in *.
  - destruct (Hfail v eq_refl) as [e [-> Hin]].
    split; [discriminate |]. intros e' He'. inversion He'; subst e'.
    rewrite pick_app. apply in_or_app. now right.
  - split; [| discriminate]. intros _. exists atts. simpl. rewrite Hatt.
    split; [reflexivity | now apply Hpick].
Qed.

(** The storage phase, when the storage stays: the attachments are detached
    and their records are left to the storage provisioner. *)
Lemma storage_attachments_phase (unitTag : string) (force : bool) (s : HS W) :
  exists evs,
    trace (snd (run exec (cleanupUnitStorageAttachments unitTag false force) s))
    = trace s ++ evs
    /\ Forall (satisfies detachCall) evs
    /\ (fst (run exec (cleanupUnitStorageAttachments unitTag false force) s) = None ->
        exists attachments,
          pick asAttachments evs = [(unitTag, (attachments, None))]
          /\ pick asDetach evs
             = map (fun a => (StorageInstance a, unitTag, force)) attachments)
    /\ (forall e,
         fst (run exec (cleanupUnitStorageAttachments unitTag false force) s) = Some e ->
         In e (pick asStorageError evs)).
Proof.
  unfold cleanupUnitStorageAttachments. cbn [bind call run].
  pose proof (called_trace exec NewStorageBackend s) as Ht0.
  destruct (called exec s NewStorageBackend) as [err0 s1]. simpl in Ht0.
  destruct err0 as [e0 |]; cbn [isNil negb run fst snd].
  { exists [Called NewStorageBackend (Some e0)].
    split; [exact Ht0 |]. split; [repeat constructor |]. split; [discriminate |].
    intros e He. inversion He. now left. }
  pose proof (called_trace exec (UnitStorageAttachments unitTag) s1) as Ht1.
  destruct (called exec s1 (UnitStorageAttachments unitTag)) as [[atts err1] s2].
  simpl in Ht1.
  destruct err1 as [e1 |]; cbn [isNil negb run fst snd].
  { exists [Called NewStorageBackend None;
            Called (UnitStorageAttachments unitTag) (atts, Some e1)].
    split; [rewrite Ht1, Ht0; same_events |].
    split; [repeat constructor |]. split; [discriminate |].
    intros e He. inversion He. now left. }
  rewrite run_orElse.
  match goal with
  | |- context [forEach atts ?body] => change body with (detachOnly unitTag force)
  end.
  destruct (detach_loop atts unitTag force s2) as [evs [Hevs [Hall [Hatt [Hpick Hfail]]]]].
  exists ([Called NewStorageBackend None;
           Called (UnitStorageAttachments unitTag) (atts, None)] ++ evs).
  split.
  { destruct (run exec (forEach atts (detachOnly unitTag force)) s2) as [[v |] s3];
      cbn [run fst snd] in *; rewrite Hevs, Ht1, Ht0; same_events. }
  split; [repeat (constructor; [exact I |]); exact Hall |].
  destruct (run exec (forEach atts (detachOnly unitTag force)) s2) as [[v |] s3];
    cbn [run fst snd] in *.
  - destruct (Hfail v eq_refl) as [e [-> Hin]].
    split; [discriminate |]. intros e' He'. inversion He'; subst e'.
    rewrite pick_app. apply in_or_app. now right.
  - split; [| discriminate]. intros _. exists atts. simpl. rewrite Hatt.
    split; [reflexivity | now apply Hpick].
Qed.

Lemma flags_cleanupDyingUnit name args destroyStorage force :
  flags args = Some (destroyStorage, force) ->
  cleanupDyingUnit name args
  = cleanupDyingUnit name [RawBool destroyStorage; RawBool force].
Proof.
  destruct args as [| a [| b [| c rest]]]; simpl.
  - intros H. inversion H. reflexivity.
  - destruct a; intros H; inversion H. reflexivity.
  - destruct a; try discriminate. destruct b; intros H; inversion H. reflexivity.
  - destruct a; try discriminate. destruct b; discriminate.
Qed.

(** The relation phase of [cleanupDyingUnit] on an existing unit: it either
    hands over to the backstop and the storage phase, or, when the cleanup is
    not forced, returns an error. *)
Lemma dying_unit_relations name destroyStorage force (s : HS W) u :
  fst (called exec s (StUnit name)) = (u, None) ->
  exists evs s',
    Forall (satisfies relationCall) evs
    /\ trace s' = trace s ++ Called (StUnit name) (u, None) :: evs
    /\ (forall d, In d (cleanups s) -> In d (cleanups s'))
    /\ (run exec (cleanupDyingUnit name [RawBool destroyStorage; RawBool force]) s
        = run exec
            ((if force
              then scheduleForceCleanup cleanupKind.cleanupForceDestroyedUnit name
              else Ret tt) ;;
             if destroyStorage then cleanupUnitStorageInstances (Name u) force
             else cleanupUnitStorageAttachments (Name u) false force) s'
        \/ exists v, (force = false /\ v <> None)
             /\ run exec (cleanupDyingUnit name [RawBool destroyStorage; RawBool force]) s
                = (v, s')).
Proof.
  intros Hlook. unfold cleanupDyingUnit.
  cbn [length Nat.ltb Nat.leb nth UnmarshalBool isNil negb].
  cbn [bind call run].
  pose proof (called_trace exec (StUnit name) s) as Ht0.
  pose proof (called_keeps exec (StUnit name) s) as Hk0.
  destruct (called exec s (StUnit name)) as [[u' e'] s1]. simpl in Hlook, Ht0, Hk0.
  inversion Hlook; subst u' e'. clear Hlook. cbn [IsNotFound isNil negb]. cbn [run].
  pose proof (called_trace exec (RelationsJoined u) s1) as Ht1.
  pose proof (called_keeps exec (RelationsJoined u) s1) as Hk1.
  destruct (called exec s1 (RelationsJoined u)) as [[relations err1] s2].
  simpl in Ht1, Hk1.
  (* the answer of RelationsJoined *)
  match goal with
  | |- context [run exec (orElse ?g ?k) s2] =>
      assert (Hfp : Footprint anyAnswer relationCall g) by footprint;
      assert (Hkp : Footprint anyAnswer keepsCleanups g) by footprint;
      assert (HC : forall s0 v, fst (run exec g s0) = Some v -> force = false /\ v <> None)
        by (intros s0 v; destruct err1, force; simpl; intros Hv; inversion Hv;
            split; [reflexivity | discriminate]);
      pose proof (@footprint_keeps W exec anyAnswer (fun _ _ _ => I) _ g Hkp s2) as Hk2;
      destruct (@run_guard relationCall _ (fun v => force = false /\ v <> None)
                  g k s2 Hfp HC) as [evs2 [s3 [Hall2 [Ht2 [Hs3 Hrun]]]]];
      rewrite <- Hs3 in Hk2; clear Hfp Hkp HC Hs3
  end.
  assert (Hpre : trace s3 = trace s ++ Called (StUnit name) (u, None)
                   :: Called (RelationsJoined u) (relations, err1) :: evs2).
  { rewrite Ht2, Ht1, Ht0. same_events. }
  assert (Hin : forall d, In d (cleanups s) -> In d (cleanups s3)).
  { intros d Hd. apply Hk2, Hk1, Hk0; trivial. }
  destruct Hrun as [Hrun | [v [Hv Hrun]]]; rewrite Hrun; clear Hrun.
  2:{ exists (Called (RelationsJoined u) (relations, err1) :: evs2), s3.
      split; [constructor; [exact I | exact Hall2] |].
      split; [exact Hpre |]. split; [exact Hin |]. right. exists v. now split. }
  (* the relations *)
  match goal with
  | |- context [run exec (orElse ?g ?k) s3] =>
      assert (Hfp : Footprint anyAnswer relationCall g) by footprint;
      assert (Hkp : Footprint anyAnswer keepsCleanups g) by footprint;
      assert (HC : forall s0 v, fst (run exec g s0) = Some v -> force = false /\ v <> None);
      [| pose proof (@footprint_keeps W exec anyAnswer (fun _ _ _ => I) _ g Hkp s3) as Hk3;
         destruct (@run_guard relationCall _ (fun v => force = false /\ v <> None)
                     g k s3 Hfp HC) as [evs3 [s4 [Hall3 [Ht3 [Hs4 Hrun]]]]];
         rewrite <- Hs4 in Hk3; clear Hfp Hkp HC Hs4]
  end.
  { intros s0 v Hv. destruct (forEach_result _ _ _ Hv) as [relation [s5 [_ Hx]]].
    revert Hx. cbn [run].
    destruct (called exec s5 (RelationUnit relation u)) as [[relationUnit err5] s6].
    destruct (IsNotFound err5); [discriminate |].
    destruct err5 as [e5 |]; cbn [isNil negb].
    - destruct force; simpl; intros Hx; inversion Hx. split; [reflexivity | discriminate].
    - cbn [run].
      destruct (called exec s6 (PrepareLeaveScope relationUnit)) as [[e7 |] s7];
        destruct force; simpl; intros Hx; inversion Hx.
      split; [reflexivity | discriminate]. }
  exists (Called (RelationsJoined u) (relations, err1) :: evs2 ++ evs3), s4.
  split; [constructor; [exact I | apply Forall_app; split; assumption] |].
  split; [rewrite Ht3, Hpre; same_events |].
  split; [intros d Hd; apply Hk3, Hin, Hd |].
  destruct Hrun as [Hrun | [v [Hv Hrun]]]; rewrite Hrun; clear Hrun.
  - left. reflexivity.
  - right. exists v. now split.
Qed.


Lemma hasId_incl id (a b : list cleanupDoc) :
  (forall d, In d a -> In d b) -> hasId id a = true -> hasId id b = true.
Proof.
  intros Hab Ha. apply hasId_ids in Ha. apply in_map_iff in Ha.
  destruct Ha as [d [Hid Hd]]. subst id. apply hasId_In, Hab, Hd.
Qed.

(** The backstop of [cleanupDyingUnit], between the relations and the
    storage. *)
Lemma dying_unit_backstop name (force : bool) (s : HS W) :
  exists evs s',
    run exec (if force
              then scheduleForceCleanup cleanupKind.cleanupForceDestroyedUnit name
              else Ret tt) s = (tt, s')
    /\ trace s' = trace s ++ evs
    /\ pick asAttachments evs = [] /\ pick asDestroyInstance evs = []
    /\ pick asDetach evs = [] /\ pick asRemoveAttachment evs = []
    /\ if force
       then exists now id verdict,
           pick asClockRead evs = [now]
           /\ pick asTransaction evs
              = [([OpInsert cleanupsC id
                     (backstop cleanupKind.cleanupForceDestroyedUnit name now id)],
                  verdict)]
           /\ (verdict = None -> hasId id (cleanups s') = true)
           /\ (verdict <> None ->
               pick asWarning evs
               = [("couldn't schedule %s cleanup: %v",
                   [V cleanupKind.cleanupForceDestroyedUnit; E verdict])])
       else pick asTransaction evs = [].
Proof.
  destruct force.
  - destruct (run_scheduleForceCleanup exec cleanupKind.cleanupForceDestroyedUnit name s)
      as [now [id [verdict [Ht Hc]]]].
    destruct (run exec (scheduleForceCleanup cleanupKind.cleanupForceDestroyedUnit name) s)
      as [[] s'].
    cbn [fst snd] in Ht, Hc. eexists _, s'. split; [reflexivity |].
    split; [exact Ht |]. rewrite !pick_app.
    repeat (split; [destruct verdict; reflexivity |]).
    exists now, id, verdict. repeat (split; [destruct verdict; reflexivity |]).
    split; [intros ->; rewrite Hc; apply hasId_insertDoc |].
    destruct verdict; [reflexivity | intros H; now destruct H].
  - exists [], s. rewrite app_nil_r. repeat split.
Qed.

(** A run of [cleanupDyingUnit] on an existing unit, read from its trace. *)
Lemma dying_unit_run name destroyStorage force (s : HS W) u :
  fst (called exec s (StUnit name)) = (u, None) ->
  let r := run exec (cleanupDyingUnit name [RawBool destroyStorage; RawBool force]) s in
  let evs := since s (snd r) in
  (fst r = None ->
   exists attachments,
     pick asAttachments evs = [(Name u, (attachments, None))]
     /\ if destroyStorage
        then pick asDestroyInstance evs
             = map (fun a => (StorageInstance a, true, force)) attachments
        else pick asDetach evs
             = map (fun a => (StorageInstance a, Name u, force)) attachments)
  /\ (destroyStorage = false ->
      pick asRemoveAttachment evs = [] /\ pick asDestroyInstance evs = [])
  /\ if force
     then exists now id verdict,
         pick asClockRead evs = [now]
         /\ pick asTransaction evs
            = [([OpInsert cleanupsC id
                   (backstop cleanupKind.cleanupForceDestroyedUnit name now id)],
                verdict)]
         /\ (verdict = None -> hasId id (cleanups (snd r)) = true)
         /\ (verdict <> None ->
             In ("couldn't schedule %s cleanup: %v",
                 [V cleanupKind.cleanupForceDestroyedUnit; E verdict])
                (pick asWarning evs))
         /\ (fst r = None \/ exists e, fst r = Some e /\ In e (pick asStorageError evs))
     else pick asTransaction evs = [].
Proof.
  intros Hlook. cbv zeta.
  destruct (dying_unit_relations name destroyStorage force s Hlook)
    as [evs1 [s1 [Hall1 [Ht1 [_ [Hrun | [v [[Hf Hv] Hrun]]]]]]]]; rewrite Hrun;
    clear Hrun.
  2:{ (* an error of the relation phase, not forced *)
      cbn [fst snd]. rewrite (since_app s s1 _ Ht1). subst force.
      split; [intros ->; now destruct Hv |].
      change (Called (StUnit name) (u, None) :: evs1)
        with ([Called (StUnit name) (u, None)] ++ evs1).
      rewrite !pick_app.
      rewrite (@pick_none _ asRemoveAttachment relationCall evs1),
              (@pick_none _ asDestroyInstance relationCall evs1),
              (@pick_none _ asTransaction relationCall evs1);
        try assumption; try not_picked.
      repeat split. }
  assert (Hrel : pick asAttachments evs1 = [] /\ pick asDestroyInstance evs1 = []
                 /\ pick asDetach evs1 = [] /\ pick asRemoveAttachment evs1 = []
                 /\ pick asClockRead evs1 = [] /\ pick asTransaction evs1 = []).
  { repeat split;
      match goal with
      | |- pick ?f evs1 = [] => apply (@pick_none _ f relationCall); [not_picked | exact Hall1]
      end. }
  destruct Hrel as [Ha1 [Hd1 [Hx1 [Hr1 [Hc1 Hq1]]]]].
  rewrite run_bind.
  destruct (dying_unit_backstop name force s1)
    as [evs2 [s2 [Hrun [Ht2 [Ha2 [Hd2 [Hx2 [Hr2 Hsched]]]]]]]].
  rewrite Hrun. clear Hrun.
  assert (Hstorage : exists P evs3,
             trace (snd (run exec (if destroyStorage
                                   then cleanupUnitStorageInstances (Name u) force
                                   else cleanupUnitStorageAttachments (Name u) false force)
                              s2)) = trace s2 ++ evs3
             /\ Forall (satisfies P) evs3
             /\ (forall e, satisfies P e -> asClockRead e = None)
             /\ (forall e, satisfies P e -> asTransaction e = None)
             /\ (forall e, satisfies P e -> asRemoveAttachment e = None)
             /\ (destroyStorage = false -> forall e, satisfies P e -> asDestroyInstance e = None)
             /\ (fst (run exec (if destroyStorage
                                then cleanupUnitStorageInstances (Name u) force
                                else cleanupUnitStorageAttachments (Name u) false force)
                           s2) = None ->
                 exists attachments,
                   pick asAttachments evs3 = [(Name u, (attachments, None))]
                   /\ if destroyStorage
                      then pick asDestroyInstance evs3
                           = map (fun a => (StorageInstance a, true, force)) attachments
                      else pick asDetach evs3
                           = map (fun a => (StorageInstance a, Name u, force)) attachments)
             /\ (forall e,
                  fst (run exec (if destroyStorage
                                 then cleanupUnitStorageInstances (Name u) force
                                 else cleanupUnitStorageAttachments (Name u) false force)
                            s2) = Some e ->
                  In e (pick asStorageError evs3))).
  { destruct destroyStorage.
    - destruct (storage_instances_phase (Name u) force s2)
        as [evs3 [Ht3 [Hall3 [Hok Hfail]]]].
      exists instanceCall, evs3. split; [exact Ht3 |]. split; [exact Hall3 |].
      repeat (split; [not_picked |]). split; [discriminate |]. split; assumption.
    - destruct (storage_attachments_phase (Name u) force s2)
        as [evs3 [Ht3 [Hall3 [Hok Hfail]]]].
      exists detachCall, evs3. split; [exact Ht3 |]. split; [exact Hall3 |].
      repeat (split; [not_picked |]). split; [intros _; not_picked |]. split; assumption. }
  destruct Hstorage as [P [evs3 [Ht3 [Hall3 [Hc3 [Hq3 [Hr3 [Hd3 [Hok Hfail]]]]]]]]].
  assert (Hkeep : forall d, In d (cleanups s2) ->
            In d (cleanups (snd (run exec (if destroyStorage
                                   then cleanupUnitStorageInstances (Name u) force
                                   else cleanupUnitStorageAttachments (Name u) false force)
                              s2)))).
  { apply (@footprint_keeps W exec anyAnswer (fun _ _ _ => I)).
    destruct destroyStorage;
      [apply keeps_cleanupUnitStorageInstances | apply keeps_cleanupUnitStorageAttachments]. }
  destruct (run exec (if destroyStorage
                      then cleanupUnitStorageInstances (Name u) force
                      else cleanupUnitStorageAttachments (Name u) false force) s2)
    as [r3 s3].
  cbn [fst snd] in *.
  assert (Hall : trace s3 = trace s ++ [Called (StUnit name) (u, None)]
                                  ++ evs1 ++ evs2 ++ evs3).
  { rewrite Ht3, Ht2, Ht1. same_events. }
  rewrite (since_app s s3 _ Hall), !pick_app, Ha1, Hd1, Hx1, Hr1, Hc1, Hq1, Ha2, Hd2,
    Hx2, Hr2.
  rewrite (@pick_none _ asClockRead P evs3 Hc3 Hall3),
    (@pick_none _ asTransaction P evs3 Hq3 Hall3),
    (@pick_none _ asRemoveAttachment P evs3 Hr3 Hall3).
  cbn [pick asAttachments asDestroyInstance asDetach asRemoveAttachment asClockRead
       asTransaction app].
  split; [exact Hok |].
  split.
  - intros Hd. split; [reflexivity |].
    apply (@pick_none _ asDestroyInstance P evs3 (Hd3 Hd) Hall3).
  - destruct force.
    + destruct Hsched as [now [id [verdict [Hnow [Htxn [Hid Hwarn]]]]]].
      exists now, id, verdict. rewrite Hnow, Htxn, !app_nil_r.
      split; [reflexivity |]. split; [reflexivity |].
      split; [intros Hv; apply (@hasId_incl id _ _ Hkeep), Hid, Hv |].
      split.
      * intros Hv. do 2 (apply in_or_app; right). apply in_or_app. left.
        rewrite (Hwarn Hv). now left.
      * destruct r3 as [e |]; [right | now left]. exists e. split; [reflexivity |].
        repeat (apply in_or_app; right). now apply Hfail.
    + rewrite Hsched. reflexivity.
Qed.


End DyingUnit.


(** ** A backstop that could not be scheduled *)

Section Backstop.

Variable W : Type.
Variable exec : forall R : Type, Op R -> W -> R * W * list cleanupDoc.


End Backstop.


(** ** The record of a force-destroyed machine *)

Lemma prefix_length (a b : string) :
  String.prefix a b = true -> String.length a <= String.length b.
Proof.
  revert b. induction a as [| x a IH]; intros b; [simpl; lia |].
  destruct b as [| y b]; simpl; [destruct a; discriminate |].
  destruct (Ascii.ascii_dec x y); [| discriminate].
  intros H. apply IH in H. lia.
Qed.

Lemma length_append (a b : string) :
  String.length (a ++ b) = String.length a + String.length b.
Proof. induction a as [| x a IH]; simpl; [reflexivity | now rewrite IH]. Qed.

Lemma containerOf_longer host c :
  containerOf host c = true -> String.length host < String.length c.
Proof.
  unfold containerOf. intros H. apply prefix_length in H.
  rewrite length_append in H. simpl in H. lia.
Qed.

Lemma existsb_removesMachine_ports ops : existsb removesMachine (map OpPorts ops) = false.
Proof. induction ops; simpl; auto. Qed.

(** A call that spares machine [id] does not remove its record. *)
Lemma spares_record id e : satisfies (sparesMachine id) e -> removesRecord id e = false.
Proof.
  destruct e as [R o r | lvl format args]; [| reflexivity].
  destruct o; try reflexivity; simpl.
  - intros Hlt. apply String.eqb_neq. intros Heq. rewrite Heq in Hlt. lia.
  - intros Hops. induction ops as [| op ops IH]; [reflexivity |].
    cbn [existsb] in *. apply orb_false_iff in Hops. destruct Hops as [Hop Hops].
    rewrite (IH Hops), orb_false_r. destruct op; try reflexivity.
    unfold removesMachine in Hop. now rewrite Hop.
Qed.

Lemma spares_obliterateUnit fuel name force id :
  Footprint machineStore (sparesMachine id) (obliterateUnit fuel name force).
Proof.
  revert name. induction fuel as [| fuel IH]; intros name; simpl;
    unfold cleanupUnitStorageAttachments; footprint.
Qed.

Lemma spares_cleanupDyingMachineResources m force id :
  Footprint machineStore (sparesMachine id) (cleanupDyingMachineResources m force).
Proof.
  unfold cleanupDyingMachineResources, cleanupDyingEntityStorage. footprint.
Qed.

(** Machines with longer ids spare the shorter one. *)
Lemma spares_longer id c {A : Type} (p : Prog A) :
  String.length id < String.length c ->
  Footprint machineStore (sparesMachine c) p -> Footprint machineStore (sparesMachine id) p.
Proof.
  intros Hlt. apply Footprint_weaken; [| auto].
  intros R o. destruct o; simpl; auto. lia.
Qed.

Lemma spares_cleanupForceDestroyedMachine fuel :
  forall id,
    Footprint machineStore (sparesMachine id) (cleanupForceDestroyedMachine fuel id).
Proof.
  induction fuel as [| fuel IH]; intros id; cbn [cleanupForceDestroyedMachine];
    [footprint |].
  cbn [bind call]. apply FpCall; [exact I |]. intros [machine err] Hm. simpl in Hm.
  destruct (IsNotFound err); [footprint |].
  destruct err as [e |]; cbn [isNil negb]; [footprint |].
  specialize (Hm eq_refl).
  apply Footprint_bind; [unfold cleanupUpgradeSeriesLock; footprint |]. intros err1.
  destruct err1 as [e1 |]; cbn [isNil negb]; [footprint |].
  apply Footprint_bind.
  - (* the containers *)
    unfold cleanupContainers. cbn [bind call]. apply FpCall; [exact I |].
    intros [ids err2] Hids. simpl in Hids.
    destruct (IsNotFound err2); [footprint |].
    destruct err2 as [e2 |]; cbn [isNil negb]; [footprint |].
    apply Footprint_orElse; [| footprint].
    apply Footprint_forEach. intros c Hc.
    assert (Hlt : String.length id < String.length c).
    { rewrite forallb_forall in Hids. specialize (Hids c Hc). rewrite Hm in Hids.
      now apply containerOf_longer. }
    apply Footprint_bind; [apply (@spares_longer id c _ _ Hlt), IH |].
    intros [[e3 |] |]; cbn [isNil negb]; [footprint | | footprint].
    cbn [bind call]. apply FpCall; [exact I |]. intros [container err4] Hc4.
    simpl in Hc4.
    destruct (IsNotFound err4); [footprint |].
    destruct err4 as [e4 |]; cbn [isNil negb]; [footprint |].
    specialize (Hc4 eq_refl).
    apply FpCall; [simpl; now rewrite Hc4 |]. intros err5 _. footprint.
  - (* the units, the resources, the machine *)
    intros [[e6 |] |]; [footprint | | footprint].
    apply Footprint_orElse.
    + apply Footprint_forEach. intros unitName _.
      apply Footprint_bind; [apply spares_obliterateUnit | intros ?; footprint].
    + apply Footprint_bind; [apply spares_cleanupDyingMachineResources |].
      intros err7. unfold dbRun, hasVoteTxn. footprint.
      apply existsb_removesMachine_ports.
Qed.

Section MachineRecord.

Variable W : Type.
Variable exec : forall R : Type, Op R -> W -> R * W * list cleanupDoc.

(** The calls of a run whose answers are as the program relies on. *)
Lemma footprint_answered (Q : forall R : Type, Op R -> R -> Prop)
    (P : forall R : Type, Op R -> Prop) {A : Type} (p : Prog A) :
  Footprint Q P p ->
  forall s : HS W,
    Forall (answered Q) (since s (snd (run exec p s))) ->
    Forall (satisfies P) (since s (snd (run exec p s))).
Proof.
  induction 1 as [a | R o k HP Hk IH | lvl fmt args k Hk IH | q k Hk IH]; intros s; simpl.
  - intros _. rewrite (since_app s s []); [constructor | now rewrite app_nil_r].
  - pose proof (called_trace exec o s) as Ht.
    destruct (called exec s o) as [r s1]. simpl in Ht.
    destruct (run_trace exec (k r) s1) as [evs Hevs].
    rewrite (since_app s _ (Called o r :: evs));
      [| rewrite Hevs, Ht, <- app_assoc; reflexivity].
    intros Hall. inversion Hall as [| e l Hr Hrest]; subst.
    constructor; [exact HP |].
    specialize (IH r Hr s1). rewrite (since_app s1 _ evs Hevs) in IH. now apply IH.
  - destruct (run_trace exec k (logged s lvl fmt args)) as [evs Hevs].
    rewrite (since_app s _ (Logged lvl fmt args :: evs));
      [| rewrite Hevs; simpl; rewrite <- app_assoc; reflexivity].
    intros Hall. inversion Hall as [| e l Hr Hrest]; subst.
    constructor; [exact I |].
    specialize (IH (logged s lvl fmt args)).
    rewrite (since_app (logged s lvl fmt args) _ evs Hevs) in IH. now apply IH.
  - apply IH.
Qed.

(** C9: in a run of cleanupForceDestroyedMachine on machine id where every
    machine lookup that succeeded answered the machine asked for and every
    list of containers held ids of containers of the machine asked about
    (host/kind/n), no call removes the record of machine id: every
    Machine.Remove is on a machine with a longer id, a container below it,
    and no transaction removes a machine document.  This holds for every
    run, successful or not. *)
Theorem C9_machine_record_is_kept fuel id (s : HS W) :
  let r := run exec (cleanupForceDestroyedMachine fuel id) s in
  Forall (answered machineStore) (since s (snd r)) ->
  existsb (removesRecord id) (since s (snd r)) = false.
Proof.
  intros r Hq. subst r.
  apply (footprint_answered (spares_cleanupForceDestroyedMachine fuel id)) in Hq.
  induction Hq as [| e evs He _ IH]; [reflexivity |].
  simpl. now rewrite (spares_record id e He), IH.
Qed.

End MachineRecord.

(** Machine 0 of the concrete backend, with its two containers: the handler
    returns nil, the containers are gone and the record of machine 0 is
    still there. *)
Lemma C9_machine_record_is_kept_witness :
  let r := run Toy.exec (cleanupForceDestroyedMachine 3 "0") (Toy.start Toy.world0 []) in
  fst r = Returned None
  /\ existsb (removesRecord "0") (since (Toy.start Toy.world0 []) (snd r)) = false
  /\ Toy.findMachine (world (snd r)) "0" = (Toy.machine0, None)
  /\ snd (Toy.findMachine (world (snd r)) "0/lxd/0") <> None.
Proof.
  cbv zeta. split; [vm_compute; reflexivity |].
  split; [| split; [vm_compute; reflexivity | vm_compute; discriminate]].
  apply (C9_machine_record_is_kept Toy.exec 3 "0" (Toy.start Toy.world0 [])).
  vm_compute. repeat constructor.
Defined.

(** ** Observed runs *)

Section Observed.

Variable W : Type.
Variable exec : forall R : Type, Op R -> W -> R * W * list cleanupDoc.

Lemma since_refl (s : HS W) : since s s = [].
Proof. apply since_app. now rewrite app_nil_r. Qed.

Lemma observe_run {A : Type} (p : Prog A) (s : HS W) :
  observe exec p s = (fst (run exec p s), since s (snd (run exec p s))).
Proof.
  revert s. induction p as [a | R o k IH | lvl fmt args k IH | q k IH]; intros s; simpl.
  - now rewrite since_refl.
  - pose proof (called_trace exec o s) as Ht.
    destruct (called exec s o) as [r s1]. simpl in Ht. rewrite IH.
    destruct (run_trace exec (k r) s1) as [evs Hevs].
    rewrite (since_app s1 _ evs Hevs).
    rewrite (since_app s _ (Called o r :: evs)); [reflexivity |].
    rewrite Hevs, Ht, <- app_assoc. reflexivity.
  - rewrite IH. destruct (run_trace exec k (logged s lvl fmt args)) as [evs Hevs].
    rewrite (since_app (logged s lvl fmt args) _ evs Hevs).
    rewrite (since_app s _ (Logged lvl fmt args :: evs)); [reflexivity |].
    rewrite Hevs. simpl. rewrite <- app_assoc. reflexivity.
  - apply IH.
Qed.

Lemma observe_call {A R : Type} (o : Op R) (k : R -> Prog A) (s : HS W) :
  observe exec (Call o k) s
  = let '(r, s') := called exec s o in
    let '(a, evs) := observe exec (k r) s' in
    (a, Called o r :: evs).
Proof. reflexivity. Qed.

Lemma observe_bind {A B : Type} (p : Prog A) (f : A -> Prog B) (s : HS W) :
  observe exec (bind p f) s
  = let '(a, evs) := observe exec p s in
    let '(b, evs') := observe exec (f a) (snd (run exec p s)) in
    (b, evs ++ evs').
Proof.
  revert s. induction p as [a | R o k IH | lvl fmt args k IH | q k IH]; intros s; simpl.
  - now destruct (observe exec (f a) s).
  - destruct (called exec s o) as [r s1]. rewrite IH.
    destruct (observe exec (k r) s1) as [a evs].
    now destruct (observe exec (f a) (snd (run exec (k r) s1))).
  - rewrite IH. destruct (observe exec k (logged s lvl fmt args)) as [a evs].
    now destruct (observe exec (f a) (snd (run exec k (logged s lvl fmt args)))).
  - apply IH.
Qed.

Lemma observe_orElse {R : Type} (loop : Prog (option R)) (rest : Prog R) (s : HS W) :
  observe exec (orElse loop rest) s
  = let '(r, evs) := observe exec loop s in
    match r with
    | Some v => (v, evs)
    | None =>
        let '(b, evs') := observe exec rest (snd (run exec loop s)) in (b, evs ++ evs')
    end.
Proof.
  unfold orElse. rewrite observe_bind. destruct (observe exec loop s) as [[v |] evs].
  - simpl. now rewrite app_nil_r.
  - reflexivity.
Qed.

Lemma observe_orNext {R : Type} (step rest : Prog (option R)) (s : HS W) :
  observe exec (orNext step rest) s
  = let '(r, evs) := observe exec step s in
    match r with
    | Some v => (Some v, evs)
    | None =>
        let '(b, evs') := observe exec rest (snd (run exec step s)) in (b, evs ++ evs')
    end.
Proof.
  unfold orNext. rewrite observe_bind. destruct (observe exec step s) as [[v |] evs].
  - simpl. now rewrite app_nil_r.
  - reflexivity.
Qed.

(** A loop whose every turn is as [B] says. *)
Lemma observe_forEach {X R : Type} (B : X -> list Event -> option R -> Prop)
    (xs : list X) (body : X -> Prog (option R)) (s : HS W) :
  (forall x s0, In x xs ->
     B x (snd (observe exec (body x) s0)) (fst (observe exec (body x) s0))) ->
  Loop B xs (snd (observe exec (forEach xs body) s))
            (fst (observe exec (forEach xs body) s)).
Proof.
  revert s. induction xs as [| x xs IH]; intros s Hbody.
  - simpl. constructor.
  - cbn [forEach]. rewrite observe_bind.
    pose proof (Hbody x s (or_introl eq_refl)) as Hx.
    destruct (observe exec (body x) s) as [[v |] evs]; cbn [fst snd] in Hx.
    + simpl. rewrite app_nil_r. now apply LoopReturn.
    + specialize (IH (snd (run exec (body x) s)) (fun y s0 Hy => Hbody y s0 (or_intror Hy))).
      destruct (observe exec (forEach xs body) (snd (run exec (body x) s))) as [r evs'].
      simpl in *. now apply LoopNext.
Qed.

End Observed.

(** What [pick] reads in the events of a loop: what it reads in every turn
    made, and a loop that did not return made every turn. *)
Lemma Loop_pick {X R Y : Type} (B : X -> list Event -> option R -> Prop)
    (f : Event -> option Y) (g : X -> list Y) xs evs r :
  (forall x e v, B x e v -> pick f e = g x) ->
  Loop B xs evs r ->
  exists k, pick f evs = flat_map g (firstn k xs)
            /\ (r = None -> pick f evs = flat_map g xs).
Proof.
  intros Hg. induction 1 as [| x xs evs v Hx | x xs evs evs' r Hx _ IH].
  - exists 0. split; reflexivity.
  - exists 1. simpl. rewrite app_nil_r. split; [now apply Hg with (v := Some v) | discriminate].
  - destruct IH as [k [Hk Hall]]. exists (S k). rewrite pick_app. simpl.
    rewrite (Hg _ _ _ Hx), Hk. split; [reflexivity |].
    intros Hr. rewrite <- (Hall Hr), Hk. reflexivity.
Qed.

Lemma Loop_Forall {X R : Type} (B : X -> list Event -> option R -> Prop)
    (P : Event -> Prop) xs evs r :
  (forall x e v, B x e v -> Forall P e) -> Loop B xs evs r -> Forall P evs.
Proof.
  intros HP. induction 1 as [| x xs evs v Hx | x xs evs evs' r Hx _ IH].
  - constructor.
  - now apply HP with (x := x) (v := Some v).
  - apply Forall_app. split; [now apply HP with (x := x) (v := None) | exact IH].
Qed.

Lemma Loop_weaken {X R : Type} (B B' : X -> list Event -> option R -> Prop) xs evs r :
  (forall x e v, In x xs -> B x e v -> B' x e v) -> Loop B xs evs r -> Loop B' xs evs r.
Proof.
  intros HB. induction 1 as [| x xs evs v Hx | x xs evs evs' r Hx _ IH].
  - constructor.
  - apply LoopReturn. apply HB; [now left | exact Hx].
  - apply LoopNext; [apply HB; [now left | exact Hx] |].
    apply IH. intros y e v Hy. apply HB. now right.
Qed.

(** A loop returns what one of its turns returned. *)
Lemma Loop_returned {X R : Type} (B : X -> list Event -> option R -> Prop)
    (P : R -> Prop) xs evs v :
  (forall x e v, B x e (Some v) -> P v) -> Loop B xs evs (Some v) -> P v.
Proof.
  intros HP H. remember (Some v) as r eqn:Hr.
  induction H as [| x xs evs v0 Hx | x xs evs evs' r Hx _ IH].
  - discriminate.
  - inversion Hr; subst. now apply HP with (x := x) (e := evs).
  - now apply IH.
Qed.

Lemma flat_map_nil {X Y : Type} (xs : list X) : flat_map (fun _ => @nil Y) xs = [].
Proof. induction xs; now simpl. Qed.

Lemma flat_map_single {X Y : Type} (h : X -> Y) (xs : list X) :
  flat_map (fun x => [h x]) xs = map h xs.
Proof. induction xs as [| x xs IH]; simpl; [reflexivity | now rewrite IH]. Qed.

(** What holds of the events of every turn and of the events of two runs in
    a row holds of the events of the loop. *)
Lemma Loop_all {X R : Type} (B : X -> list Event -> option R -> Prop)
    (Pr : list Event -> Prop) xs evs r :
  Pr [] -> (forall a b, Pr a -> Pr b -> Pr (a ++ b)) ->
  (forall x e v, B x e v -> Pr e) -> Loop B xs evs r -> Pr evs.
Proof.
  intros Hnil Happ HB. induction 1 as [| x xs evs v Hx | x xs evs evs' r Hx _ IH].
  - exact Hnil.
  - now apply HB with (x := x) (v := Some v).
  - apply Happ; [now apply HB with (x := x) (v := None) | exact IH].
Qed.

(** A reading of the events that goes turn by turn, for a loop that made
    every turn. *)
Lemma Loop_hom {X R Y : Type} (B : X -> list Event -> option R -> Prop)
    (h : list Event -> list Y) (g : X -> list Y) xs evs :
  h [] = [] -> (forall a b, h (a ++ b) = h a ++ h b) ->
  (forall x e, B x e None -> h e = g x) ->
  Loop B xs evs None -> h evs = flat_map g xs.
Proof.
  intros Hnil Happ Hg H. remember (@None R) as r eqn:Hr.
  induction H as [| x xs evs v Hx | x xs evs evs' r Hx _ IH].
  - exact Hnil.
  - discriminate.
  - subst r. rewrite Happ, (Hg _ _ Hx), (IH eq_refl Hg). reflexivity.
Qed.

Lemma flat_map_filter {X : Type} (keep : X -> bool) (xs : list X) :
  flat_map (fun x => if keep x then [x] else []) xs = filter keep xs.
Proof.
  induction xs as [| x xs IH]; simpl; [reflexivity |].
  rewrite IH. now destruct (keep x).
Qed.

(** ** What a program yields *)

Section YieldRules.

Variable A : Type.
Variable P : A -> Prop.

Lemma Yields_bind {B : Type} (Q : B -> Prop) (p : Prog B) (f : B -> Prog A) :
  Yields Q p -> (forall b, Q b -> Yields P (f b)) -> Yields P (bind p f).
Proof.
  intros Hp Hf. induction Hp as [b Hb | R o k Hk IH | lvl fmt args k Hk IH | q k Hk IH];
    simpl.
  - now apply Hf.
  - apply YCall. intros r. apply IH.
  - apply YLogf. exact IH.
  - apply YFind. intros docs. apply IH.
Qed.

Lemma Yields_any {B : Type} (p : Prog B) : Yields (fun _ => True) p.
Proof.
  induction p as [b | R o k IH | lvl fmt args k IH | q k IH].
  - now apply YRet.
  - apply YCall. exact IH.
  - now apply YLogf.
  - apply YFind. exact IH.
Qed.

Lemma Yields_then {B : Type} (p : Prog B) (f : B -> Prog A) :
  (forall b, Yields P (f b)) -> Yields P (bind p f).
Proof.
  intros Hf. apply Yields_bind with (Q := fun _ => True); [apply Yields_any |].
  intros b _. apply Hf.
Qed.

End YieldRules.

Lemma Yields_weaken {A : Type} (P Q : A -> Prop) (p : Prog A) :
  (forall a, P a -> Q a) -> Yields P p -> Yields Q p.
Proof.
  intros HPQ. induction 1 as [a Ha | R o k Hk IH | lvl fmt args k Hk IH | q k Hk IH].
  - apply YRet. now apply HPQ.
  - apply YCall. exact IH.
  - now apply YLogf.
  - apply YFind. exact IH.
Qed.

(** A loop none of whose turns returns from the function does not return
    from it. *)
Lemma Yields_forEach {X R : Type} (xs : list X) (body : X -> Prog (option R)) :
  (forall x, In x xs -> Yields (fun v => v = None) (body x)) ->
  Yields (fun v => v = None) (forEach xs body).
Proof.
  induction xs as [| x xs IH]; intros H; simpl.
  - now apply YRet.
  - apply Yields_bind with (Q := fun v => v = None).
    + apply H. now left.
    + intros b ->. apply IH. intros y Hy. apply H. now right.
Qed.

Lemma Yields_orElse {R : Type} (P : R -> Prop) (loop : Prog (option R)) (rest : Prog R) :
  Yields (fun v => v = None) loop -> Yields P rest -> Yields P (orElse loop rest).
Proof.
  intros Hl Hr. unfold orElse. apply Yields_bind with (Q := fun v => v = None).
  - exact Hl.
  - intros b ->. exact Hr.
Qed.

Lemma Yields_orNext {R : Type} (step rest : Prog (option R)) :
  Yields (fun v => v = None) step -> Yields (fun v => v = None) rest ->
  Yields (fun v => v = None) (orNext step rest).
Proof.
  intros Hl Hr. unfold orNext. apply Yields_bind with (Q := fun v => v = None).
  - exact Hl.
  - intros b ->. exact Hr.
Qed.

Section YieldsRun.

Variable W : Type.
Variable exec : forall R : Type, Op R -> W -> R * W * list cleanupDoc.

Lemma yields_run {A : Type} (P : A -> Prop) (p : Prog A) :
  Yields P p -> forall s : HS W, P (fst (run exec p s)).
Proof.
  induction 1 as [a Ha | R o k Hk IH | lvl fmt args k Hk IH | q k Hk IH]; intros s;
    simpl.
  - exact Ha.
  - destruct (called exec s o) as [r s']. apply IH.
  - apply IH.
  - apply IH.
Qed.

End YieldsRun.

(** One step towards [Yields]: compute the program as far as it is known,
    then follow its shape. *)
Ltac yields_step :=
  first
  [ progress cbn [bind call logf find returned isNil negb andb orb]
  | match goal with
    | |- Yields _ (Ret _) => apply YRet
    | |- Yields _ (Call _ _) => apply YCall; intros ?
    | |- Yields _ (Logf _ _ _ _) => apply YLogf
    | |- Yields _ (Find _ _) => apply YFind; intros ?
    | |- Yields _ (orElse _ _) => apply Yields_orElse
    | |- Yields _ (orNext _ _) => apply Yields_orNext
    | |- Yields _ (forEach _ _) => apply Yields_forEach; intros ? ?
    | |- Yields _ (match (match ?x with _ => _ end) with _ => _ end) => destruct x
    | |- Yields _ (bind (match ?x with _ => _ end) _) => destruct x
    | |- Yields _ (match ?x with _ => _ end) => destruct x
    | |- context [match ?x with _ => _ end] => destruct x
    end ].

Ltac yields := repeat first [ yields_step | reflexivity | exact I ].

Lemma pick_Forall {Y : Type} (f : Event -> option Y) (P : forall R : Type, Op R -> Prop)
    (Q : Y -> Prop) (evs : list Event) :
  (forall e y, satisfies P e -> f e = Some y -> Q y) ->
  Forall (satisfies P) evs -> Forall Q (pick f evs).
Proof.
  intros HQ. induction 1 as [| e evs He _ IH]; simpl; [constructor |].
  destruct (f e) as [y |] eqn:Hf; [| exact IH].
  constructor; [now apply HQ with (e := e) | exact IH].
Qed.

Section ObservedFootprint.

Variable W : Type.
Variable exec : forall R : Type, Op R -> W -> R * W * list cleanupDoc.

(** The events of a run, all of them calls that the program may make. *)
Lemma footprint_since (P : forall R : Type, Op R -> Prop) {A : Type} (p : Prog A)
    (s : HS W) :
  Footprint anyAnswer P p -> Forall (satisfies P) (since s (snd (run exec p s))).
Proof.
  intros Hp.
  destruct (@footprint_trace W exec anyAnswer (fun _ _ _ => I) P A p Hp s) as [evs [Ht Hall]].
  now rewrite (since_app s _ evs Ht).
Qed.

Lemma footprint_observed (P : forall R : Type, Op R -> Prop) {A : Type} (p : Prog A)
    (s : HS W) :
  Footprint anyAnswer P p -> Forall (satisfies P) (snd (observe exec p s)).
Proof. intros Hp. rewrite observe_run. now apply footprint_since. Qed.

Lemma yields_observed {A : Type} (P : A -> Prop) (p : Prog A) (s : HS W) :
  Yields P p -> P (fst (observe exec p s)).
Proof. intros Hp. rewrite observe_run. now apply yields_run. Qed.

End ObservedFootprint.

(** [footprint], remembering what each case distinction found. *)
Ltac footprint_case :=
  first
  [ progress cbn [bind call logf find returned]
  | match goal with
    | |- Footprint _ _ (Ret _) => apply FpRet
    | |- Footprint _ _ (Call _ _) => apply FpCall; [| intros ? ?]
    | |- Footprint _ _ (Logf _ _ _ _) => apply FpLogf
    | |- Footprint _ _ (orElse _ _) => apply Footprint_orElse
    | |- Footprint _ _ (orNext _ _) => apply Footprint_orNext
    | |- Footprint _ _ (forEach _ _) => apply Footprint_forEach; intros ? ?
    | |- Footprint _ _ (match ?x with _ => _ end) => destruct x eqn:?
    | |- Footprint _ _ (bind (match ?x with _ => _ end) _) => destruct x eqn:?
    | |- Footprint _ _ (bind _ _) => apply Footprint_bind; [| intros ?]
    end ].

(** ** Loops that stop at the first failure *)

Section StopLoop.

Variable W : Type.
Variable exec : forall R : Type, Op R -> W -> R * W * list cleanupDoc.
Variable X : Type.
Variable op : X -> Op (option error).
Variable wrap : option error -> option error.

Lemma observe_stop_loop (xs : list X) (s : HS W) :
  Loop (stopsOnError op wrap) xs
    (snd (observe exec (forEach xs (fun x =>
            err <- call (op x) ;;
            if negb (isNil err) then Ret (Some (wrap err)) else Ret None)) s))
    (fst (observe exec (forEach xs (fun x =>
            err <- call (op x) ;;
            if negb (isNil err) then Ret (Some (wrap err)) else Ret None)) s)).
Proof.
  apply observe_forEach. intros x s0 _. cbn [bind call]. rewrite observe_call.
  destruct (called exec s0 (op x)) as [[e |] s1]; cbn; eexists; split; reflexivity.
Qed.

(** The calls stop at the first failure, and the loop returns its error. *)
Lemma stop_loop_until {Y : Type} (f : Event -> option (Y * option error)) (g : X -> Y)
    xs evs r :
  (forall x answer, f (Called (op x) answer) = Some (g x, answer)) ->
  Loop (stopsOnError op wrap) xs evs r ->
  exists failure,
    untilFailure (map g xs) (pick f evs) failure
    /\ r = option_map (fun e => wrap (Some e)) failure.
Proof.
  intros Hf. induction 1 as [| x xs evs v Hx | x xs evs evs' r Hx _ IH].
  - exists None. split; reflexivity.
  - destruct Hx as [answer [-> Hv]]. destruct answer as [e |]; [| discriminate].
    simpl in Hv. inversion Hv; subst. exists (Some e). split; [| reflexivity].
    exists [], (g x), (map g xs). simpl. rewrite Hf. split; reflexivity.
  - destruct Hx as [answer [-> Hv]]. destruct answer as [e |]; [discriminate |].
    destruct IH as [failure [Hcalls ->]]. exists failure. split; [| reflexivity].
    rewrite pick_app. simpl. rewrite Hf. destruct failure as [e |]; simpl in *.
    + destruct Hcalls as [done [y [rest [Hxs ->]]]].
      exists (g x :: done), y, rest. rewrite Hxs. split; reflexivity.
    + now rewrite Hcalls.
Qed.

(** Readers of other calls find nothing in the events of the loop. *)
Lemma stop_loop_other {Y : Type} (f : Event -> option Y) xs evs r :
  (forall x answer, f (Called (op x) answer) = None) ->
  Loop (stopsOnError op wrap) xs evs r -> pick f evs = [].
Proof.
  intros Hf Hloop.
  refine (Loop_all (fun evs => pick f evs = []) _ _ _ Hloop).
  - reflexivity.
  - intros a b Ha Hb. now rewrite pick_app, Ha, Hb.
  - intros x e v [answer [-> _]]. simpl. now rewrite Hf.
Qed.

(** [closeIter]: the error of the function wins over the error of the
    cursor, and no call is made. *)
Lemma closeIter_observed iterClose errOut message (s : HS W) :
  fst (observe exec (closeIter iterClose errOut message) s)
  = (if isNil errOut then Annotate iterClose message else errOut)
  /\ Forall (fun e => match e with Called _ _ => False | Logged _ _ _ => True end)
            (snd (observe exec (closeIter iterClose errOut message) s)).
Proof.
  unfold closeIter. destruct iterClose as [c |], errOut as [e |]; cbn;
    split; try reflexivity; repeat constructor.
Qed.

Lemma pick_logs {Y : Type} (f : Event -> option Y) (evs : list Event) :
  (forall lvl format args, f (Logged lvl format args) = None) ->
  Forall (fun e => match e with Called _ _ => False | Logged _ _ _ => True end) evs ->
  pick f evs = [].
Proof.
  intros Hf. induction 1 as [| e evs He _ IH]; [reflexivity |].
  destruct e as [R o r | lvl format args]; [destruct He |]. simpl. now rewrite Hf.
Qed.

(** A loop over the documents of a cursor, then [closeIter]. *)
Lemma cursor_loop_observed (docs : list X) iterClose message (s : HS W) r evs :
  observe exec
    (err <- (try! forEach docs (fun x =>
               err <- call (op x) ;;
               if negb (isNil err) then Ret (Some (wrap err)) else Ret None) ;;
             Ret None) ;;
     closeIter iterClose err message) s = (r, evs) ->
  exists turns logs v,
    evs = turns ++ logs
    /\ Loop (stopsOnError op wrap) docs turns v
    /\ Forall (fun e => match e with Called _ _ => False | Logged _ _ _ => True end) logs
    /\ r = match v with
           | Some err => if isNil err then Annotate iterClose message else err
           | None => Annotate iterClose message
           end.
Proof.
  intros H. rewrite observe_bind, observe_orElse in H.
  pose proof (observe_stop_loop docs s) as Hloop.
  destruct (observe exec (forEach docs _) s) as [v turns]. cbn [fst snd] in Hloop.
  destruct v as [err |].
  - match type of H with
    | context [observe exec (closeIter iterClose err message) ?st] =>
        destruct (closeIter_observed iterClose err message st) as [Hr Hl];
        destruct (observe exec (closeIter iterClose err message) st) as [r' logs]
    end.
    cbn [fst snd] in Hr, Hl. inversion H; subst. exists turns, logs, (Some err).
    repeat split; assumption.
  - cbn [observe] in H. rewrite app_nil_r in H.
    match type of H with
    | context [observe exec (closeIter iterClose None message) ?st] =>
        destruct (closeIter_observed iterClose None message st) as [Hr Hl];
        destruct (observe exec (closeIter iterClose None message) st) as [r' logs]
    end.
    cbn [fst snd isNil] in Hr, Hl. inversion H; subst. exists turns, logs, None.
    repeat split; assumption.
Qed.

End StopLoop.

(** The loop in an observation [H], turn by turn as [B] says; the turns are
    left to prove. *)
Ltac observe_loop H B Hloop :=
  match type of H with
  | context [observe ?exec (forEach ?xs ?body) ?st] =>
      assert (Hloop : Loop B xs (snd (observe exec (forEach xs body) st))
                                (fst (observe exec (forEach xs body) st)));
      [apply observe_forEach | ]
  end.

(** ** The storage of a dying model *)

Lemma storagePlan_args args destroy force :
  storagePlan args = Some (destroy, force) ->
  cleanupStorageForDyingModel args
  = cleanupStorageForDyingModel [RawBool destroy; RawBool force].
Proof.
  destruct args as [| a [| b [| c rest]]]; simpl.
  - intros H. inversion H. reflexivity.
  - destruct a; simpl; intros H; inversion H;
      unfold cleanupStorageForDyingModel; simpl;
      repeat match goal with |- context [Z.eqb ?n 0] => destruct (Z.eqb n 0) end;
      reflexivity.
  - destruct a; simpl; try discriminate; destruct b; simpl; intros H; inversion H;
      unfold cleanupStorageForDyingModel; simpl;
      repeat match goal with |- context [Z.eqb ?n 0] => destruct (Z.eqb n 0) end;
      reflexivity.
  - destruct a; simpl; try discriminate; destruct b; discriminate.
Qed.

Section DyingModelStorage.

Variable W : Type.
Variable exec : forall R : Type, Op R -> W -> R * W * list cleanupDoc.

Lemma storage_observed destroy force (s : HS W) r evs :
  observe exec (cleanupStorageForDyingModel [RawBool destroy; RawBool force]) s = (r, evs) ->
  (if destroy then pick asReleaseInstance evs = [] else pick asDestroyInstance evs = [])
  /\ (r = None ->
      exists storage,
        pick asAllStorage evs = [(storage, None)]
        /\ (if destroy then pick asDestroyInstance evs else pick asReleaseInstance evs)
           = map (fun i => (StorageTag i, true, force)) storage).
Proof.
  intros H. unfold cleanupStorageForDyingModel in H. cbn -[orElse forEach] in H.
  destruct (called exec s NewStorageBackend) as [[e0 |] s1]; cbn -[orElse forEach] in H.
  { inversion H; subst. split; [now destruct destroy | discriminate]. }
  destruct destroy; cbn -[orElse forEach] in H;
    destruct (called exec s1 AllStorageInstances) as [[storage [e1 |]] s2];
    cbn -[orElse forEach] in H;
    try (inversion H; subst; split; [reflexivity | discriminate]);
    rewrite observe_orElse in H.
  - observe_loop H
      (fun (i : StorageInstanceT) (e : list Event) (v : option (option error)) =>
         pick asDestroyInstance e = [(StorageTag i, true, force)]
         /\ pick asReleaseInstance e = [] /\ pick asAllStorage e = []
         /\ v <> Some None) Hloop.
    { intros i s0 _. cbn.
      destruct (called exec s0 (DestroyStorageInstance (StorageTag i) true force))
        as [err s3].
      destruct (IsNotFound err); [cbn; repeat split; discriminate |].
      destruct err; cbn; repeat split; discriminate. }
    destruct (observe exec (forEach storage _) s2) as [v evsL]. cbn [fst snd] in Hloop.
    destruct (Loop_pick asDestroyInstance (fun i => [(StorageTag i, true, force)])
                (fun x e v H => proj1 H) Hloop) as [k [_ Hall]].
    destruct (Loop_pick asReleaseInstance (fun _ => [])
                (fun x e v H => proj1 (proj2 H)) Hloop) as [k' [Hrel _]].
    destruct (Loop_pick asAllStorage (fun _ => [])
                (fun x e v H => proj1 (proj2 (proj2 H))) Hloop) as [k'' [Hsto _]].
    rewrite flat_map_single in Hall. rewrite flat_map_nil in Hrel. rewrite flat_map_nil in Hsto.
    destruct v as [v |]; cbn in H; inversion H; subst; cbn.
    + rewrite Hrel. split; [reflexivity |]. intros ->.
      now apply (Loop_returned (fun v => v <> None)
                   (fun x e v H => fun Hv => proj2 (proj2 (proj2 H)) (f_equal Some Hv)))
        in Hloop.
    + rewrite !pick_app, Hrel, Hsto, !app_nil_r. simpl.
      split; [reflexivity |]. intros _. exists storage. split; [reflexivity |].
      now apply Hall.
  - observe_loop H
      (fun (i : StorageInstanceT) (e : list Event) (v : option (option error)) =>
         pick asReleaseInstance e = [(StorageTag i, true, force)]
         /\ pick asDestroyInstance e = [] /\ pick asAllStorage e = []
         /\ v <> Some None) Hloop.
    { intros i s0 _. cbn.
      destruct (called exec s0 (ReleaseStorageInstance (StorageTag i) true force))
        as [err s3].
      destruct (IsNotFound err); [cbn; repeat split; discriminate |].
      destruct err; cbn; repeat split; discriminate. }
    destruct (observe exec (forEach storage _) s2) as [v evsL]. cbn [fst snd] in Hloop.
    destruct (Loop_pick asReleaseInstance (fun i => [(StorageTag i, true, force)])
                (fun x e v H => proj1 H) Hloop) as [k [_ Hall]].
    destruct (Loop_pick asDestroyInstance (fun _ => [])
                (fun x e v H => proj1 (proj2 H)) Hloop) as [k' [Hrel _]].
    destruct (Loop_pick asAllStorage (fun _ => [])
                (fun x e v H => proj1 (proj2 (proj2 H))) Hloop) as [k'' [Hsto _]].
    rewrite flat_map_single in Hall. rewrite flat_map_nil in Hrel. rewrite flat_map_nil in Hsto.
    destruct v as [v |]; cbn in H; inversion H; subst; cbn.
    + rewrite Hrel. split; [reflexivity |]. intros ->.
      now apply (Loop_returned (fun v => v <> None)
                   (fun x e v H => fun Hv => proj2 (proj2 (proj2 H)) (f_equal Some Hv)))
        in Hloop.
    + rewrite !pick_app, Hrel, Hsto, !app_nil_r. simpl.
      split; [reflexivity |]. intros _. exists storage. split; [reflexivity |].
      now apply Hall.
Qed.

(** The storage of a dying model is either destroyed or released, never
    both, as the first argument says: the other kind of call is never
    made, and a run that returns no error has listed the model's storage
    instances once and asked for each one, in the order of the listing,
    with destroyAttachments set and the force flag of the arguments. *)
Theorem cleanupStorageForDyingModel_follows_flag args destroy force (s : HS W) :
  storagePlan args = Some (destroy, force) ->
  let r := run exec (cleanupStorageForDyingModel args) s in
  let evs := since s (snd r) in
  (if destroy then pick asReleaseInstance evs = [] else pick asDestroyInstance evs = [])
  /\ (fst r = None ->
      exists storage,
        pick asAllStorage evs = [(storage, None)]
        /\ (if destroy then pick asDestroyInstance evs else pick asReleaseInstance evs)
           = map (fun i => (StorageTag i, true, force)) storage).
Proof.
  intros Hplan. rewrite (storagePlan_args _ Hplan). cbv zeta.
  apply (@storage_observed destroy force s). apply observe_run.
Qed.

End DyingModelStorage.

(** ** Forced cleanups *)

Lemma yields_cleanupDyingEntityStorage hostTag manual fsas vas :
  Yields (fun r => r = None) (cleanupDyingEntityStorage hostTag manual fsas vas true).
Proof. unfold cleanupDyingEntityStorage. cbv zeta. yields. Qed.

Lemma forcePlan_cleanupRemovedUnit unitId args force :
  forcePlan args = Some force ->
  cleanupRemovedUnit unitId args = cleanupRemovedUnit unitId [RawBool force].
Proof.
  destruct args as [| a [| b rest]]; simpl.
  - intros H. inversion H. reflexivity.
  - destruct a; simpl; intros H; inversion H; reflexivity.
  - discriminate.
Qed.

Lemma yields_cleanupRemovedUnit unitId :
  Yields (fun r => r = None) (cleanupRemovedUnit unitId [RawBool true]).
Proof. unfold cleanupRemovedUnit. cbn -[orElse forEach]. yields. Qed.

Lemma forcePlan_cleanupDyingUnitResources unitId args force :
  forcePlan args = Some force ->
  cleanupDyingUnitResources unitId args = cleanupDyingUnitResources unitId [RawBool force].
Proof.
  destruct args as [| a [| b rest]]; simpl.
  - intros H. inversion H. reflexivity.
  - destruct a; simpl; intros H; inversion H; reflexivity.
  - discriminate.
Qed.

Lemma past_cleanupDyingEntityStorage hostTag manual fsas vas force :
  Footprint anyAnswer pastBackend (cleanupDyingEntityStorage hostTag manual fsas vas force).
Proof. unfold cleanupDyingEntityStorage. footprint. Qed.

Lemma cancels_cleanupRemovedUnit unitId args :
  Footprint anyAnswer cancelsUnfinished (cleanupRemovedUnit unitId args).
Proof.
  assert (Hrest : forall force,
    Footprint anyAnswer cancelsUnfinished
      ('(actions, err) <- call (matchingActionsByReceiverId unitId) ;;
       try! (if negb (isNil err) then
               if negb force then Ret (Some (Trace err))
               else
                 logf Warning
                   "could not get unit actions for unit %v during cleanup of removed unit: %v"
                   [V unitId; E err] ;;
                 Ret None
             else Ret None) ;;
       let cancelled :=
         {| resultStatus := ActionCancelled; resultMessage := "unit removed" |} in
       try! forEach actions (fun action =>
         match actionStatus action with
         | ActionCompleted | ActionCancelled | ActionFailed => Ret None
         | _ =>
             err <- call (ActionFinish action cancelled) ;;
             if negb (isNil err) then
               if negb force then Ret (Some (Trace err))
               else
                 logf Warning
                   "could not finish action %v for unit %v during cleanup of removed unit: %v"
                   [V (actionName action); V unitId; E err] ;;
                 Ret None
             else Ret None
         end) ;;
       err <- call (ApplyPayloadCleanup unitId) ;;
       if negb (isNil err) then
         if negb force then Ret (Trace err)
         else
           logf Warning
             "could not cleanup payload for unit %v during cleanup of removed unit: %v"
             [V unitId; E err] ;;
           Ret None
       else Ret None)).
  { intros force. cbv zeta. repeat footprint_case; try exact I; simpl; auto. }
  unfold cleanupRemovedUnit. destruct args as [| a [| b rest]].
  - apply (Hrest false).
  - cbn [length nth]. destruct (UnmarshalBool a false) as [force [e |]]; cbn [isNil negb].
    + apply FpRet.
    + apply (Hrest force).
  - apply FpRet.
Qed.

Lemma keeps_records_on_manual hostTag fsas vas force :
  Footprint anyAnswer keepsRecords (cleanupDyingEntityStorage hostTag true fsas vas force).
Proof. unfold cleanupDyingEntityStorage. cbv zeta. cbn [negb]. footprint. Qed.

Section Forced.

Variable W : Type.
Variable exec : forall R : Type, Op R -> W -> R * W * list cleanupDoc.


(** On a manual machine cleanupDyingEntityStorage removes no filesystem, no
    filesystem attachment and no volume attachment plan, and sets no
    filesystem detached, forced or not. *)
Theorem cleanupDyingEntityStorage_manual_removes_nothing hostTag fsas vas force (s : HS W) :
  pick asStorageRemoval
       (since s (snd (run exec (cleanupDyingEntityStorage hostTag true fsas vas force) s)))
  = [].
Proof.
  apply (@pick_none _ asStorageRemoval keepsRecords); [not_picked |].
  apply footprint_since, keeps_records_on_manual.
Qed.

(** A forced cleanupRemovedUnit returns nil, whatever fails. *)
Theorem cleanupRemovedUnit_forced_never_fails unitId args (s : HS W) :
  forcePlan args = Some true ->
  fst (run exec (cleanupRemovedUnit unitId args) s) = None.
Proof.
  intros Hplan. rewrite (forcePlan_cleanupRemovedUnit unitId _ Hplan).
  apply (yields_run exec (yields_cleanupRemovedUnit unitId)).
Qed.

(** cleanupRemovedUnit finishes only actions that are pending or running,
    and finishes them as cancelled with the message unit removed: a
    completed, cancelled or failed action is left as it is. *)
Theorem cleanupRemovedUnit_cancels_unfinished_only unitId args (s : HS W) :
  Forall (fun ar =>
            (actionStatus (fst ar) = ActionPending \/ actionStatus (fst ar) = ActionRunning)
            /\ snd ar = {| resultStatus := ActionCancelled;
                           resultMessage := "unit removed" |})
         (pick asActionFinish (since s (snd (run exec (cleanupRemovedUnit unitId args) s)))).
Proof.
  apply (@pick_Forall _ asActionFinish cancelsUnfinished).
  - intros e y He Hy. destruct e as [R o r | lvl fmt a]; [| discriminate].
    destruct o; try discriminate. simpl in Hy. inversion Hy; subst. exact He.
  - apply footprint_since, cancels_cleanupRemovedUnit.
Qed.

Lemma dying_unit_resources_observed unitId (s : HS W) r evs :
  observe exec (cleanupDyingUnitResources unitId [RawBool true]) s = (r, evs) ->
  exists err, pick asBackend evs = [err] /\ r = err.
Proof.
  intros H. unfold cleanupDyingUnitResources in H.
  cbn [length nth UnmarshalBool isNil negb bind call] in H. rewrite observe_call in H.
  destruct (called exec s NewStorageBackend) as [[e0 |] s1]; cbn [isNil negb] in H.
  { cbn in H. inversion H; subst. exists (Some e0). split; reflexivity. }
  match type of H with
  | (let '(a, evs) := observe exec ?p s1 in _) = _ =>
      assert (Hy : Yields (fun v => v = None) p);
      [| assert (Hf : Footprint anyAnswer pastBackend p);
         [| pose proof (yields_observed exec s1 Hy) as Hres;
            pose proof (footprint_observed exec s1 Hf) as Hevs;
            destruct (observe exec p s1) as [a evs1] ] ]
  end.
  { yields. apply yields_cleanupDyingEntityStorage. }
  { footprint. apply past_cleanupDyingEntityStorage. }
  cbn [fst snd] in Hres, Hevs. inversion H; subst. exists None. split; [| reflexivity].
  simpl. f_equal. apply (@pick_none _ asBackend pastBackend); [not_picked | exact Hevs].
Qed.

(** A forced cleanupDyingUnitResources asks for the storage backend once and
    returns what that answered: nothing else can fail it. *)
Theorem cleanupDyingUnitResources_forced_fails_on_backend_only unitId args (s : HS W) :
  forcePlan args = Some true ->
  let r := run exec (cleanupDyingUnitResources unitId args) s in
  exists err, pick asBackend (since s (snd r)) = [err] /\ fst r = err.
Proof.
  intros Hplan. rewrite (forcePlan_cleanupDyingUnitResources unitId _ Hplan). cbv zeta.
  apply (@dying_unit_resources_observed unitId s). apply observe_run.
Qed.

End Forced.

(** ** The machines of a dying model *)

Section DyingModelMachines.

Variable W : Type.
Variable exec : forall R : Type, Op R -> W -> R * W * list cleanupDoc.

Lemma machines_observed (s : HS W) r evs :
  observe exec cleanupMachinesForDyingModel s = (r, evs) ->
  (forall m forced, In (m, forced) (pick asMachineDestroy evs) ->
     IsManager m = false /\ isContainer m = false
     /\ In (m, (negb forced, None)) (pick asManual evs))
  /\ (r = None ->
      exists machines,
        pick asAllMachines evs = [(machines, None)]
        /\ map fst (pick asMachineDestroy evs)
           = filter (fun m => negb (IsManager m) && negb (isContainer m)) machines).
Proof.
  intros H. unfold cleanupMachinesForDyingModel in H. cbn [bind call] in H.
  rewrite observe_call in H.
  destruct (called exec s AllMachines) as [[machines [e0 |]] s1]; cbn [isNil negb] in H.
  { cbn in H. inversion H; subst. split; [intros m forced [] | discriminate]. }
  rewrite observe_orElse in H.
  observe_loop H
    (fun (m : Machine) (e : list Event) (v : option (option error)) =>
       (forall m' forced, In (m', forced) (pick asMachineDestroy e) ->
          IsManager m' = false /\ isContainer m' = false
          /\ In (m', (negb forced, None)) (pick asManual e))
       /\ pick asAllMachines e = []
       /\ (v = None ->
           map fst (pick asMachineDestroy e)
           = if negb (IsManager m) && negb (isContainer m) then [m] else [])
       /\ v <> Some None) Hloop.
  { intros m s0 _.
    assert (Hleaf : forall (e : list Event) (v : option (option error)),
      (forall m' forced, In (m', forced) (pick asMachineDestroy e) ->
         m' = m /\ In (m', (negb forced, None)) (pick asManual e)) ->
      pick asAllMachines e = [] ->
      (v = None -> map fst (pick asMachineDestroy e)
                   = if negb (IsManager m) && negb (isContainer m) then [m] else []) ->
      v <> Some None ->
      IsManager m = false \/ pick asMachineDestroy e = [] ->
      isContainer m = false \/ pick asMachineDestroy e = [] ->
      (forall m' forced, In (m', forced) (pick asMachineDestroy e) ->
          IsManager m' = false /\ isContainer m' = false
          /\ In (m', (negb forced, None)) (pick asManual e))
       /\ pick asAllMachines e = []
       /\ (v = None ->
           map fst (pick asMachineDestroy e)
           = if negb (IsManager m) && negb (isContainer m) then [m] else [])
       /\ v <> Some None).
    { intros e v H1 H2 H3 H4 H5 H6.
      split; [| split; [exact H2 | split; [exact H3 | exact H4]]].
      intros m' forced Hin. destruct (H1 _ _ Hin) as [-> Hman].
      split; [| split; [| exact Hman]].
      - destruct H5 as [H5 | H5]; [exact H5 | rewrite H5 in Hin; destruct Hin].
      - destruct H6 as [H6 | H6]; [exact H6 | rewrite H6 in Hin; destruct Hin]. }
    destruct (IsManager m) eqn:Hmgr.
    { apply Hleaf; cbn; auto; try discriminate. intros ? ? []. }
    destruct (isContainer m) eqn:Hcont.
    { apply Hleaf; cbn; auto; try discriminate. intros ? ? []. }
    cbn [bind call]. rewrite observe_call.
    destruct (called exec s0 (IsManual m)) as [[manual [e1 |]] s2]; cbn [isNil negb].
    { apply Hleaf; cbn; auto; try discriminate. intros ? ? []. }
    rewrite observe_call.
    destruct manual;
      match goal with
      | |- context [called exec s2 ?o] => destruct (called exec s2 o) as [[e2 |] s3]
      end;
      apply Hleaf; cbn; auto; try discriminate;
      intros m' forced [Heq | []]; inversion Heq; subst; split; auto; now left. }
  destruct (observe exec (forEach machines _) s1) as [v evsL]. cbn [fst snd] in Hloop.
  assert (Hspare : forall m forced, In (m, forced) (pick asMachineDestroy evsL) ->
            IsManager m = false /\ isContainer m = false
            /\ In (m, (negb forced, None)) (pick asManual evsL)).
  { refine (Loop_all (fun evs => forall m forced, In (m, forced) (pick asMachineDestroy evs) ->
             IsManager m = false /\ isContainer m = false
             /\ In (m, (negb forced, None)) (pick asManual evs)) _ _ _ Hloop).
    - intros m forced [].
    - intros a b Ha Hb m forced Hin. rewrite pick_app in Hin. rewrite pick_app.
      apply in_app_or in Hin. destruct Hin as [Hin | Hin];
        [destruct (Ha _ _ Hin) as [? [? ?]] | destruct (Hb _ _ Hin) as [? [? ?]]];
        repeat split; auto; apply in_or_app; auto.
    - intros x e v0 Hx. apply Hx. }
  assert (Hnone : pick asAllMachines evsL = []).
  { refine (Loop_all (fun evs => pick asAllMachines evs = []) _ _ _ Hloop);
      [reflexivity | |].
    - intros a b Ha Hb. now rewrite pick_app, Ha, Hb.
    - intros x e v0 Hx. apply Hx. }
  destruct v as [v |]; cbn in H; inversion H; subst; clear H;
    rewrite ?app_nil_r; cbn [pick asAllMachines asMachineDestroy asManual].
  - split; [exact Hspare |]. intros ->.
    now apply (Loop_returned (fun v => v <> None)
                 (fun x e v H => fun Hv => proj2 (proj2 (proj2 H)) (f_equal Some Hv)))
      in Hloop.
  - split; [exact Hspare |]. intros _. exists machines.
    rewrite Hnone. split; [reflexivity |].
    rewrite <- flat_map_filter.
    refine (Loop_hom (fun evs => map fst (pick asMachineDestroy evs))
              (fun m => if negb (IsManager m) && negb (isContainer m) then [m] else [])
              _ _ _ Hloop); [reflexivity | |].
    + intros a b. now rewrite pick_app, map_app.
    + intros x e Hx. now apply Hx.
Qed.

(** cleanupMachinesForDyingModel never destroys a controller machine or a
    container; it destroys by force only machines for which IsManual
    answered false, and without force only machines for which it answered
    true.  When it returns nil it has listed the machines once and
    destroyed the machines that are neither, in the order of the listing. *)
Theorem cleanupMachinesForDyingModel_spares (s : HS W) :
  let r := run exec cleanupMachinesForDyingModel s in
  let evs := since s (snd r) in
  (forall m forced, In (m, forced) (pick asMachineDestroy evs) ->
     IsManager m = false /\ isContainer m = false
     /\ In (m, (negb forced, None)) (pick asManual evs))
  /\ (fst r = None ->
      exists machines,
        pick asAllMachines evs = [(machines, None)]
        /\ map fst (pick asMachineDestroy evs)
           = filter (fun m => negb (IsManager m) && negb (isContainer m)) machines).
Proof. cbv zeta. apply (@machines_observed s). apply observe_run. Qed.

End DyingModelMachines.

(** ** The models of a dying controller *)

Section DyingController.

Variable W : Type.
Variable exec : forall R : Type, Op R -> W -> R * W * list cleanupDoc.

(** The loop over the models: the states it opened are deferred, the latest
    first; it closes none and destroys with the parameters it was given. *)
Lemma destroyModels_observed args uuids deferred (s : HS W) :
  let '(a, evs) := observe exec (destroyModels args uuids deferred) s in
  snd a = rev (pick asOpened evs) ++ deferred
  /\ pick asClosed evs = []
  /\ Forall (fun ma => snd ma = args) (pick asModelDestroy evs).
Proof.
  revert deferred s. induction uuids as [| uuid uuids IH]; intros deferred s.
  - simpl. repeat split. constructor.
  - cbn [destroyModels bind call]. rewrite observe_call.
    destruct (called exec s (newStateNoWorkers uuid)) as [[newSt [e0 |]] s1];
      cbn [isNil negb].
    + destruct (IsNotFound (Some e0)).
      * specialize (IH deferred s1).
        destruct (observe exec (destroyModels args uuids deferred) s1) as [a evs].
        exact IH.
      * cbn. repeat split. constructor.
    + rewrite observe_call.
      destruct (called exec s1 (StateModel newSt)) as [[model [e1 |]] s2];
        cbn [isNil negb].
      { cbn. repeat split. constructor. }
      rewrite observe_call.
      destruct (called exec s2 (ModelDestroy model args)) as [[e2 |] s3];
        cbn [isNil negb].
      { cbn. repeat split. repeat constructor. }
      specialize (IH (newSt :: deferred) s3).
      destruct (observe exec (destroyModels args uuids (newSt :: deferred)) s3)
        as [a evs].
      destruct IH as [Hd [Hc Hm]]. cbn. rewrite Hd, <- app_assoc.
      repeat split; [exact Hc |]. constructor; [reflexivity | exact Hm].
Qed.

Lemma runDeferredClose_observed deferred (s : HS W) :
  let '(a, evs) := observe exec (runDeferredClose deferred) s in
  pick asClosed evs = deferred /\ pick asOpened evs = [] /\ pick asModelDestroy evs = [].
Proof.
  revert s. induction deferred as [| newSt deferred IH]; intros s.
  - simpl. repeat split.
  - cbn [runDeferredClose bind call]. rewrite observe_call.
    destruct (called exec s (StateClose newSt)) as [r s1].
    specialize (IH s1). destruct (observe exec (runDeferredClose deferred) s1) as [a evs].
    destruct IH as [Hc [Ho Hm]]. cbn. now rewrite Hc.
Qed.

Lemma models_observed (params : DestroyModelParams) (s : HS W) r evs :
  observe exec
    ('(modelUUIDs, err) <- call AllModelUUIDs ;;
     if negb (isNil err) then Ret (Trace err)
     else
       '(err, deferred) <- destroyModels params modelUUIDs [] ;;
       runDeferredClose deferred ;;
       Ret err) s = (r, evs) ->
  pick asClosed evs = rev (pick asOpened evs)
  /\ Forall (fun ma => snd ma = params) (pick asModelDestroy evs).
Proof.
  intros H. cbn [bind call] in H. rewrite observe_call in H.
  destruct (called exec s AllModelUUIDs) as [[uuids [e0 |]] s1]; cbn [isNil negb] in H.
  { cbn in H. inversion H; subst. split; [reflexivity | constructor]. }
  rewrite observe_bind in H.
  pose proof (destroyModels_observed params uuids [] s1) as H1.
  destruct (observe exec (destroyModels params uuids []) s1) as [[err deferred] evs1].
  destruct H1 as [Hd [Hc Hm]]. cbn [snd] in Hd. rewrite app_nil_r in Hd.
  rewrite observe_bind in H.
  pose proof (runDeferredClose_observed deferred
                (snd (run exec (destroyModels params uuids []) s1))) as H2.
  destruct (observe exec (runDeferredClose deferred)
              (snd (run exec (destroyModels params uuids []) s1))) as [[] evs2].
  destruct H2 as [Hc2 [Ho2 Hm2]]. cbn in H. inversion H; subst. clear H.
  cbn [pick asClosed asOpened asModelDestroy fst snd].
  rewrite !pick_app, Hc, Hc2, Ho2, Hm2, !app_nil_r. simpl. split; [reflexivity | exact Hm].
Qed.

(** cleanupModelsForDyingController closes every state it opened, once, the
    latest first, on every path: the deferred Close calls run whether the
    loop over the models ends or returns an error. *)
Theorem cleanupModelsForDyingController_closes_states args (s : HS W) :
  let evs := since s (snd (run exec (cleanupModelsForDyingController args) s)) in
  pick asClosed evs = rev (pick asOpened evs).
Proof.
  cbv zeta.
  pose proof (observe_run exec (cleanupModelsForDyingController args) s) as Hobs.
  apply (f_equal snd) in Hobs. cbn [snd] in Hobs. rewrite <- Hobs. clear Hobs.
  unfold cleanupModelsForDyingController.
  destruct args as [| a [| b rest]]; cbn [length nth].
  - eapply models_observed. apply surjective_pairing.
  - destruct a; cbn [UnmarshalParams isNil negb]; try reflexivity.
    eapply models_observed. apply surjective_pairing.
  - reflexivity.
Qed.

(** Every model is destroyed with the parameters of the task: those decoded
    from its argument, and DestroyStorage = true when the task has no
    argument. *)
Theorem cleanupModelsForDyingController_parameters args (s : HS W) :
  let evs := since s (snd (run exec (cleanupModelsForDyingController args) s)) in
  Forall (fun ma => snd ma = match args with
                            | [RawParams p] => p
                            | _ => {| DestroyStorage := Some true; otherParams := "" |}
                            end)
         (pick asModelDestroy evs).
Proof.
  cbv zeta.
  pose proof (observe_run exec (cleanupModelsForDyingController args) s) as Hobs.
  apply (f_equal snd) in Hobs. cbn [snd] in Hobs. rewrite <- Hobs. clear Hobs.
  unfold cleanupModelsForDyingController.
  destruct args as [| a [| b rest]]; cbn [length nth].
  - eapply models_observed. apply surjective_pairing.
  - destruct a; cbn [UnmarshalParams isNil negb]; try (cbn; constructor).
    eapply models_observed. apply surjective_pairing.
  - cbn. constructor.
Qed.

End DyingController.

(** ** Charms, units to remove, resource blobs *)

Section SingleShot.

Variable W : Type.
Variable exec : forall R : Type, Op R -> W -> R * W * list cleanupDoc.

(** cleanupCharm calls Destroy on the charm at most once.  It calls Remove
    only when Destroy answered nil, on the same charm, and then returns what
    Remove answered; a charm in use is left alone and is no error; any other
    failure of Destroy is returned, and nothing is removed. *)
Theorem cleanupCharm_removes_after_destroy charmURL (s : HS W) :
  let r := run exec (cleanupCharm charmURL) s in
  let evs := since s (snd r) in
  match pick asCharmDestroy evs with
  | [] => pick asCharmRemove evs = []
  | [(ch, err)] =>
      match option_map Cause err with
      | None =>
          exists removed,
            pick asCharmRemove evs = [(ch, removed)] /\ fst r = Trace removed
      | Some errCharmInUse => pick asCharmRemove evs = [] /\ fst r = None
      | Some _ => pick asCharmRemove evs = [] /\ fst r = Annotate err "destroying charm"
      end
  | _ => False
  end.
Proof.
  cbv zeta.
  pose proof (observe_run exec (cleanupCharm charmURL) s) as Hobs.
  replace (fst (run exec (cleanupCharm charmURL) s))
    with (fst (observe exec (cleanupCharm charmURL) s)) by now rewrite Hobs.
  replace (since s (snd (run exec (cleanupCharm charmURL) s)))
    with (snd (observe exec (cleanupCharm charmURL) s)) by now rewrite Hobs.
  clear Hobs. unfold cleanupCharm. cbn [bind call observe].
  destruct (called exec s (ParseURL charmURL)) as [[curl [e0 |]] s1]; [reflexivity |].
  cbn [isNil negb observe].
  destruct (called exec s1 (StCharm curl)) as [[ch err1] s2].
  destruct (IsNotFound err1); [reflexivity |].
  destruct err1 as [e1 |]; [reflexivity |]. cbn [isNil negb observe].
  destruct (called exec s2 (CharmDestroy ch)) as [[e2 |] s3]; cbn [option_map].
  - destruct (Cause e2) eqn:Hc; cbn; rewrite Hc; split; reflexivity.
  - cbn [observe]. destruct (called exec s3 (CharmRemove ch)) as [[e3 |] s4]; cbn;
      eexists; split; reflexivity.
Qed.

(** cleanupForceRemoveUnit on a unit that exists calls RemoveWithForce(true)
    on it once and returns the error that answered; the operational errors
    are logged and do not fail the task. *)
Theorem cleanupForceRemoveUnit_returns_removal_error unitId (s : HS W) u :
  fst (called exec s (StUnit unitId)) = (u, None) ->
  let r := run exec (cleanupForceRemoveUnit unitId) s in
  let evs := since s (snd r) in
  exists opErrs err,
    pick asRemoveUnit evs = [(u, true, (opErrs, err))]
    /\ fst r = Trace err
    /\ pick asWarning evs
       = match opErrs with
         | [] => []
         | _ => [("errors encountered force-removing unit %q: %v", [V unitId; Es opErrs])]
         end.
Proof.
  intros Hlook. cbv zeta.
  pose proof (observe_run exec (cleanupForceRemoveUnit unitId) s) as Hobs.
  replace (fst (run exec (cleanupForceRemoveUnit unitId) s))
    with (fst (observe exec (cleanupForceRemoveUnit unitId) s)) by now rewrite Hobs.
  replace (since s (snd (run exec (cleanupForceRemoveUnit unitId) s)))
    with (snd (observe exec (cleanupForceRemoveUnit unitId) s)) by now rewrite Hobs.
  clear Hobs. unfold cleanupForceRemoveUnit. cbn [bind call observe].
  destruct (called exec s (StUnit unitId)) as [[u' e'] s1]. cbn [fst] in Hlook.
  inversion Hlook; subst u' e'. cbn [IsNotFound isNil negb observe].
  destruct (called exec s1 (UnitRemoveWithForce u true)) as [[opErrs err] s2].
  exists opErrs, err. destruct opErrs; cbn; repeat split.
Qed.

(** cleanupResourceBlob ignores a placeholder (the empty path) without a
    call; otherwise it removes the blob once, and a blob that is already
    gone is no error. *)
Theorem cleanupResourceBlob_tolerates_missing storagePath (s : HS W) :
  let r := run exec (cleanupResourceBlob storagePath) s in
  let evs := since s (snd r) in
  if String.eqb storagePath "" then evs = [] /\ fst r = None
  else exists err,
      evs = [Called (ResourceStorageRemove storagePath) err]
      /\ fst r = if IsNotFound err then None else Trace err.
Proof.
  cbv zeta.
  pose proof (observe_run exec (cleanupResourceBlob storagePath) s) as Hobs.
  replace (fst (run exec (cleanupResourceBlob storagePath) s))
    with (fst (observe exec (cleanupResourceBlob storagePath) s)) by now rewrite Hobs.
  replace (since s (snd (run exec (cleanupResourceBlob storagePath) s)))
    with (snd (observe exec (cleanupResourceBlob storagePath) s)) by now rewrite Hobs.
  clear Hobs. unfold cleanupResourceBlob.
  destruct (String.eqb storagePath ""); [split; reflexivity |].
  cbn [bind call observe].
  destruct (called exec s (ResourceStorageRemove storagePath)) as [err s1].
  exists err. destruct (IsNotFound err); split; reflexivity.
Qed.

End SingleShot.

(** ** Attachments of dying volumes and filesystems *)

Section DyingVolume.

Variable W : Type.
Variable exec : forall R : Type, Op R -> W -> R * W * list cleanupDoc.

Lemma volume_observed volumeId (s : HS W) r evs :
  observe exec (cleanupAttachmentsForDyingVolume volumeId) s = (r, evs) ->
  exists backend,
    pick asBackend evs = [backend]
    /\ match backend with
       | Some e => r = Some (Traced e) /\ pick asDetachVolume evs = []
       | None =>
           exists hosts closed failure,
             pick asFindVolumeHosts evs = [(volumeId, (hosts, closed))]
             /\ untilFailure (map (fun h => (h, volumeId)) hosts)
                             (pick asDetachVolume evs) failure
             /\ r = match failure with
                    | Some e => Some (Annotated e "destroying volume attachment")
                    | None => Annotate closed "reading volume attachment document"
                    end
       end.
Proof.
  intros H. unfold cleanupAttachmentsForDyingVolume in H. cbv zeta in H.
  cbn [bind call] in H. rewrite observe_call in H.
  destruct (called exec s NewStorageBackend) as [[e0 |] s1]; cbn [isNil negb] in H.
  { cbn in H. inversion H; subst. exists (Some e0). repeat split. }
  rewrite observe_call in H.
  destruct (called exec s1 (FindVolumeAttachmentHosts volumeId)) as [[hosts closed] s2].
  match type of H with
  | context [observe exec ?p s2] => destruct (observe exec p s2) as [a evs1] eqn:Hob
  end.
  apply (@cursor_loop_observed W exec string (fun h => DetachVolume h volumeId)
           (fun err => Annotate err "destroying volume attachment")
           hosts closed "reading volume attachment document" s2 a evs1) in Hob.
  destruct Hob as [turns [logs [v [-> [Hloop [Hlogs Hr]]]]]].
  inversion H; subst; clear H. exists None.
  destruct ((fun Hf => stop_loop_until asDetachVolume (fun h => (h, volumeId)) Hf Hloop)
              (fun x answer => eq_refl)) as [failure [Hcalls ->]].
  pose proof ((fun Hf => stop_loop_other asBackend Hf Hloop) (fun x answer => eq_refl))
    as Hb.
  pose proof ((fun Hf => stop_loop_other asFindVolumeHosts Hf Hloop)
                (fun x answer => eq_refl)) as Hf.
  cbn [pick asBackend asFindVolumeHosts asDetachVolume].
  rewrite !pick_app, Hb, Hf,
    (pick_logs asBackend (fun _ _ _ => eq_refl) Hlogs),
    (pick_logs asFindVolumeHosts (fun _ _ _ => eq_refl) Hlogs),
    (pick_logs asDetachVolume (fun _ _ _ => eq_refl) Hlogs), !app_nil_r.
  split; [reflexivity |]. exists hosts, closed, failure.
  split; [reflexivity |]. split; [exact Hcalls |]. now destruct failure.
Qed.

Lemma filesystem_observed filesystemId (s : HS W) r evs :
  observe exec (cleanupAttachmentsForDyingFilesystem filesystemId) s = (r, evs) ->
  exists backend,
    pick asBackend evs = [backend]
    /\ match backend with
       | Some e => r = Some (Traced e) /\ pick asDetachFilesystem evs = []
       | None =>
           exists hosts closed failure,
             pick asFindFilesystemHosts evs = [(filesystemId, (hosts, closed))]
             /\ untilFailure (map (fun h => (h, filesystemId)) hosts)
                             (pick asDetachFilesystem evs) failure
             /\ r = match failure with
                    | Some e => Some (Annotated e "destroying filesystem attachment")
                    | None => Annotate closed "reading filesystem attachment document"
                    end
       end.
Proof.
  intros H. unfold cleanupAttachmentsForDyingFilesystem in H. cbv zeta in H.
  cbn [bind call] in H. rewrite observe_call in H.
  destruct (called exec s NewStorageBackend) as [[e0 |] s1]; cbn [isNil negb] in H.
  { cbn in H. inversion H; subst. exists (Some e0). repeat split. }
  rewrite observe_call in H.
  destruct (called exec s1 (FindFilesystemAttachmentHosts filesystemId))
    as [[hosts closed] s2].
  match type of H with
  | context [observe exec ?p s2] => destruct (observe exec p s2) as [a evs1] eqn:Hob
  end.
  apply (@cursor_loop_observed W exec string (fun h => DetachFilesystem h filesystemId)
           (fun err => Annotate err "destroying filesystem attachment")
           hosts closed "reading filesystem attachment document" s2 a evs1) in Hob.
  destruct Hob as [turns [logs [v [-> [Hloop [Hlogs Hr]]]]]].
  inversion H; subst; clear H. exists None.
  destruct ((fun Hf => stop_loop_until asDetachFilesystem (fun h => (h, filesystemId))
                         Hf Hloop) (fun x answer => eq_refl)) as [failure [Hcalls ->]].
  pose proof ((fun Hf => stop_loop_other asBackend Hf Hloop) (fun x answer => eq_refl))
    as Hb.
  pose proof ((fun Hf => stop_loop_other asFindFilesystemHosts Hf Hloop)
                (fun x answer => eq_refl)) as Hf.
  cbn [pick asBackend asFindFilesystemHosts asDetachFilesystem].
  rewrite !pick_app, Hb, Hf,
    (pick_logs asBackend (fun _ _ _ => eq_refl) Hlogs),
    (pick_logs asFindFilesystemHosts (fun _ _ _ => eq_refl) Hlogs),
    (pick_logs asDetachFilesystem (fun _ _ _ => eq_refl) Hlogs), !app_nil_r.
  split; [reflexivity |]. exists hosts, closed, failure.
  split; [reflexivity |]. split; [exact Hcalls |]. now destruct failure.
Qed.

(** cleanupAttachmentsForDyingVolume asks for the storage backend once and
    returns its failure, traced, without detaching anything.  With the
    backend it detaches the volume from the hosts the cursor hands out, in
    order, and stops at the first failure: the hosts before it were
    detached, no host after it is touched, and the failure is returned,
    annotated.  When no detach fails every host is detached and the result
    is what closing the cursor answered. *)
Theorem cleanupAttachmentsForDyingVolume_stops_at_failure volumeId (s : HS W) :
  let r := run exec (cleanupAttachmentsForDyingVolume volumeId) s in
  let evs := since s (snd r) in
  exists backend,
    pick asBackend evs = [backend]
    /\ match backend with
       | Some e => fst r = Some (Traced e) /\ pick asDetachVolume evs = []
       | None =>
           exists hosts closed failure,
             pick asFindVolumeHosts evs = [(volumeId, (hosts, closed))]
             /\ untilFailure (map (fun h => (h, volumeId)) hosts)
                             (pick asDetachVolume evs) failure
             /\ fst r = match failure with
                        | Some e => Some (Annotated e "destroying volume attachment")
                        | None => Annotate closed "reading volume attachment document"
                        end
       end.
Proof. cbv zeta. apply (@volume_observed volumeId s). apply observe_run. Qed.

(** cleanupAttachmentsForDyingFilesystem does the same for the hosts of a
    filesystem: it stops at the first host it cannot detach the filesystem
    from and returns that failure; otherwise all hosts are detached and the
    result is what closing the cursor answered. *)
Theorem cleanupAttachmentsForDyingFilesystem_stops_at_failure filesystemId (s : HS W) :
  let r := run exec (cleanupAttachmentsForDyingFilesystem filesystemId) s in
  let evs := since s (snd r) in
  exists backend,
    pick asBackend evs = [backend]
    /\ match backend with
       | Some e => fst r = Some (Traced e) /\ pick asDetachFilesystem evs = []
       | None =>
           exists hosts closed failure,
             pick asFindFilesystemHosts evs = [(filesystemId, (hosts, closed))]
             /\ untilFailure (map (fun h => (h, filesystemId)) hosts)
                             (pick asDetachFilesystem evs) failure
             /\ fst r = match failure with
                        | Some e => Some (Annotated e "destroying filesystem attachment")
                        | None => Annotate closed "reading filesystem attachment document"
                        end
       end.
Proof. cbv zeta. apply (@filesystem_observed filesystemId s). apply observe_run. Qed.

End DyingVolume.

(** ** Units of a dying application, applications of a dying model *)

Lemma flagsPlan_cleanupUnitsForDyingApplication application args destroyStorage force :
  flagsPlan args = Some (destroyStorage, force) ->
  cleanupUnitsForDyingApplication application args
  = cleanupUnitsForDyingApplication application [RawBool destroyStorage; RawBool force].
Proof.
  destruct args as [| a [| b [| c rest]]]; simpl.
  - intros H. inversion H. reflexivity.
  - destruct a; simpl; intros H; inversion H; reflexivity.
  - destruct a; simpl; try discriminate; destruct b; simpl; intros H; inversion H;
      reflexivity.
  - destruct a; simpl; try discriminate; destruct b; discriminate.
Qed.

Section DyingApplication.

Variable W : Type.
Variable exec : forall R : Type, Op R -> W -> R * W * list cleanupDoc.

Lemma units_observed application destroyStorage force (s : HS W) r evs :
  observe exec (cleanupUnitsForDyingApplication application
                  [RawBool destroyStorage; RawBool force]) s = (r, evs) ->
  exists units closed failure,
    pick asFindUnitsOf evs = [(application, (units, closed))]
    /\ untilFailure (map (fun u => (u, destroyStorage, force)) units)
                    (pick asDestroyUnit evs) failure
    /\ r = match failure with
           | Some e => Some (Traced e)
           | None => Annotate closed "reading unit document"
           end.
Proof.
  intros H. unfold cleanupUnitsForDyingApplication in H.
  cbn [length nth UnmarshalBool isNil negb Nat.ltb Nat.leb bind call] in H.
  rewrite observe_call in H.
  destruct (called exec s (FindAliveUnits application)) as [[units closed] s1].
  match type of H with
  | context [observe exec ?p s1] => destruct (observe exec p s1) as [a evs1] eqn:Hob
  end.
  apply (@cursor_loop_observed W exec Unit
           (fun u => ApplyDestroyUnit u destroyStorage force) Trace
           units closed "reading unit document" s1 a evs1) in Hob.
  destruct Hob as [turns [logs [v [-> [Hloop [Hlogs Hr]]]]]].
  inversion H; subst; clear H.
  destruct ((fun Hf => stop_loop_until asDestroyUnit (fun u => (u, destroyStorage, force))
                         Hf Hloop) (fun x answer => eq_refl)) as [failure [Hcalls ->]].
  pose proof ((fun Hf => stop_loop_other asFindUnitsOf Hf Hloop)
                (fun x answer => eq_refl)) as Hf.
  cbn [pick asFindUnitsOf asDestroyUnit].
  rewrite !pick_app, Hf,
    (pick_logs asFindUnitsOf (fun _ _ _ => eq_refl) Hlogs),
    (pick_logs asDestroyUnit (fun _ _ _ => eq_refl) Hlogs), !app_nil_r.
  exists units, closed, failure. split; [reflexivity |]. split; [exact Hcalls |].
  now destruct failure.
Qed.

(** cleanupUnitsForDyingApplication destroys the alive units of the
    application in the order of the cursor, each with the two flags of the
    task, and stops at the first failure: the units before it were
    destroyed, no unit after it is touched, and the failure is returned,
    traced.  When no destroy fails every unit is destroyed and the result is
    what closing the cursor answered. *)
Theorem cleanupUnitsForDyingApplication_destroys_in_order
    application args destroyStorage force (s : HS W) :
  flagsPlan args = Some (destroyStorage, force) ->
  let r := run exec (cleanupUnitsForDyingApplication application args) s in
  let evs := since s (snd r) in
  exists units closed failure,
    pick asFindUnitsOf evs = [(application, (units, closed))]
    /\ untilFailure (map (fun u => (u, destroyStorage, force)) units)
                    (pick asDestroyUnit evs) failure
    /\ fst r = match failure with
               | Some e => Some (Traced e)
               | None => Annotate closed "reading unit document"
               end.
Proof.
  intros Hplan. rewrite (flagsPlan_cleanupUnitsForDyingApplication application _ Hplan).
  cbv zeta. apply (@units_observed application destroyStorage force s). apply observe_run.
Qed.

Lemma remote_applications_observed (s : HS W) r evs :
  observe exec removeRemoteApplicationsForDyingModel s = (r, evs) ->
  exists remotes closed failure,
    pick asFindRemoteApplications evs = [(remotes, closed)]
    /\ untilFailure remotes (pick asRemoteDestroy evs) failure
    /\ pick asFindApplications evs = [] /\ pick asApplicationDestroy evs = []
    /\ r = match failure with
           | Some e => Some (Traced e)
           | None => Annotate closed "reading remote application document"
           end.
Proof.
  intros H. unfold removeRemoteApplicationsForDyingModel in H.
  cbn [bind call] in H. rewrite observe_call in H.
  destruct (called exec s FindAliveRemoteApplications) as [[remotes closed] s1].
  match type of H with
  | context [observe exec ?p s1] => destruct (observe exec p s1) as [a evs1] eqn:Hob
  end.
  apply (@cursor_loop_observed W exec RemoteApplicationDoc
           (fun a => RemoteApplicationDestroy a) Trace
           remotes closed "reading remote application document" s1 a evs1) in Hob.
  destruct Hob as [turns [logs [v [-> [Hloop [Hlogs Hr]]]]]].
  inversion H; subst; clear H.
  destruct ((fun Hf => stop_loop_until asRemoteDestroy (fun a => a) Hf Hloop)
              (fun x answer => eq_refl)) as [failure [Hcalls ->]].
  pose proof ((fun Hf => stop_loop_other asFindRemoteApplications Hf Hloop)
                (fun x answer => eq_refl)) as Hf1.
  pose proof ((fun Hf => stop_loop_other asFindApplications Hf Hloop)
                (fun x answer => eq_refl)) as Hf2.
  pose proof ((fun Hf => stop_loop_other asApplicationDestroy Hf Hloop)
                (fun x answer => eq_refl)) as Hf3.
  rewrite map_id in Hcalls.
  cbn [pick asFindRemoteApplications asRemoteDestroy asFindApplications
       asApplicationDestroy].
  rewrite !pick_app, Hf1, Hf2, Hf3,
    (pick_logs asFindRemoteApplications (fun _ _ _ => eq_refl) Hlogs),
    (pick_logs asFindApplications (fun _ _ _ => eq_refl) Hlogs),
    (pick_logs asApplicationDestroy (fun _ _ _ => eq_refl) Hlogs),
    (pick_logs asRemoteDestroy (fun _ _ _ => eq_refl) Hlogs), !app_nil_r.
  exists remotes, closed, failure. repeat (split; [reflexivity || exact Hcalls |]).
  now destruct failure.
Qed.

Lemma applications_observed (s : HS W) r evs :
  observe exec removeApplicationsForDyingModel s = (r, evs) ->
  exists apps closed failure,
    pick asFindApplications evs = [(apps, closed)]
    /\ untilFailure (map (fun a => (a, true)) apps) (pick asApplicationDestroy evs) failure
    /\ pick asFindRemoteApplications evs = [] /\ pick asRemoteDestroy evs = []
    /\ r = match failure with
           | Some e => Some (Traced e)
           | None => Annotate closed "reading application document"
           end.
Proof.
  intros H. unfold removeApplicationsForDyingModel in H.
  cbn [bind call] in H. rewrite observe_call in H.
  destruct (called exec s FindAliveApplications) as [[apps closed] s1].
  match type of H with
  | context [observe exec ?p s1] => destruct (observe exec p s1) as [a evs1] eqn:Hob
  end.
  apply (@cursor_loop_observed W exec ApplicationDoc
           (fun a => ApplyDestroyApplication a true) Trace
           apps closed "reading application document" s1 a evs1) in Hob.
  destruct Hob as [turns [logs [v [-> [Hloop [Hlogs Hr]]]]]].
  inversion H; subst; clear H.
  destruct ((fun Hf => stop_loop_until asApplicationDestroy (fun a => (a, true)) Hf Hloop)
              (fun x answer => eq_refl)) as [failure [Hcalls ->]].
  pose proof ((fun Hf => stop_loop_other asFindRemoteApplications Hf Hloop)
                (fun x answer => eq_refl)) as Hf1.
  pose proof ((fun Hf => stop_loop_other asFindApplications Hf Hloop)
                (fun x answer => eq_refl)) as Hf2.
  pose proof ((fun Hf => stop_loop_other asRemoteDestroy Hf Hloop)
                (fun x answer => eq_refl)) as Hf3.
  cbn [pick asFindRemoteApplications asRemoteDestroy asFindApplications
       asApplicationDestroy].
  rewrite !pick_app, Hf1, Hf2, Hf3,
    (pick_logs asFindRemoteApplications (fun _ _ _ => eq_refl) Hlogs),
    (pick_logs asFindApplications (fun _ _ _ => eq_refl) Hlogs),
    (pick_logs asApplicationDestroy (fun _ _ _ => eq_refl) Hlogs),
    (pick_logs asRemoteDestroy (fun _ _ _ => eq_refl) Hlogs), !app_nil_r.
  exists apps, closed, failure. repeat (split; [reflexivity || exact Hcalls |]).
  now destruct failure.
Qed.

(** cleanupApplicationsForDyingModel destroys the remote applications
    first, in the order of their cursor, and stops at the first failure.
    When one of them cannot be destroyed, or their cursor fails, it returns
    that error and no application of the model is looked at.  Otherwise it
    destroys the applications in the order of their cursor, each with
    RemoveOffers set, and stops at the first failure, which it returns;
    when none fails the result is what closing the cursor answered. *)
Theorem cleanupApplicationsForDyingModel_remote_first (s : HS W) :
  let r := run exec cleanupApplicationsForDyingModel s in
  let evs := since s (snd r) in
  exists remotes closed failure,
    pick asFindRemoteApplications evs = [(remotes, closed)]
    /\ untilFailure remotes (pick asRemoteDestroy evs) failure
    /\ match failure, closed with
       | Some e, _ =>
           fst r = Some (Traced e)
           /\ pick asFindApplications evs = [] /\ pick asApplicationDestroy evs = []
       | None, Some c =>
           fst r = Some (Annotated c "reading remote application document")
           /\ pick asFindApplications evs = [] /\ pick asApplicationDestroy evs = []
       | None, None =>
           exists apps closed' failure',
             pick asFindApplications evs = [(apps, closed')]
             /\ untilFailure (map (fun a => (a, true)) apps)
                             (pick asApplicationDestroy evs) failure'
             /\ fst r = match failure' with
                        | Some e => Some (Traced e)
                        | None => Annotate closed' "reading application document"
                        end
       end.
Proof.
  cbv zeta.
  pose proof (observe_run exec cleanupApplicationsForDyingModel s) as Hobs.
  replace (fst (run exec cleanupApplicationsForDyingModel s))
    with (fst (observe exec cleanupApplicationsForDyingModel s)) by now rewrite Hobs.
  replace (since s (snd (run exec cleanupApplicationsForDyingModel s)))
    with (snd (observe exec cleanupApplicationsForDyingModel s)) by now rewrite Hobs.
  clear Hobs. unfold cleanupApplicationsForDyingModel. rewrite observe_bind.
  destruct (observe exec removeRemoteApplicationsForDyingModel s) as [err evs1] eqn:H1.
  apply remote_applications_observed in H1.
  destruct H1 as [remotes [closed [failure [Hfind [Hcalls [Hn1 [Hn2 ->]]]]]]].
  exists remotes, closed, failure.
  destruct failure as [e |]; [| destruct closed as [c |]];
    cbn [Annotate option_map isNil negb].
  - cbn. rewrite !app_nil_r. repeat split; assumption.
  - cbn. rewrite !app_nil_r. repeat split; assumption.
  - match goal with
    | |- context [observe exec removeApplicationsForDyingModel ?st] =>
        destruct (observe exec removeApplicationsForDyingModel st) as [r2 evs2] eqn:H2
    end.
    apply applications_observed in H2.
    destruct H2 as [apps [closed' [failure' [Hfind' [Hcalls' [Hm1 [Hm2 ->]]]]]]].
    cbn [fst snd]. rewrite !pick_app, Hfind, Hm1, Hm2, Hn1, Hn2.
    rewrite !app_nil_r. cbn [app].
    split; [reflexivity |]. split; [exact Hcalls |].
    exists apps, closed', failure'. repeat split; assumption.
Qed.

End DyingApplication.

(** ** Attachments of dying storage, of a unit removed by force *)

Lemma lastOf_cons {X : Type} (x : X) (xs : list X) :
  lastOf (x :: xs) = match lastOf xs with Some y => Some y | None => Some x end.
Proof. unfold lastOf. simpl. now destruct (rev xs). Qed.

Lemma forcePlan_cleanupAttachmentsForDyingStorage storageId args force :
  forcePlan args = Some force ->
  cleanupAttachmentsForDyingStorage storageId args
  = cleanupAttachmentsForDyingStorage storageId [RawBool force].
Proof.
  destruct args as [| a [| b rest]]; simpl.
  - intros H. inversion H. reflexivity.
  - destruct a; simpl; intros H; inversion H; reflexivity.
  - discriminate.
Qed.

Section DyingStorage.

Variable W : Type.
Variable exec : forall R : Type, Op R -> W -> R * W * list cleanupDoc.

(** The loop of [cleanupAttachmentsForDyingStorage] goes through all the
    units and remembers the last failure. *)
Lemma detach_all_observed storageId (force : bool) units (acc : option error) (s : HS W) :
  let '(a, evs) :=
    observe exec
      (foldEach units acc (fun doc detachErr =>
         err <- call (DetachStorage storageId doc force) ;;
         if negb (isNil err) then
           logf Warning "%v" [E (Annotate err "destroying storage attachment")] ;;
           Ret (inl (Annotate err "destroying storage attachment"))
         else Ret (@inl _ Datatypes.unit detachErr))) s in
  a = inl match lastOf (pick asDetachError evs) with
          | Some e => Some (Annotated e "destroying storage attachment")
          | None => acc
          end
  /\ pick asDetach evs = map (fun u => (storageId, u, force)) units
  /\ pick asBackend evs = [] /\ pick asFindUnits evs = [].
Proof.
  match goal with |- context [foldEach units acc ?b] => set (body := b) end.
  revert acc s. induction units as [| u units IH]; intros acc s.
  - simpl. repeat split.
  - cbn [foldEach]. rewrite observe_bind. unfold body at 1. cbn [bind call logf].
    rewrite observe_call.
    destruct (called exec s (DetachStorage storageId u force)) as [[e |] s1];
      cbn [isNil negb observe fst snd run];
      match goal with
      | |- context [observe exec (foldEach units ?acc1 body) ?st] =>
          specialize (IH acc1 st); destruct (observe exec (foldEach units acc1 body) st)
            as [a evs]
      end;
      destruct IH as [-> [Hd [Hb Hf]]];
      cbn [app pick asDetach asDetachError asBackend asFindUnits];
      rewrite ?lastOf_cons, Hd, Hb, Hf; repeat split.
    now destruct (lastOf (pick asDetachError evs)).
Qed.

Lemma storage_attachments_observed storageId force (s : HS W) r evs :
  observe exec (cleanupAttachmentsForDyingStorage storageId [RawBool force]) s = (r, evs) ->
  exists backend,
    pick asBackend evs = [backend]
    /\ match backend with
       | Some e => r = Some (Traced e) /\ pick asDetach evs = []
       | None =>
           exists units closed,
             pick asFindUnits evs = [(storageId, (units, closed))]
             /\ pick asDetach evs = map (fun u => (storageId, u, force)) units
             /\ r = match (if force then None else lastOf (pick asDetachError evs)) with
                    | Some e => Some (Annotated e "destroying storage attachment")
                    | None => Annotate closed "reading storage attachment document"
                    end
       end.
Proof.
  intros H. unfold cleanupAttachmentsForDyingStorage in H.
  cbn [length nth UnmarshalBool isNil negb bind call] in H. rewrite observe_call in H.
  destruct (called exec s NewStorageBackend) as [[e0 |] s1]; cbn [isNil negb] in H.
  { cbn in H. inversion H; subst. exists (Some e0). repeat split. }
  cbv zeta in H. rewrite observe_call in H.
  destruct (called exec s1 (FindStorageAttachmentUnits storageId)) as [[units closed] s2].
  rewrite observe_bind in H.
  pose proof (detach_all_observed storageId force units None s2) as Hloop.
  match type of H with
  | context [observe exec (foldEach units None ?body) s2] =>
      change (let '(a, evs) := observe exec (foldEach units None body) s2 in
              a = inl match lastOf (pick asDetachError evs) with
                      | Some e => Some (Annotated e "destroying storage attachment")
                      | None => None
                      end
              /\ pick asDetach evs = map (fun u => (storageId, u, force)) units
              /\ pick asBackend evs = [] /\ pick asFindUnits evs = []) in Hloop;
      destruct (observe exec (foldEach units None body) s2) as [a evs1]
  end.
  destruct Hloop as [-> [Hd [Hb Hf]]].
  match type of H with
  | context [observe exec (closeIter closed ?err ?msg) ?st] =>
      destruct (closeIter_observed exec closed err msg st) as [Hr Hl];
      destruct (observe exec (closeIter closed err msg) st) as [r' logs]
  end.
  cbn [fst snd] in Hr, Hl. inversion H; subst; clear H. exists None.
  cbn [pick asBackend asFindUnits asDetach asDetachError].
  rewrite !pick_app, Hb, Hf, Hd,
    (pick_logs asBackend (fun _ _ _ => eq_refl) Hl),
    (pick_logs asFindUnits (fun _ _ _ => eq_refl) Hl),
    (pick_logs asDetach (fun _ _ _ => eq_refl) Hl),
    (pick_logs asDetachError (fun _ _ _ => eq_refl) Hl), !app_nil_r.
  split; [reflexivity |]. exists units, closed. split; [reflexivity |].
  split; [reflexivity |].
  destruct force; cbn [negb andb]; [reflexivity |].
  now destruct (lastOf (pick asDetachError evs1)).
Qed.

(** cleanupAttachmentsForDyingStorage detaches the storage from every unit
    the cursor hands out, whether or not a detach fails.  Without force it
    returns the last failure; with force, or when nothing failed, what
    closing the cursor answered. *)
Theorem cleanupAttachmentsForDyingStorage_detaches_all storageId args force (s : HS W) :
  forcePlan args = Some force ->
  let r := run exec (cleanupAttachmentsForDyingStorage storageId args) s in
  let evs := since s (snd r) in
  exists backend,
    pick asBackend evs = [backend]
    /\ match backend with
       | Some e => fst r = Some (Traced e) /\ pick asDetach evs = []
       | None =>
           exists units closed,
             pick asFindUnits evs = [(storageId, (units, closed))]
             /\ pick asDetach evs = map (fun u => (storageId, u, force)) units
             /\ fst r
                = match (if force then None else lastOf (pick asDetachError evs)) with
                  | Some e => Some (Annotated e "destroying storage attachment")
                  | None => Annotate closed "reading storage attachment document"
                  end
       end.
Proof.
  intros Hplan. rewrite (forcePlan_cleanupAttachmentsForDyingStorage storageId _ Hplan).
  cbv zeta. apply (@storage_attachments_observed storageId force s). apply observe_run.
Qed.

Lemma force_remove_observed u (s : HS W) r evs :
  observe exec (forceRemoveUnitStorageAttachments u) s = (r, evs) ->
  match pick asAttachments evs with
  | [(unit, (attachments, None))] =>
      unit = Name u /\ r = None
      /\ pick asRemoveAttachment evs
         = map (fun a => (StorageInstance a, Name u, true)) attachments
  | _ => r <> None /\ pick asRemoveAttachment evs = []
  end.
Proof.
  intros H. unfold forceRemoveUnitStorageAttachments in H. cbn [bind call] in H.
  rewrite observe_call in H.
  destruct (called exec s NewStorageBackend) as [[e0 |] s1]; cbn [isNil negb] in H.
  { cbn in H. inversion H; subst. cbn. split; [discriminate | reflexivity]. }
  rewrite observe_call in H.
  destruct (called exec s1 (DestroyUnitStorageAttachments (Name u))) as [[e1 |] s2];
    cbn [isNil negb] in H.
  { cbn in H. inversion H; subst. cbn. split; [discriminate | reflexivity]. }
  rewrite observe_call in H.
  destruct (called exec s2 (UnitStorageAttachments (Name u))) as [[atts [e2 |]] s3];
    cbn [isNil negb] in H.
  { cbn in H. inversion H; subst. cbn. split; [discriminate | reflexivity]. }
  rewrite observe_orElse in H.
  observe_loop H
    (fun (a : StorageAttachment) (e : list Event) (v : option (option error)) =>
       pick asRemoveAttachment e = [(StorageInstance a, Name u, true)]
       /\ pick asAttachments e = [] /\ v = None) Hloop.
  { intros a s0 _. cbn [bind call logf]. rewrite observe_call.
    destruct (called exec s0 (RemoveStorageAttachment (StorageInstance a) (Name u) true))
      as [[e |] s4]; cbn; repeat split. }
  destruct (observe exec (forEach atts _) s3) as [v evsL]. cbn [fst snd] in Hloop.
  assert (Hv : v = None).
  { destruct v as [v |]; [| reflexivity].
    exfalso. refine (Loop_returned (fun _ => False) _ Hloop).
    intros x e v0 [_ [_ Hx]]. discriminate. }
  subst v.
  destruct (Loop_pick asRemoveAttachment
              (fun a => [(StorageInstance a, Name u, true)])
              (fun x e v H => proj1 H) Hloop) as [k [_ Hall]].
  destruct (Loop_pick asAttachments (fun _ => [])
              (fun x e v H => proj1 (proj2 H)) Hloop) as [k' [Hatt _]].
  rewrite flat_map_single in Hall. rewrite flat_map_nil in Hatt.
  cbn in H. inversion H; subst; clear H.
  cbn [pick asAttachments asRemoveAttachment]. rewrite !app_nil_r, Hatt.
  repeat split. now apply Hall.
Qed.

(** forceRemoveUnitStorageAttachments, once it has listed the attachments of
    the unit, cannot fail: it removes every attachment with force, and a
    removal that fails is logged.  When an earlier step fails it returns
    that error and removes nothing. *)
Theorem forceRemoveUnitStorageAttachments_removes_all u (s : HS W) :
  let r := run exec (forceRemoveUnitStorageAttachments u) s in
  let evs := since s (snd r) in
  match pick asAttachments evs with
  | [(unit, (attachments, None))] =>
      unit = Name u /\ fst r = None
      /\ pick asRemoveAttachment evs
         = map (fun a => (StorageInstance a, Name u, true)) attachments
  | _ => fst r <> None /\ pick asRemoveAttachment evs = []
  end.
Proof. cbv zeta. apply (@force_remove_observed u s). apply observe_run. Qed.

End DyingStorage.

(** ** Obliterating a unit *)

Lemma lastOf_app {X : Type} (a b : list X) x :
  lastOf b = Some x -> lastOf (a ++ b) = Some x.
Proof.
  unfold lastOf. rewrite rev_app_distr. destruct (rev b); [discriminate |].
  simpl. auto.
Qed.

(** A loop with an accumulator returns from the function what one of its
    turns returned. *)
Lemma Yields_foldEach {X S R : Type} (Q : R -> Prop) (xs : list X) (acc : S)
    (body : X -> S -> Prog (S + R)) :
  (forall x acc, Yields (fun r => match r with inl _ => True | inr v => Q v end)
                        (body x acc)) ->
  Yields (fun r => match r with inl _ => True | inr v => Q v end) (foldEach xs acc body).
Proof.
  intros Hbody. revert acc. induction xs as [| x xs IH]; intros acc; simpl.
  - now apply YRet.
  - eapply Yields_bind; [apply Hbody |].
    intros [acc' | v] Hv; [apply IH | now apply YRet].
Qed.

Section Obliterate.

Variable W : Type.
Variable exec : forall R : Type, Op R -> W -> R * W * list cleanupDoc.

Lemma endsWithRemoval_app a e1 e2 : endsWithRemoval a e2 -> endsWithRemoval a (e1 ++ e2).
Proof.
  destruct a as [[opErrs [e |]] |]; simpl; auto.
  intros [u [errs H]]. exists u, errs. now apply lastOf_app.
Qed.

Lemma ends_bind {B : Type} (Q : B -> Prop) (p : Prog B)
    (f : B -> Prog (outcome (list error * option error))) (s : HS W) :
  Yields Q p ->
  (forall b s0, Q b ->
     endsWithRemoval (fst (observe exec (f b) s0)) (snd (observe exec (f b) s0))) ->
  endsWithRemoval (fst (observe exec (bind p f) s)) (snd (observe exec (bind p f) s)).
Proof.
  intros Hp Hf. rewrite observe_bind.
  pose proof (yields_observed exec s Hp) as Hq.
  destruct (observe exec p s) as [b evs]. cbn [fst] in Hq.
  specialize (Hf b (snd (run exec p s)) Hq).
  destruct (observe exec (f b) (snd (run exec p s))) as [a evs'].
  cbn [fst snd] in *. now apply endsWithRemoval_app.
Qed.

Lemma ends_call {R : Type} (o : Op R)
    (k : R -> Prog (outcome (list error * option error))) (s : HS W) :
  (forall r s0,
     endsWithRemoval (fst (observe exec (k r) s0)) (snd (observe exec (k r) s0))) ->
  endsWithRemoval (fst (observe exec (Call o k) s)) (snd (observe exec (Call o k) s)).
Proof.
  intros Hk. rewrite observe_call. destruct (called exec s o) as [r s1].
  specialize (Hk r s1). destruct (observe exec (k r) s1) as [a evs]. cbn [fst snd] in *.
  change (Called o r :: evs) with ([Called o r] ++ evs). now apply endsWithRemoval_app.
Qed.

(** With force, obliterateUnit returns an error only when the lookup of the
    unit failed (and the error is that failure) or when the final
    RemoveWithForce failed (and the error is that failure): what Destroy,
    Refresh, the storage cleanup, the subordinates and EnsureDead report is
    collected in the operational errors and the function goes on. *)
Theorem obliterateUnit_forced_error_origin fuel unitName (s : HS W) :
  let r := run exec (obliterateUnit fuel unitName true) s in
  let evs := since s (snd r) in
  match fst r with
  | Returned (_, Some e) =>
      (exists u, hd_error evs = Some (Called (StUnit unitName) (u, Some e)))
      \/ (exists u errs,
            lastOf evs = Some (Called (UnitRemoveWithForce u true) (errs, Some e)))
  | _ => True
  end.
Proof.
  cbv zeta.
  pose proof (observe_run exec (obliterateUnit fuel unitName true) s) as Hobs.
  replace (fst (run exec (obliterateUnit fuel unitName true) s))
    with (fst (observe exec (obliterateUnit fuel unitName true) s)) by now rewrite Hobs.
  replace (since s (snd (run exec (obliterateUnit fuel unitName true) s)))
    with (snd (observe exec (obliterateUnit fuel unitName true) s)) by now rewrite Hobs.
  clear Hobs. destruct fuel as [| fuel]; [exact I |].
  cbn [obliterateUnit]. cbv zeta. cbn [bind call]. rewrite observe_call.
  destruct (called exec s (StUnit unitName)) as [[unit err] s1].
  destruct (IsNotFound err); [exact I |].
  destruct err as [e |]; cbn [isNil negb].
  { cbn. left. exists unit. reflexivity. }
  match goal with
  | |- context [observe exec ?p s1] =>
      assert (Hends : endsWithRemoval (fst (observe exec p s1)) (snd (observe exec p s1)));
      [| destruct (observe exec p s1) as [a evs] ]
  end.
  { apply ends_call. intros [errs err2] s2.
    destruct err2 as [e2 |]; cbn [isNil negb andb];
      (apply ends_call; intros [unit' err3] s3;
       destruct (IsNotFound err3); [exact I |];
       destruct err3 as [e3 |]; cbn [isNil negb andb];
       (apply ends_bind with (Q := fun _ => True); [apply Yields_any |];
        intros err4 s4 _; cbv zeta;
        destruct err4 as [e4 |]; cbn [Annotate option_map isNil negb andb];
        (apply ends_bind
           with (Q := fun r : list error + outcome (list error * option error) =>
                        match r with inl _ => True | inr v => v = OutOfFuel end);
         [ apply Yields_foldEach; intros subName acc; apply Yields_then;
           intros [[errs' [e5 |]] |]; cbn [isNil negb andb]; now apply YRet
         | intros [opErrs | v] s5 Hv; [| subst v; exact I];
           cbn [bind call observe];
           destruct (called exec s5 (UnitEnsureDead unit')) as [[e6 |] s6];
           cbn [isNil negb andb observe];
           destruct (called exec s6 (UnitRemoveWithForce unit' true))
             as [[errs7 [e7 |]] s7];
           cbn; try exact I; exists unit', errs7; reflexivity ]))). }
  cbn [fst snd] in *. destruct a as [[opErrs [e |]] |]; try exact I.
  right. destruct Hends as [u [errs Hlast]]. exists u, errs.
  change (Called (StUnit unitName) (unit, None) :: evs)
    with ([Called (StUnit unitName) (unit, None)] ++ evs).
  now apply lastOf_app.
Qed.

End Obliterate.

(** ** Scheduling, arguments *)

Section Scheduling.

Variable W : Type.
Variable exec : forall R : Type, Op R -> W -> R * W * list cleanupDoc.

(** A backstop that scheduleForceCleanup got into the collection under a
    fresh id is found by the query of Cleanup at every clock reading that is
    not before the reading it was scheduled at: forceTimeout is zero, the
    task is due at once. *)
Theorem scheduleForceCleanup_is_due_at_once kind name (s : HS W) :
  let s' := snd (run exec (scheduleForceCleanup kind name) s) in
  exists now id verdict,
    pick asClockRead (since s s') = [now]
    /\ pick asTransaction (since s s')
       = [([OpInsert cleanupsC id (backstop kind name now id)], verdict)]
    /\ (verdict = None -> hasId id (cleanups s) = false ->
        forall later, (now <= later)%Z ->
          In (backstop kind name now id) (filter (dueQuery later) (cleanups s'))).
Proof.
  cbv zeta.
  destruct (run_scheduleForceCleanup exec kind name s) as [now [id [verdict [Ht Hc]]]].
  cbv zeta in Ht, Hc. exists now, id, verdict. rewrite (since_app s _ _ Ht), !pick_app.
  split; [destruct verdict; reflexivity |]. split; [destruct verdict; reflexivity |].
  intros -> Hfresh later Hlater. rewrite Hc. unfold insertDoc. rewrite Hfresh.
  apply filter_In. split.
  - apply in_or_app. right. now left.
  - unfold dueQuery, backstop, Add, forceTimeout. simpl. apply Z.leb_le. lia.
Qed.

Lemma dying_machine_resources_observed m (s : HS W) r evs :
  observe exec (cleanupDyingMachineResources m true) s = (r, evs) ->
  exists err, pick asBackend evs = [err] /\ r = Trace err.
Proof.
  intros H. unfold cleanupDyingMachineResources in H.
  cbn [bind call] in H. rewrite observe_call in H.
  destruct (called exec s NewStorageBackend) as [[e0 |] s1]; cbn [isNil negb] in H.
  { cbn in H. inversion H; subst. exists (Some e0). split; reflexivity. }
  match type of H with
  | (let '(a, evs) := observe exec ?p s1 in _) = _ =>
      assert (Hy : Yields (fun v => v = None) p);
      [| assert (Hf : Footprint anyAnswer pastBackend p);
         [| pose proof (yields_observed exec s1 Hy) as Hres;
            pose proof (footprint_observed exec s1 Hf) as Hevs;
            destruct (observe exec p s1) as [a evs1] ] ]
  end.
  { yields. apply yields_cleanupDyingEntityStorage. }
  { footprint. apply past_cleanupDyingEntityStorage. }
  cbn [fst snd] in Hres, Hevs. inversion H; subst. exists None. split; [| reflexivity].
  simpl. f_equal. apply (@pick_none _ asBackend pastBackend); [not_picked | exact Hevs].
Qed.

(** A forced cleanupDyingMachineResources asks for the storage backend once
    and fails only when that fails. *)
Theorem cleanupDyingMachineResources_forced_fails_on_backend_only m (s : HS W) :
  let r := run exec (cleanupDyingMachineResources m true) s in
  exists err, pick asBackend (since s (snd r)) = [err] /\ fst r = Trace err.
Proof. cbv zeta. apply (@dying_machine_resources_observed m s). apply observe_run. Qed.

(** A task whose arguments are too many, or not of the kind the handler
    decodes, is refused before the handler touches anything: it returns an
    error from the state it was called in.  cleanupStorageForDyingModel asks
    for the storage backend first and then refuses. *)
Theorem handlers_refuse_malformed_arguments args (s : HS W) :
  (flagsPlan args = None ->
   (forall name, exists e, run exec (cleanupDyingUnit name args) s = (Some e, s))
   /\ (forall application,
         exists e, run exec (cleanupUnitsForDyingApplication application args) s
                   = (Some e, s)))
  /\ (forcePlan args = None ->
      (forall unitId, exists e, run exec (cleanupDyingUnitResources unitId args) s
                                = (Some e, s))
      /\ (forall unitId, exists e, run exec (cleanupRemovedUnit unitId args) s = (Some e, s))
      /\ (forall id, exists e, run exec (cleanupDyingMachine id args) s = (Some e, s))
      /\ (forall storageId,
            exists e, run exec (cleanupAttachmentsForDyingStorage storageId args) s
                      = (Some e, s)))
  /\ (storagePlan args = None ->
      exists backend,
        since s (snd (run exec (cleanupStorageForDyingModel args) s))
        = [Called NewStorageBackend backend]
        /\ fst (run exec (cleanupStorageForDyingModel args) s) <> None).
Proof.
  split; [| split].
  - intros Hplan. split; intros x;
      destruct args as [| a [| b [| c rest]]]; try discriminate;
      try (destruct a; try discriminate; try (eexists; reflexivity);
           destruct b; try discriminate; eexists; reflexivity);
      eexists; reflexivity.
  - intros Hplan. repeat split; intros x;
      destruct args as [| a [| b rest]]; try discriminate;
      try (destruct a; try discriminate; eexists; reflexivity);
      eexists; reflexivity.
  - intros Hplan.
    pose proof (observe_run exec (cleanupStorageForDyingModel args) s) as Hobs.
    replace (fst (run exec (cleanupStorageForDyingModel args) s))
      with (fst (observe exec (cleanupStorageForDyingModel args) s)) by now rewrite Hobs.
    replace (since s (snd (run exec (cleanupStorageForDyingModel args) s)))
      with (snd (observe exec (cleanupStorageForDyingModel args) s)) by now rewrite Hobs.
    clear Hobs. unfold cleanupStorageForDyingModel. cbn [bind call]. rewrite observe_call.
    destruct (called exec s NewStorageBackend) as [[e0 |] s1]; cbn [isNil negb].
    { exists (Some e0). cbn. split; [reflexivity | discriminate]. }
    exists None.
    destruct args as [| a [| b [| c rest]]]; try discriminate.
    + destruct a; try discriminate; cbn; (split; [reflexivity | discriminate]).
    + destruct a; try discriminate; cbn; try (split; [reflexivity | discriminate]);
        destruct b; try discriminate; cbn;
        repeat (match goal with
                | |- context [if ?c then _ else _] => destruct c
                end; cbn);
        (split; [reflexivity | discriminate]).
    + cbn. split; [reflexivity | discriminate].
Qed.

End Scheduling.

(** ** The handlers on the failing backend *)

(** The storage of a dying model, to be kept: both instances are released
    and none is destroyed. *)
Lemma cleanupStorageForDyingModel_follows_flag_witness :
  let r := run Lab.exec (cleanupStorageForDyingModel [RawBool false]) Lab.start in
  fst r = None
  /\ pick asReleaseInstance (since Lab.start (snd r))
     = [("data/0", true, false); ("data/1", true, false)]
  /\ pick asDestroyInstance (since Lab.start (snd r)) = [].
Proof.
  destruct (cleanupStorageForDyingModel_follows_flag Lab.exec [RawBool false] Lab.start
              eq_refl) as [Hnone _].
  split; [reflexivity |]. split; [reflexivity | exact Hnone].
Defined.

(** The forced cleanup of a removed unit whose action cannot be finished and
    whose payloads cannot be cleaned up. *)
Lemma cleanupRemovedUnit_forced_never_fails_witness :
  fst (run Lab.exec (cleanupRemovedUnit "app/0" [RawBool true]) Lab.start) = None
  /\ pick asActionFinish
          (since Lab.start
                 (snd (run Lab.exec (cleanupRemovedUnit "app/0" [RawBool true]) Lab.start)))
     = [({| actionName := "backup"; actionStatus := ActionRunning |},
         {| resultStatus := ActionCancelled; resultMessage := "unit removed" |})].
Proof.
  split; [| reflexivity].
  exact (cleanupRemovedUnit_forced_never_fails Lab.exec "app/0" [RawBool true] Lab.start
           eq_refl).
Defined.

(** The forced cleanup of the resources of a unit whose filesystem
    attachments cannot be listed. *)
Lemma cleanupDyingUnitResources_forced_fails_on_backend_only_witness :
  exists err,
    pick asBackend
         (since Lab.start
                (snd (run Lab.exec (cleanupDyingUnitResources "app/0" [RawBool true])
                          Lab.start))) = [err]
    /\ fst (run Lab.exec (cleanupDyingUnitResources "app/0" [RawBool true]) Lab.start)
       = err.
Proof.
  exact (cleanupDyingUnitResources_forced_fails_on_backend_only Lab.exec "app/0"
           [RawBool true] Lab.start eq_refl).
Defined.

(** A unit that is removed with complaints: the error is returned, traced. *)
Lemma cleanupForceRemoveUnit_returns_removal_error_witness :
  fst (run Lab.exec (cleanupForceRemoveUnit "app/0") Lab.start)
  = Some (Traced Lab.busy).
Proof.
  destruct (cleanupForceRemoveUnit_returns_removal_error Lab.exec "app/0" Lab.start
              (u := Lab.unit "app/0") eq_refl) as [opErrs [err [Hcall [Hr _]]]].
  vm_compute in Hcall. inversion Hcall; subst. exact Hr.
Defined.

(** Three units, the second of which cannot be destroyed: the third is not
    touched and the failure is returned. *)
Lemma cleanupUnitsForDyingApplication_destroys_in_order_witness :
  let r := run Lab.exec (cleanupUnitsForDyingApplication "app" [RawBool true]) Lab.start in
  pick asDestroyUnit (since Lab.start (snd r))
  = [(Lab.unit "app/0", true, false, None); (Lab.unit "app/1", true, false, Some Lab.busy)]
  /\ fst r = Some (Traced Lab.busy).
Proof.
  destruct (cleanupUnitsForDyingApplication_destroys_in_order Lab.exec "app" [RawBool true]
              Lab.start eq_refl) as [units [closed [failure [_ [Hcalls Herr]]]]].
  split; [reflexivity |]. destruct failure as [e |].
  - destruct Hcalls as [done [y [rest [_ Hcalls]]]]. vm_compute in Hcalls.
    destruct done as [| d0 [| d1 [| d2 done]]]; inversion Hcalls; subst. exact Herr.
  - vm_compute in Hcalls. destruct units as [| u0 [| u1 [| u2 units]]]; discriminate.
Defined.

(** Three units, the second of which cannot be detached: all three are
    asked, and the failure is returned when the cleanup is not forced. *)
Lemma cleanupAttachmentsForDyingStorage_detaches_all_witness :
  let r := run Lab.exec (cleanupAttachmentsForDyingStorage "data/0" []) Lab.start in
  pick asDetach (since Lab.start (snd r))
  = [("data/0", "app/0", false); ("data/0", "app/1", false); ("data/0", "app/2", false)]
  /\ fst r = Some (Annotated Lab.busy "destroying storage attachment").
Proof.
  destruct (cleanupAttachmentsForDyingStorage_detaches_all Lab.exec "data/0" [] Lab.start
              eq_refl) as [backend [Hb Hrest]].
  vm_compute in Hb. inversion Hb; subst backend.
  destruct Hrest as [units [closed [Hfind [Hcalls Hr]]]].
  split; [reflexivity |]. vm_compute in Hr. exact Hr.
Defined.
